(** * Car-Speed-Via-Doppler: the speed-estimation pipeline

    A shallow embedding of the decision logic of the library
    (docs/shared/*.js and docs/pure-js/spectrum-analyzer.js) together with
    the properties its specification states about it.

    Numbers.  JavaScript numbers are IEEE-754 doubles.  The embedding keeps
    the three special values (+Infinity, -Infinity, NaN) and the way the
    arithmetic and the comparisons treat them, and represents every finite
    value by an exact rational: rounding, overflow and the sign of zero are
    not modelled.  [Math.sqrt], [Math.cos] and the FFT kernels are taken as
    parameters where a function needs them. *)

From stdpp Require Import strings gmap list sorting.
From Stdlib Require Import QArith Qround Qabs Qminmax Lqa ZArith Lia.

Local Open Scope Q_scope.

(* ===================================================================== *)
(** ** JavaScript numbers *)
(* ===================================================================== *)

Module JS.

Inductive num : Type :=
| Fin (q : Q)
| PInf
| NInf
| NaN.

Definition Qltb (a b : Q) : bool := negb (Qle_bool b a).

(** The sign of a finite value, as the IEEE rules for products and
    quotients with an infinity or a zero need it. *)
Inductive sign := Neg | Zero | Pos.

Definition Qsign (q : Q) : sign :=
  if Qltb 0 q then Pos else if Qltb q 0 then Neg else Zero.

Definition inf_of_sign (s : sign) : num :=
  match s with Pos => PInf | Neg => NInf | Zero => NaN end.

Definition flip (s : sign) : sign :=
  match s with Pos => Neg | Neg => Pos | Zero => Zero end.

Definition neg (a : num) : num :=
  match a with
  | Fin q => Fin (- q)
  | PInf => NInf
  | NInf => PInf
  | NaN => NaN
  end.

(** [a + b] *)
Definition add (a b : num) : num :=
  match a, b with
  | NaN, _ | _, NaN => NaN
  | Fin x, Fin y => Fin (x + y)
  | PInf, NInf | NInf, PInf => NaN
  | PInf, _ | _, PInf => PInf
  | NInf, _ | _, NInf => NInf
  end.

(** [a - b] *)
Definition sub (a b : num) : num := add a (neg b).

(** [a * b] *)
Definition mul (a b : num) : num :=
  match a, b with
  | NaN, _ | _, NaN => NaN
  | Fin x, Fin y => Fin (x * y)
  | Fin x, PInf | PInf, Fin x => inf_of_sign (Qsign x)
  | Fin x, NInf | NInf, Fin x => inf_of_sign (flip (Qsign x))
  | PInf, PInf | NInf, NInf => PInf
  | PInf, NInf | NInf, PInf => NInf
  end.

(** [a / b]: a finite value over zero is an infinity of the sign of the
    numerator, zero over zero is NaN. *)
Definition div (a b : num) : num :=
  match a, b with
  | NaN, _ | _, NaN => NaN
  | Fin x, Fin y =>
      if Qeq_bool y 0 then inf_of_sign (Qsign x) else Fin (x / y)
  | Fin _, (PInf | NInf) => Fin 0
  | PInf, Fin y => if Qltb y 0 then NInf else PInf
  | NInf, Fin y => if Qltb y 0 then PInf else NInf
  | (PInf | NInf), (PInf | NInf) => NaN
  end.

(** [a < b]; every comparison with NaN is false. *)
Definition lt (a b : num) : bool :=
  match a, b with
  | NaN, _ | _, NaN => false
  | Fin x, Fin y => Qltb x y
  | _, NInf => false
  | NInf, _ => true
  | PInf, _ => false
  | _, PInf => true
  end.

(** [a <= b] *)
Definition le (a b : num) : bool :=
  match a, b with
  | NaN, _ | _, NaN => false
  | Fin x, Fin y => Qle_bool x y
  | NInf, _ => true
  | _, PInf => true
  | _, NInf => false
  | PInf, _ => false
  end.

(** [a > b] and [a >= b] *)
Definition gt (a b : num) : bool := lt b a.
Definition ge (a b : num) : bool := le b a.

(** [a === b] on numbers *)
Definition eqb (a b : num) : bool :=
  match a, b with
  | Fin x, Fin y => Qeq_bool x y
  | PInf, PInf | NInf, NInf => true
  | _, _ => false
  end.

(** [Math.abs] *)
Definition abs (a : num) : num :=
  match a with
  | Fin q => Fin (Qabs q)
  | PInf | NInf => PInf
  | NaN => NaN
  end.

(** [Math.min(a, b)] and [Math.max(a, b)]: NaN if either argument is. *)
Definition min (a b : num) : num :=
  match a, b with
  | NaN, _ | _, NaN => NaN
  | _, _ => if lt b a then b else a
  end.

Definition max (a b : num) : num :=
  match a, b with
  | NaN, _ | _, NaN => NaN
  | _, _ => if lt a b then b else a
  end.

(** [Math.floor] *)
Definition floor (a : num) : num :=
  match a with
  | Fin q => Fin (inject_Z (Qfloor q))
  | _ => a
  end.

(** ToBoolean on a number: zero and NaN are falsy. *)
Definition truthy (a : num) : bool :=
  match a with
  | Fin q => negb (Qeq_bool q 0)
  | PInf | NInf => true
  | NaN => false
  end.

(** [a || d] on numbers *)
Definition or_else (a d : num) : num := if truthy a then a else d.

(** [o || d] where [o] is a number or missing (null, undefined). *)
Definition orDefault (o : option num) (d : num) : num :=
  match o with
  | Some a => or_else a d
  | None => d
  end.

(** ToBoolean on a reference that is an object or null: every object is
    truthy, null is falsy. *)
Definition notNull {A : Type} (o : option A) : bool :=
  match o with Some _ => true | None => false end.

(** A number from an integer (an array length, an index). *)
Definition of_Z (z : Z) : num := Fin (inject_Z z).
Definition of_nat (n : nat) : num := of_Z (Z.of_nat n).

Definition is_fin (a : num) : Prop :=
  match a with Fin _ => True | _ => False end.

Definition is_nan (a : num) : bool :=
  match a with NaN => true | _ => false end.

(** Numeric equality of two values: the same special value, or equal
    rationals.  (Unlike [eqb], NaN is related to itself.) *)
Definition same (a b : num) : Prop :=
  match a, b with
  | Fin x, Fin y => x == y
  | PInf, PInf | NInf, NInf | NaN, NaN => True
  | _, _ => False
  end.

End JS.

Import JS.

Declare Scope num_scope.
Delimit Scope num_scope with num.
Bind Scope num_scope with num.
Infix "+" := JS.add : num_scope.
Infix "-" := JS.sub : num_scope.
Infix "*" := JS.mul : num_scope.
Infix "/" := JS.div : num_scope.
Infix "<?" := JS.lt (at level 70) : num_scope.
Infix "<=?" := JS.le (at level 70) : num_scope.
Infix ">?" := JS.gt (at level 70) : num_scope.
Infix ">=?" := JS.ge (at level 70) : num_scope.
Infix "===" := JS.eqb (at level 70) : num_scope.
Notation "a ≃ b" := (JS.same a b) (at level 70) : num_scope.

Local Open Scope num_scope.

(** [firstMin key l x]: [x] is the element of [l] with the least [key],
    and the first of them: everything before it has a strictly larger
    key, everything after it a key that is not smaller. *)
Definition firstMin {A : Type} (key : A -> num) (l : list A) (x : A) : Prop :=
  exists pre post,
    l = pre ++ x :: post /\
    (forall y, In y pre -> (key x <? key y) = true) /\
    (forall y, In y post -> (key x <=? key y) = true).

(** The reduction callback
    [(best, current) => key(current) < key(best) ? current : best]. *)
Definition keepLower {A : Type} (key : A -> num) (best current : A) : A :=
  if key current <? key best then current else best.

(* ===================================================================== *)
(** ** DopplerSpeedCalculator (docs/shared/doppler-calculator.js) *)
(* ===================================================================== *)

Module Doppler.

Record DopplerSpeedCalculator : Type := {
  soundSpeed : num;
  ambientTemperature : num;
  maxReasonableSpeed : num;
  minReasonableSpeed : num
}.

(** [constructor(soundSpeed = 343, temperature = 20)] *)
Definition new (c t : num) : DopplerSpeedCalculator :=
  {| soundSpeed := c;
     ambientTemperature := t;
     maxReasonableSpeed := Fin 1000;
     minReasonableSpeed := Fin 0 |}.

Definition default : DopplerSpeedCalculator := new (Fin 343) (Fin 20).

(** [setSpeedLimits(minSpeed, maxSpeed)] *)
Definition setSpeedLimits (this : DopplerSpeedCalculator) (minSpeed maxSpeed : num)
  : DopplerSpeedCalculator :=
  {| soundSpeed := soundSpeed this;
     ambientTemperature := ambientTemperature this;
     maxReasonableSpeed := maxSpeed;
     minReasonableSpeed := minSpeed |}.

(** [calculateSpeed(approachingFrequency, recedingFrequency)] *)
Definition calculateSpeed (this : DopplerSpeedCalculator)
    (approachingFrequency recedingFrequency : num) : num :=
  let speedMs :=
    soundSpeed this * (approachingFrequency - recedingFrequency)
      / (approachingFrequency + recedingFrequency) in
  let speedKmh := speedMs * Fin 3.6 in
  if (speedKmh >=? maxReasonableSpeed this) || (speedKmh <? minReasonableSpeed this)
  then Fin 0
  else speedKmh.

(** The object [calculateSpeedWithValidation] returns; the two early
    returns and the catch clause leave [frequencyShift] and
    [relativeFactor] undefined. *)
Record Validated : Type := {
  speedKMH : num;
  speedMPH : num;
  valid : bool;
  error : option string;
  frequencyShift : option num;
  relativeFactor : option num
}.

Definition rejected (msg : string) : Validated :=
  {| speedKMH := Fin 0; speedMPH := Fin 0; valid := false; error := Some msg;
     frequencyShift := None; relativeFactor := None |}.

(** [calculateSpeedWithValidation(f1, f2)].  On numbers nothing in the
    body throws, so the catch clause is never entered. *)
Definition calculateSpeedWithValidation (this : DopplerSpeedCalculator)
    (f1 f2 : num) : Validated :=
  if (f1 <=? Fin 0) || (f2 <=? Fin 0) then
    rejected "Invalid frequency values"
  else if JS.abs (f1 - f2) <? Fin 1 then
    rejected "Frequency difference too small"
  else
    let speedKMH := calculateSpeed this f1 f2 in
    let speedMPH := speedKMH * Fin 0.621371 in
    {| speedKMH := speedKMH;
       speedMPH := speedMPH;
       valid := speedKMH >? Fin 0;
       error := if speedKMH === Fin 0
                then Some "Speed outside reasonable range"%string else None;
       frequencyShift := Some (JS.abs (f1 - f2));
       relativeFactor := Some (JS.abs (f1 - f2) / JS.max f1 f2) |}.


End Doppler.

(* ===================================================================== *)
(** ** FrequencyMatcher (docs/shared/frequency-matcher.js) *)
(* ===================================================================== *)

Module Matcher.

(** A frequency candidate [{frequency, power}] as the spectrum analyzer
    produces it. *)
Record FrequencyCandidate : Type := {
  frequency : num;
  power : num
}.

(** The fields of a result object with [valid: true]. *)
Record Match : Type := {
  speedKmh : num;
  speedMph : num;
  approachFreq : num;
  recedeFreq : num;
  error : num;
  accuracy : num
}.

(** What [calculateSpeedForFrequencyPair] returns: the object with
    [valid: false] keeps the two frequencies, zero speeds and the message
    'Invalid speed calculation'. *)
Inductive PairResult : Type :=
| PairInvalid (approachFreq recedeFreq : num)
| PairValid (m : Match).

(** [calculateSpeedForFrequencyPair(approachFreq, recedeFreq, expectedSpeedMph)] *)
Definition calculateSpeedForFrequencyPair (speedCalculator : Doppler.DopplerSpeedCalculator)
    (approachFreq recedeFreq expectedSpeedMph : num) : PairResult :=
  let speedKmh := Doppler.calculateSpeed speedCalculator approachFreq recedeFreq in
  if speedKmh === Fin 0 then PairInvalid approachFreq recedeFreq
  else
    let speedMph := speedKmh * Fin 0.621371 in
    let error := JS.abs (speedMph - expectedSpeedMph) in
    PairValid {| speedKmh := speedKmh;
                 speedMph := speedMph;
                 approachFreq := approachFreq;
                 recedeFreq := recedeFreq;
                 error := error;
                 accuracy := Fin 100 - (error / expectedSpeedMph * Fin 100) |}.

(** The loop state of [findOptimalSpeedCalculation]: [bestResult]
    (null at first) and [bestError] (Infinity at first). *)
Definition Best : Type := (option Match * num)%type.

Definition noBest : Best := (None, PInf).

(** The body of the inner loop. *)
Definition tryPair (speedCalculator : Doppler.DopplerSpeedCalculator)
    (expectedSpeedMph : num) (approachFreq recedeFreq : FrequencyCandidate)
    (st : Best) : Best :=
  match calculateSpeedForFrequencyPair speedCalculator
          (frequency approachFreq) (frequency recedeFreq) expectedSpeedMph with
  | PairValid result => if error result <? snd st then (Some result, error result) else st
  | PairInvalid _ _ => st
  end.

(** [findOptimalSpeedCalculation(approachFrequencies, recedeFrequencies,
    expectedSpeedMph)]; [None] is the object with [valid: false] and the
    message 'No valid frequency pairs found'. *)
Definition findOptimalSpeedCalculation (speedCalculator : Doppler.DopplerSpeedCalculator)
    (approachFrequencies recedeFrequencies : list FrequencyCandidate)
    (expectedSpeedMph : num) : option Match :=
  fst (fold_left
         (fun st approachFreq =>
            fold_left
              (fun st recedeFreq =>
                 tryPair speedCalculator expectedSpeedMph approachFreq recedeFreq st)
              recedeFrequencies st)
         approachFrequencies noBest).

End Matcher.

(* ===================================================================== *)
(** ** AudioAnalyzer: the three strategies and the final selection
       (docs/shared/audio-analyzer.js) *)
(* ===================================================================== *)

Module Strategies.

Import Matcher.

Inductive Tier : Type := Primary | Secondary | Tertiary.

(** A strategy result with [valid: true]: the match and its [strategy] tag. *)
Record StrategyResult : Type := {
  strategy : Tier;
  result : Match
}.

Definition speedOf (s : StrategyResult) : num := speedMph (result s).

(** The primary strategy: the analyzer's own matcher on the default
    calculator, expected speed [expectedSpeed || 30]. *)
Definition tryPrimaryStrategy (approachFrequencies recedeFrequencies : list FrequencyCandidate)
    (expectedSpeed : option num) : option StrategyResult :=
  match findOptimalSpeedCalculation Doppler.default approachFrequencies recedeFrequencies
          (JS.orDefault expectedSpeed (Fin 30)) with
  | Some primaryResult => Some {| strategy := Primary; result := primaryResult |}
  | None => None
  end.

(** [trySecondaryStrategy]: a fresh calculator with limits (0, 500),
    expected speed [expectedSpeed || 50]. *)
Definition trySecondaryStrategy (approachFrequencies recedeFrequencies : list FrequencyCandidate)
    (expectedSpeed : option num) : option StrategyResult :=
  let lenientCalculator := Doppler.setSpeedLimits Doppler.default (Fin 0) (Fin 500) in
  match findOptimalSpeedCalculation lenientCalculator approachFrequencies recedeFrequencies
          (JS.orDefault expectedSpeed (Fin 50)) with
  | Some matchResult =>
      Some {| strategy := Secondary;
              result := {| speedKmh := speedKmh matchResult;
                           speedMph := speedMph matchResult;
                           approachFreq := approachFreq matchResult;
                           recedeFreq := recedeFreq matchResult;
                           error := error matchResult;
                           accuracy := accuracy matchResult |} |}
  | None => None
  end.

(** The calculator of the tertiary strategy: limits (0, 1000). *)
Definition veryLenientCalculator : Doppler.DopplerSpeedCalculator :=
  Doppler.setSpeedLimits Doppler.default (Fin 0) (Fin 1000).

(** [expectedSpeed ? Math.abs(speedMph - expectedSpeed) : 0] *)
Definition tertiaryError (expectedSpeed : option num) (speedMph : num) : num :=
  match expectedSpeed with
  | Some e => if JS.truthy e then JS.abs (speedMph - e) else Fin 0
  | None => Fin 0
  end.

(** The object the tertiary strategy builds for a pair it keeps. *)
Definition tertiaryResult (expectedSpeed : option num) (freq1 freq2 : num) : Match :=
  let speedKmh := Doppler.calculateSpeed veryLenientCalculator freq1 freq2 in
  let speedMph := speedKmh * Fin 0.621371 in
  let error := tertiaryError expectedSpeed speedMph in
  {| speedKmh := speedKmh;
     speedMph := speedMph;
     approachFreq := freq1;
     recedeFreq := freq2;
     error := error;
     accuracy :=
       match expectedSpeed with
       | Some e => if JS.truthy e then Fin 100 - (error / e * Fin 100) else Fin 100
       | None => Fin 100
       end |}.

(** The innermost loop body of [tryTertiaryStrategy], for one ordered
    pair [freq1, freq2]. *)
Definition tertiaryStep (expectedSpeed : option num) (st : Best) (pair : num * num) : Best :=
  let '(freq1, freq2) := pair in
  let speedKmh := Doppler.calculateSpeed veryLenientCalculator freq1 freq2 in
  if (speedKmh >? Fin 0) && (speedKmh <? Fin 1000) then
    let speedMph := speedKmh * Fin 0.621371 in
    let error := tertiaryError expectedSpeed speedMph in
    if (error <? snd st) || negb (JS.notNull (fst st)) then
      (Some (tertiaryResult expectedSpeed freq1 freq2), error)
    else st
  else st.

(** The two orderings tried for a pair of candidates. *)
Definition bothOrders (approachFreq recedeFreq : FrequencyCandidate) : list (num * num) :=
  [ (frequency approachFreq, frequency recedeFreq);
    (frequency recedeFreq, frequency approachFreq) ].

(** [tryTertiaryStrategy]: the first ten candidates of each list, both
    orderings of every pair. *)
Definition tryTertiaryStrategy (approachFrequencies recedeFrequencies : list FrequencyCandidate)
    (expectedSpeed : option num) : option StrategyResult :=
  let final :=
    fold_left
      (fun st approachFreq =>
         fold_left
           (fun st recedeFreq =>
              fold_left (tertiaryStep expectedSpeed) (bothOrders approachFreq recedeFreq) st)
           (take 10 recedeFrequencies) st)
      (take 10 approachFrequencies) noBest in
  match fst final with
  | Some bestResult => Some {| strategy := Tertiary; result := bestResult |}
  | None => None
  end.

(** What [findBestSpeedCalculation] returns: a strategy result, or the
    object with [valid: false], null speeds and an error message. *)
Inductive Outcome : Type :=
| Found (best : StrategyResult)
| NotFound (msg : string).

Definition valid (o : Outcome) : bool :=
  match o with Found _ => true | NotFound _ => false end.

(** The [strategies] array after the three strategies have run. *)
Definition tierResults (approachFrequencies recedeFrequencies : list FrequencyCandidate)
    (expectedSpeed : option num) : list StrategyResult :=
  let push (r : option StrategyResult) (l : list StrategyResult) :=
    match r with Some s => l ++ [s] | None => l end in
  push (tryTertiaryStrategy approachFrequencies recedeFrequencies expectedSpeed)
    (push (trySecondaryStrategy approachFrequencies recedeFrequencies expectedSpeed)
       (push (tryPrimaryStrategy approachFrequencies recedeFrequencies expectedSpeed) [])).

(** [arr.reduce((best, current) => current.speedMph < best.speedMph ?
    current : best)] on a non-empty array: the first element is the
    initial accumulator. *)
Definition lowestSpeed (first : StrategyResult) (rest : list StrategyResult) : StrategyResult :=
  fold_left (keepLower speedOf) rest first.

(** [s.speedMph >= 10 && s.speedMph <= 100] *)
Definition reasonable (s : StrategyResult) : bool :=
  (speedOf s >=? Fin 10) && (speedOf s <=? Fin 100).

(** The selection that ends [findBestSpeedCalculation]. *)
Definition selectBest (strategies : list StrategyResult) : Outcome :=
  match strategies with
  | [] => NotFound "No valid frequency pairs found"
  | s0 :: rest0 =>
      match List.filter reasonable strategies with
      | r0 :: rest => Found (lowestSpeed r0 rest)
      | [] => Found (lowestSpeed s0 rest0)
      end
  end.

(** [findBestSpeedCalculation(approachFrequencies, recedeFrequencies,
    expectedSpeed = null)] *)
Definition findBestSpeedCalculation (approachFrequencies recedeFrequencies : list FrequencyCandidate)
    (expectedSpeed : option num) : Outcome :=
  selectBest (tierResults approachFrequencies recedeFrequencies expectedSpeed).

(** The ordered pairs the tertiary strategy tries, in the order it tries
    them. *)
Definition tertiaryPairs (approachFrequencies recedeFrequencies : list FrequencyCandidate)
  : list (num * num) :=
  flat_map (fun a => flat_map (fun r => bothOrders a r) (take 10 recedeFrequencies))
    (take 10 approachFrequencies).

(** A pair is kept when its speed is strictly between 0 and 1000 km/h. *)
Definition kept (pair : num * num) : bool :=
  let speedKmh := Doppler.calculateSpeed veryLenientCalculator pair.1 pair.2 in
  (speedKmh >? Fin 0) && (speedKmh <? Fin 1000).

(** The speed in mph and the distance to the anchor of a kept pair. *)
Definition pairMph (pair : num * num) : num :=
  Doppler.calculateSpeed veryLenientCalculator pair.1 pair.2 * Fin 0.621371.

Definition pairError (anchor : num) (pair : num * num) : num :=
  JS.abs (pairMph pair - anchor).

End Strategies.

(* ===================================================================== *)
(** ** JavaScript arrays *)
(* ===================================================================== *)

Module Arr.

(** [arr[i]] where the value is used as a number: an index out of range
    reads undefined, which arithmetic turns into NaN. *)
Definition get (l : list num) (i : nat) : num :=
  match l !! i with
  | Some v => v
  | None => NaN
  end.

(** ToIntegerOrInfinity followed by the clamping [Array.prototype.slice]
    applies to a relative index: NaN is 0, a fraction is truncated
    towards zero, a negative index counts from the end. *)
Definition truncate (q : Q) : Z :=
  if JS.Qltb q 0 then Qceiling q else Qfloor q.

Definition relativeIndex (len : nat) (n : num) : nat :=
  match n with
  | NaN => 0%nat
  | NInf => 0%nat
  | PInf => len
  | Fin q =>
      let k := truncate q in
      if (k <? 0)%Z then Z.to_nat (Z.max (Z.of_nat len + k) 0)
      else Nat.min (Z.to_nat k) len
  end.

(** [arr.slice(start, end)]; [end] omitted is the length. *)
Definition slice {A : Type} (l : list A) (start : num) (stop : option num) : list A :=
  let len := length l in
  let k := relativeIndex len start in
  let final := match stop with
               | Some e => relativeIndex len e
               | None => len
               end in
  take (final - k) (drop k l).

(** [arr.sort(comparefn)].  The sort is stable, and for a consistent
    comparator its result is the one sorted permutation that keeps equal
    elements in their order; this insertion sort computes it: an element
    moves behind a later one only when [comparefn] is positive on the
    two (a NaN result counts as +0). *)
Fixpoint insert {A : Type} (comparefn : A -> A -> num) (x : A) (l : list A) : list A :=
  match l with
  | [] => [x]
  | y :: l' =>
      if comparefn x y >? Fin 0 then y :: insert comparefn x l' else x :: y :: l'
  end.

Fixpoint sort {A : Type} (comparefn : A -> A -> num) (l : list A) : list A :=
  match l with
  | [] => []
  | x :: l' => insert comparefn x (sort comparefn l')
  end.

(** The comparator [(a, b) => key(b) - key(a)] of a descending sort. *)
Definition descending {A : Type} (key : A -> num) (a b : A) : num := key b - key a.

(** [Math.max(...values)]; -Infinity on no argument. *)
Definition maximum (values : list num) : num := fold_left JS.max values NInf.

(** A list whose elements are related, each to every later one. *)
Definition orderedBy {A : Type} (R : A -> A -> Prop) (l : list A) : Prop :=
  forall i j x y, (i < j)%nat -> l !! i = Some x -> l !! j = Some y -> R x y.

(** A list in descending order of a key. *)
Definition sortedDesc {A : Type} (key : A -> num) (l : list A) : Prop :=
  orderedBy (fun x y => (key y <=? key x) = true) l.

(** Descending order of a key, equal keys in the order [before]. *)
Definition descendingThen {A : Type} (key : A -> num) (before : A -> A -> Prop) (x y : A)
  : Prop :=
  (key y <? key x) = true \/ ((key x === key y) = true /\ before x y).

End Arr.

(* ===================================================================== *)
(** ** SpectrumAnalyzer (docs/pure-js/spectrum-analyzer.js and
       docs/shared/spectrum-analyzer.js) *)
(* ===================================================================== *)

(** A call that returns a value or throws. *)
Inductive outcome (A : Type) : Type :=
| Returns (a : A)
| Throws (msg : string).
Arguments Returns {A} a.
Arguments Throws {A} msg.

(** The numeric kernels the analyzers call: they need the square root
    and the cosine, which the rational model does not have.
    [applyWindowByType] and [getCoherentGain] are those of
    WindowingUtils, [fft] is the forward transform (its result
    interleaves real and imaginary parts). *)
Record Numerics : Type := {
  sqrt : num -> num;
  applyWindowByType : list num -> string -> list num;
  getCoherentGain : string -> nat -> num;
  fft : list num -> list num
}.

Module Spectrum.

Record SpectrumAnalyzer : Type := {
  samples : list num;
  sampleRate : num;
  windowType : string;
  powerSpectrum : option (list num);
  frequencies : option (list num)
}.

(** [constructor(samples, sampleRate, options = {})]: [this.samples] is a
    copy of the argument, [windowType] is [options.windowType || 'hamming']. *)
Definition new (samples : list num) (sampleRate : num) (windowType : option string)
  : SpectrumAnalyzer :=
  {| samples := samples;
     sampleRate := sampleRate;
     windowType := match windowType with
                   | Some w => if String.eqb w "" then "hamming" else w
                   | None => "hamming"
                   end;
     powerSpectrum := None;
     frequencies := None |}.

(** [Math.pow(2, Math.ceil(Math.log2(n)))]: 0 for an empty array, else
    the least power of two that is at least [n]. *)
Definition fftLengthOf (n : nat) : nat :=
  match n with
  | O => O
  | _ => Z.to_nat (2 ^ Z.log2_up (Z.of_nat n))
  end.

(** The loop that fills [powerSpectrum] and [frequencies]. *)
Definition bins (K : Numerics) (fftResult : list num) (windowGain sampleRate : num)
    (fftLength halfLength : nat) : list num * list num :=
  let bin (i : nat) :=
    let real := Arr.get fftResult (i * 2) in
    let imag := Arr.get fftResult (i * 2 + 1) in
    let magnitude := sqrt K (real * real + imag * imag) in
    ((magnitude * windowGain) / JS.of_nat fftLength,
     (JS.of_nat i * sampleRate) / JS.of_nat fftLength) in
  (map (fun i => fst (bin i)) (seq 0 halfLength),
   map (fun i => snd (bin i)) (seq 0 halfLength)).

(** [calculatePowerSpectrum()].  A single sample gives [fftLength = 1]
    and [new Array(0.5)], which throws a RangeError. *)
Definition calculatePowerSpectrum (K : Numerics) (this : SpectrumAnalyzer)
  : outcome SpectrumAnalyzer :=
  let originalLength := length (samples this) in
  let fftLength := fftLengthOf originalLength in
  let processedSamples :=
    if (originalLength <? fftLength)%nat
    then samples this ++ repeat (Fin 0) (fftLength - originalLength)
    else if (fftLength <? originalLength)%nat
         then Arr.slice (samples this) (Fin 0) (Some (JS.of_nat fftLength))
         else samples this in
  let windowedSamples := applyWindowByType K processedSamples (windowType this) in
  let windowGain := getCoherentGain K (windowType this) fftLength in
  let fftResult := fft K windowedSamples in
  if (fftLength =? 1)%nat then Throws "Invalid array length"
  else
    let halfLength := (fftLength / 2)%nat in
    let '(power, freqs) := bins K fftResult windowGain (sampleRate this) fftLength halfLength in
    Returns {| samples := samples this;
               sampleRate := sampleRate this;
               windowType := windowType this;
               powerSpectrum := Some power;
               frequencies := Some freqs |}.

(** The loop of [findPeakFrequency], from index 1. *)
Definition peakIndexOf (powerSpectrum : list num) : nat :=
  snd (fold_left
         (fun (st : num * nat) (i : nat) =>
            if Arr.get powerSpectrum i >? fst st then (Arr.get powerSpectrum i, i) else st)
         (seq 1 (length powerSpectrum - 1)) (Fin 0, 0%nat)).

(** [findPeakFrequency()]; the value is undefined ([None]) when the
    spectrum is empty. *)
Definition findPeakFrequency (this : SpectrumAnalyzer) : outcome (option num) :=
  match powerSpectrum this with
  | None => Throws "Must call calculatePowerSpectrum() first"
  | Some power =>
      match frequencies this with
      | Some freqs => Returns (freqs !! peakIndexOf power)
      | None => Throws "Cannot read properties of null"
      end
  end.

(** The candidates array of [getStrongestFrequencies], in the order of
    the bins. *)
Definition candidatesOf (freqs power : list num) : list Matcher.FrequencyCandidate :=
  map (fun i => {| Matcher.frequency := Arr.get freqs i;
                   Matcher.power := Arr.get power i |})
    (seq 0 (length freqs)).

(** [getStrongestFrequencies(count = 5)] *)
Definition getStrongestFrequencies (this : SpectrumAnalyzer) (count : num)
  : outcome (list Matcher.FrequencyCandidate) :=
  match powerSpectrum this with
  | None => Throws "Must call calculatePowerSpectrum() first"
  | Some power =>
      match frequencies this with
      | Some freqs =>
          let candidates := candidatesOf freqs power in
          Returns (Arr.slice (Arr.sort (Arr.descending Matcher.power) candidates)
                     (Fin 0) (Some count))
      | None => Throws "Cannot read properties of null"
      end
  end.



End Spectrum.

(* ===================================================================== *)
(** ** FrequencyAnalysis (docs/shared/frequency-analysis.js) *)
(* ===================================================================== *)

Module Analysis.

(** A frequency as [rankFrequencies] returns it. *)
Record RankedFrequency : Type := {
  frequency : num;
  power : num;
  rankingScore : num;
  powerScore : num;
  positionBonus : num;
  frequencyBonus : num;
  rank : nat
}.

(** The quality metrics of a section; [calculateSpeedConfidence] reads
    [overallConfidence] only. *)
Record QualityMetrics : Type := {
  overallConfidence : num;
  signalStrength : num;
  peakClarity : num;
  frequencyDistribution : num;
  noiseLevel : num
}.

(** The analysis of one section, as [analyzeSingleSection] returns it.
    The object returned for an invalid section has no [qualityMetrics];
    the field then holds the metrics of an empty section, which nothing
    reads. *)
Record SectionAnalysis : Type := {
  valid : bool;
  frequencies : list RankedFrequency;
  qualityMetrics : QualityMetrics;
  confidence : num
}.

Record FrequencyAnalysis : Type := {
  sampleRate : num;
  topFrequencyCount : num;
  confidenceThreshold : num;
  dopplerCalculator : Doppler.DopplerSpeedCalculator
}.

(** The constructor: [options.topFrequencyCount || 10],
    [options.confidenceThreshold || 0.3], a default calculator. *)
Definition new (sampleRate : num) (topFrequencyCount confidenceThreshold : option num)
  : FrequencyAnalysis :=
  {| sampleRate := sampleRate;
     topFrequencyCount := JS.orDefault topFrequencyCount (Fin 10);
     confidenceThreshold := JS.orDefault confidenceThreshold (Fin 0.3);
     dopplerCalculator := Doppler.default |}.

(** [calculateVariance(values)] *)
Definition calculateVariance (values : list num) : num :=
  match values with
  | [] => Fin 0
  | _ =>
      let count := JS.of_nat (length values) in
      let mean := fold_left (fun sum val => sum + val) values (Fin 0) / count in
      fold_left (fun sum val => sum + (val - mean) * (val - mean)) values (Fin 0) / count
  end.

(** [calculateSectionQuality(frequencies, sampleCount, sectionType)],
    without the recommendations. *)
Definition calculateSectionQuality (frequencies : list Matcher.FrequencyCandidate)
  : QualityMetrics :=
  match frequencies with
  | [] =>
      {| overallConfidence := Fin 0; signalStrength := Fin 0; peakClarity := Fin 0;
         frequencyDistribution := Fin 0; noiseLevel := Fin 1 |}
  | first :: rest =>
      let powers := map Matcher.power frequencies in
      let maxPower := Arr.maximum powers in
      let avgPower :=
        fold_left (fun sum p => sum + p) powers (Fin 0) / JS.of_nat (length frequencies) in
      let signalStrength := JS.min (Fin 1) (maxPower / Fin 0.001) in
      let peakClarity :=
        match rest with
        | second :: _ =>
            (Matcher.power first - Matcher.power second) / Matcher.power first
        | [] => Fin 1
        end in
      (* with more than one frequency the spread is computed into a
         [const] of the inner block; the [frequencyDistribution] read
         below is the hoisted [var] of the else branch, still undefined *)
      let frequencyDistribution :=
        match rest with
        | _ :: _ => NaN
        | [] => Fin 0.5
        end in
      let powerVariance := calculateVariance powers in
      let noiseLevel :=
        JS.min (Fin 1) (powerVariance / (avgPower * avgPower + Fin (1 # 10000000000))) in
      let overallConfidence :=
        signalStrength * Fin 0.4 + peakClarity * Fin 0.3
        + frequencyDistribution * Fin 0.2 + (Fin 1 - noiseLevel) * Fin 0.1 in
      {| overallConfidence := JS.max (Fin 0) (JS.min (Fin 1) overallConfidence);
         signalStrength := signalStrength;
         peakClarity := peakClarity;
         frequencyDistribution := frequencyDistribution;
         noiseLevel := noiseLevel |}
  end.

(** [rankFrequencies(frequencies, qualityMetrics)] *)
Definition rankFrequencies (frequencies : list Matcher.FrequencyCandidate)
  : list RankedFrequency :=
  let count := JS.of_nat (length frequencies) in
  let maxPower := Arr.maximum (map Matcher.power frequencies) in
  Arr.sort (Arr.descending rankingScore)
    (imap (fun index freq =>
             let powerScore := Matcher.power freq / maxPower in
             let positionBonus :=
               JS.max (Fin 0) ((count - JS.of_nat index) / count * Fin 0.2) in
             let f := Matcher.frequency freq in
             let frequencyBonus :=
               if (f >=? Fin 200) && (f <=? Fin 2000) then Fin 0.1
               else if (f >=? Fin 100) && (f <=? Fin 5000) then Fin 0.05
               else Fin 0 in
             {| frequency := f;
                power := Matcher.power freq;
                rankingScore := powerScore + positionBonus + frequencyBonus;
                powerScore := powerScore;
                positionBonus := positionBonus;
                frequencyBonus := frequencyBonus;
                rank := S index |})
       frequencies).

(** [calculateSpeedConfidence(approachFreq, recedeFreq, speed,
    approachQuality, recedeQuality)] *)
Definition calculateSpeedConfidence (approachFreq recedeFreq : RankedFrequency)
    (speed : num) (approachQuality recedeQuality : QualityMetrics) : num :=
  let powerConfidence :=
    JS.min (JS.or_else (powerScore approachFreq) (Fin 0.5))
           (JS.or_else (powerScore recedeFreq) (Fin 0.5)) in
  let qualityConfidence :=
    (overallConfidence approachQuality + overallConfidence recedeQuality) / Fin 2 in
  let speedConfidence :=
    if speed <? Fin 5 then speed / Fin 5
    else if speed >? Fin 100 then JS.max (Fin 0.2) (Fin 1 - (speed - Fin 100) / Fin 100)
    else Fin 1 in
  let separation := (frequency approachFreq - frequency recedeFreq) / frequency recedeFreq in
  let separationConfidence := JS.min (Fin 1) (separation * Fin 10) in
  let rankingConfidence :=
    Fin 1 - ((JS.of_nat (rank approachFreq) - Fin 1) * Fin 0.1
             + (JS.of_nat (rank recedeFreq) - Fin 1) * Fin 0.1) in
  let confidence :=
    powerConfidence * Fin 0.3
    + qualityConfidence * Fin 0.25
    + speedConfidence * Fin 0.2
    + separationConfidence * Fin 0.15
    + JS.max (Fin 0) rankingConfidence * Fin 0.1 in
  JS.max (Fin 0) (JS.min (Fin 1) confidence).

(** An entry of [speedCalculations]; its [confidence] field is named
    [speedConfidence] here, after the variable it is filled from. *)
Record SpeedCalculation : Type := {
  approachFreq : num;
  recedeFreq : num;
  approachPower : num;
  recedePower : num;
  approachRank : nat;
  recedeRank : nat;
  speed : num;
  speedConfidence : num;
  frequencySeparation : num;
  relativeShift : num
}.

(** What [combineAnalyses] returns. *)
Record Combined : Type := {
  combinedValid : bool;
  speedCalculations : list SpeedCalculation;
  bestSpeed : option SpeedCalculation;
  combinedConfidence : num;
  averageConfidence : num;
  validCalculations : nat
}.

(** The speed and the confidence of a pair, as the loop body computes
    them: the speed is what [calculateSpeed] returns, in km/h. *)
Definition pairSpeed (this : FrequencyAnalysis) (a r : RankedFrequency) : num :=
  Doppler.calculateSpeed (dopplerCalculator this) (frequency a) (frequency r).

Definition pairConfidence (this : FrequencyAnalysis) (approachAnalysis recedeAnalysis : SectionAnalysis)
    (a r : RankedFrequency) : num :=
  calculateSpeedConfidence a r (pairSpeed this a r)
    (qualityMetrics approachAnalysis) (qualityMetrics recedeAnalysis).

Definition calculation (this : FrequencyAnalysis) (approachAnalysis recedeAnalysis : SectionAnalysis)
    (a r : RankedFrequency) : SpeedCalculation :=
  {| approachFreq := frequency a;
     recedeFreq := frequency r;
     approachPower := power a;
     recedePower := power r;
     approachRank := rank a;
     recedeRank := rank r;
     speed := pairSpeed this a r;
     speedConfidence := pairConfidence this approachAnalysis recedeAnalysis a r;
     frequencySeparation := frequency a - frequency r;
     relativeShift := (frequency a - frequency r) / frequency r |}.

(** The body of the two loops of [combineAnalyses] for one pair: nothing
    is pushed when the approach frequency is not the higher one or the
    confidence is below the threshold. *)
Definition pushed (this : FrequencyAnalysis) (approachAnalysis recedeAnalysis : SectionAnalysis)
    (a r : RankedFrequency) : list SpeedCalculation :=
  if frequency a <=? frequency r then []
  else if pairConfidence this approachAnalysis recedeAnalysis a r >=? confidenceThreshold this
       then [calculation this approachAnalysis recedeAnalysis a r]
       else [].

(** [combineAnalyses(approachAnalysis, recedeAnalysis)] *)
Definition combineAnalyses (this : FrequencyAnalysis)
    (approachAnalysis recedeAnalysis : SectionAnalysis) : Combined :=
  if negb (valid approachAnalysis) || negb (valid recedeAnalysis) then
    {| combinedValid := false; speedCalculations := []; bestSpeed := None;
       combinedConfidence := Fin 0; averageConfidence := Fin 0;
       validCalculations := 0 |}
  else
    let approachFreqs := take 5 (frequencies approachAnalysis) in
    let recedeFreqs := take 5 (frequencies recedeAnalysis) in
    let unsorted :=
      flat_map (fun a =>
        flat_map (fun r => pushed this approachAnalysis recedeAnalysis a r) recedeFreqs)
        approachFreqs in
    let speedCalculations := Arr.sort (Arr.descending speedConfidence) unsorted in
    let bestSpeed := head speedCalculations in
    {| combinedValid := (0 <? length speedCalculations)%nat;
       speedCalculations := speedCalculations;
       bestSpeed := bestSpeed;
       combinedConfidence := match bestSpeed with
                             | Some b => speedConfidence b
                             | None => Fin 0
                             end;
       averageConfidence :=
         if (0 <? length speedCalculations)%nat
         then fold_left (fun sum calc => sum + speedConfidence calc) speedCalculations (Fin 0)
              / JS.of_nat (length speedCalculations)
         else Fin 0;
       validCalculations := length speedCalculations |}.








End Analysis.

(* ===================================================================== *)
(** ** ApproachDetector (docs/shared/approach-detector.js) *)
(* ===================================================================== *)

Module Approach.

(** A point of the energy profile. *)
Record EnergyPoint : Type := {
  index : Z;
  energy : num;
  time : num
}.

(** A detected peak. *)
Record Peak : Type := {
  peakIndex : Z;
  peakEnergy : num;
  prominence : num;
  normalizedProminence : num;
  peakTime : num;
  confidence : num
}.

(** A profile whose energies are finite numbers. *)
Definition finiteEnergies (energyProfile : list EnergyPoint) : Prop :=
  Forall (fun p => JS.is_fin (energy p)) energyProfile.

(** [energyProfile[j].energy] *)
Definition energyAt (energyProfile : list EnergyPoint) (j : nat) : num :=
  match energyProfile !! j with
  | Some p => energy p
  | None => NaN
  end.

(** The inner loop of [findEnergyPeaks]: the least energy within
    [searchRadius] of [i], [i] itself left out, starting from the energy
    at [i]. *)
Definition minSurroundingOf (energyProfile : list EnergyPoint) (i : nat) (current : num) : num :=
  let searchRadius := Nat.min 20 (length energyProfile / 10) in
  let first := (i - searchRadius)%nat in
  let last := Nat.min (length energyProfile - 1) (i + searchRadius) in
  fold_left
    (fun minSurrounding j =>
       if negb (j =? i)%nat && (energyAt energyProfile j <? minSurrounding)
       then energyAt energyProfile j else minSurrounding)
    (seq first (S last - first)) current.

(** The peak pushed for position [i], if any. *)
Definition peakAt (energyProfile : list EnergyPoint) (maxEnergy minProminence : num) (i : nat)
  : list Peak :=
  match energyProfile !! i with
  | None => []
  | Some current =>
      let prev := energyAt energyProfile (i - 1) in
      let next := energyAt energyProfile (i + 1) in
      if (energy current >? prev) && (energy current >? next) then
        let minSurrounding := minSurroundingOf energyProfile i (energy current) in
        let peakProminence := energy current - minSurrounding in
        if peakProminence >=? minProminence then
          [ {| peakIndex := index current;
               peakEnergy := energy current;
               prominence := peakProminence;
               normalizedProminence := peakProminence / maxEnergy;
               peakTime := time current;
               confidence := JS.min (Fin 1) (peakProminence / (maxEnergy * Fin 0.5)) |} ]
        else []
      else []
  end.

(** [findEnergyPeaks(energyProfile, prominence = 0.1)] *)
Definition findEnergyPeaks (energyProfile : list EnergyPoint) (prominence : num) : list Peak :=
  if (length energyProfile <? 3)%nat then []
  else
    let maxEnergy := Arr.maximum (map energy energyProfile) in
    let minProminence := maxEnergy * prominence in
    let peaks :=
      flat_map (peakAt energyProfile maxEnergy minProminence)
        (seq 1 (length energyProfile - 2)) in
    Arr.sort (Arr.descending Approach.prominence) peaks.

(** The [reason] of a detection result; the two messages about a peak
    quote its confidence. *)
Inductive Reason : Type :=
| NoEnergyPeaks
| LowConfidencePeak (confidence : num)
| HighConfidencePeak (confidence : num).

(** What [selectClosestApproachPeak] returns; the fields of the peak are
    missing when no peak was found, [warning] is set on a low-confidence
    selection only. *)
Record Detection : Type := {
  found : bool;
  detectionConfidence : num;
  reason : Reason;
  closestApproachIndex : Z;
  estimatedIndex : Z;
  selected : option Peak;
  warning : option string
}.

(** The loop that looks for the first peak of sufficient confidence. *)
Definition firstConfident (peaks : list Peak) (minimumConfidence : num) : option Peak :=
  List.find (fun peak => confidence peak >=? minimumConfidence) peaks.

(** [selectClosestApproachPeak(peaks, energyProfile, windowSamples,
    minimumConfidence = 0.3)] *)
Definition selectClosestApproachPeak (peaks : list Peak) (energyProfile : list EnergyPoint)
    (windowSamples : num) (minimumConfidence : num) : Detection :=
  match peaks with
  | [] =>
      {| found := false;
         detectionConfidence := Fin 0;
         reason := NoEnergyPeaks;
         closestApproachIndex := Z.of_nat (length energyProfile / 2);
         estimatedIndex := Z.of_nat (length energyProfile / 2);
         selected := None;
         warning := None |}
  | first :: _ =>
      match firstConfident peaks minimumConfidence with
      | None =>
          let bestPeak := first in
          {| found := true;
             detectionConfidence := confidence bestPeak;
             reason := LowConfidencePeak (confidence bestPeak);
             closestApproachIndex := peakIndex bestPeak;
             estimatedIndex := peakIndex bestPeak;
             selected := Some bestPeak;
             warning := Some "Low confidence detection - results may be unreliable" |}
      | Some bestPeak =>
          {| found := true;
             detectionConfidence := confidence bestPeak;
             reason := HighConfidencePeak (confidence bestPeak);
             closestApproachIndex := peakIndex bestPeak;
             estimatedIndex := peakIndex bestPeak;
             selected := Some bestPeak;
             warning := None |}
      end
  end.

(** [calculateRMSEnergy(samples, startIndex, windowSize)] *)
Definition calculateRMSEnergy (K : Numerics) (samples : list num) (startIndex windowSize : nat)
  : num :=
  let endIndex := Nat.min (startIndex + windowSize) (length samples) in
  let sumSquares :=
    fold_left (fun sum j => sum + Arr.get samples j * Arr.get samples j)
      (seq startIndex (endIndex - startIndex)) (Fin 0) in
  sqrt K (sumSquares / JS.of_nat windowSize).

(** The window starts [0, windowSize/4, 2*windowSize/4, ...] up to
    [samples.length - windowSize], for a window size that is a multiple
    of 4 (the default, 2048, is). *)
Definition windowStarts (len windowSize : nat) : list nat :=
  if (len <? windowSize)%nat then []
  else map (fun k => (k * (windowSize / 4))%nat)
           (seq 0 (S ((len - windowSize) / (windowSize / 4)))).

(** [detectClosestApproach(samples, windowSize = 2048)] *)
Definition detectClosestApproach (K : Numerics) (samples : list num) (windowSize : nat) : nat :=
  snd (fold_left
         (fun (st : num * nat) i =>
            let rmsEnergy := calculateRMSEnergy K samples i windowSize in
            if rmsEnergy >? fst st then (rmsEnergy, (i + windowSize / 2)%nat) else st)
         (windowStarts (length samples) windowSize) (Fin 0, 0%nat)).

(** [isShortFile(duration)] *)
Definition isShortFile (duration : num) : bool := duration <? Fin 2.

End Approach.

(* ===================================================================== *)
(** ** AudioSlicer (docs/shared/audio-slicer.js) *)
(* ===================================================================== *)

Module Slicer.

(** A sections object.  [approaching] and [receding] are missing when the
    object was built without them (time-based sections under other
    names); [strategy] is missing on the objects AudioAnalyzer builds
    itself. *)
Record Sections : Type := {
  approaching : option (list num);
  receding : option (list num);
  approachDuration : num;
  recedeDuration : num;
  strategy : option string
}.

Inductive Which : Type := ApproachingSection | RecedingSection.

(** The messages of a validation: a section that is too short (its
    length and the minimum), an imbalance (the ratio). *)
Inductive ValidationError : Type :=
| TooShort (which : Which) (length minimum : nat).

Inductive ValidationWarning : Type :=
| Imbalance (ratio : num).

Record SectionDetail : Type := {
  detailLength : nat;
  detailDuration : num
}.

Record Validation : Type := {
  isValid : bool;
  errors : list ValidationError;
  warnings : list ValidationWarning;
  approachingDetail : option SectionDetail;
  recedingDetail : option SectionDetail;
  validatedStrategy : string
}.

(** [sections.x?.length || 0] *)
Definition lengthOrZero (section : option (list num)) : nat :=
  match section with
  | Some l => length l
  | None => 0%nat
  end.

(** [!sections.x || sections.x.length < minSamples] *)
Definition tooShort (section : option (list num)) (minSamples : nat) : bool :=
  match section with
  | Some l => (length l <? minSamples)%nat
  | None => true
  end.

(** [validateSections(sections, minSamples = 2048)] *)
Definition validateSections (sections : Sections) (minSamples : nat) : Validation :=
  let errors1 :=
    if tooShort (approaching sections) minSamples
    then [TooShort ApproachingSection (lengthOrZero (approaching sections)) minSamples]
    else [] in
  let errors2 :=
    if tooShort (receding sections) minSamples
    then errors1 ++ [TooShort RecedingSection (lengthOrZero (receding sections)) minSamples]
    else errors1 in
  let warnings :=
    match approaching sections, receding sections with
    | Some a, Some r =>
        let ratio := JS.of_nat (length a) / JS.of_nat (length r) in
        if (ratio >? Fin 5) || (ratio <? Fin 0.2) then [Imbalance ratio] else []
    | _, _ => []
    end in
  {| isValid := (length errors2 =? 0)%nat;
     errors := errors2;
     warnings := warnings;
     approachingDetail :=
       if tooShort (approaching sections) minSamples then None
       else Some {| detailLength := lengthOrZero (approaching sections);
                    detailDuration := approachDuration sections |};
     recedingDetail :=
       if tooShort (receding sections) minSamples then None
       else Some {| detailLength := lengthOrZero (receding sections);
                    detailDuration := recedeDuration sections |};
     validatedStrategy := match strategy sections with
                          | Some s => if String.eqb s "" then "unknown" else s
                          | None => "unknown"
                          end |}.

Definition minSectionSamples : nat := 2048.

(** [extractSections(samples, sampleRate, closestApproachIndex, duration)] *)
Definition extractSections (samples : list num) (sampleRate closestApproachIndex duration : num)
  : Sections :=
  let marginSeconds := JS.min (Fin 0.3) (duration * Fin 0.2) in
  let marginSamples := JS.floor (marginSeconds * sampleRate) in
  let approachEnd :=
    JS.max (closestApproachIndex - marginSamples) (JS.of_nat minSectionSamples) in
  let recedeStart :=
    JS.min (closestApproachIndex + marginSamples)
           (JS.of_nat (length samples) - JS.of_nat minSectionSamples) in
  let approachSection := Arr.slice samples (Fin 0) (Some approachEnd) in
  let recedeSection := Arr.slice samples recedeStart None in
  {| approaching := Some approachSection;
     receding := Some recedeSection;
     approachDuration := JS.of_nat (length approachSection) / sampleRate;
     recedeDuration := JS.of_nat (length recedeSection) / sampleRate;
     strategy := Some "closest_approach" |}.

(** [-quarterLength] as a slice index; [-0] is 0. *)
Definition lastQuarterStart (quarterLength : nat) : num :=
  JS.of_Z (- Z.of_nat quarterLength).

(** [extractShortFileSections(samples, sampleRate)] *)
Definition extractShortFileSections (samples : list num) (sampleRate : num) : Sections :=
  let quarterLength := (length samples / 4)%nat in
  let approachSection := Arr.slice samples (Fin 0) (Some (JS.of_nat quarterLength)) in
  let recedeSection := Arr.slice samples (lastQuarterStart quarterLength) None in
  {| approaching := Some approachSection;
     receding := Some recedeSection;
     approachDuration := JS.of_nat (length approachSection) / sampleRate;
     recedeDuration := JS.of_nat (length recedeSection) / sampleRate;
     strategy := Some "short_file_quarters" |}.

(** An entry of the [strategies] array of [extractBestSections]. *)
Record Candidate : Type := {
  name : string;
  sections : Sections;
  validation : Validation;
  confidence : num;
  reason : string
}.

(** What [extractBestSections] returns: the sections of the best
    strategy and what is said about it. *)
Record BestSections : Type := {
  best : Sections;
  selectedStrategy : string;
  bestConfidence : num;
  bestReason : string;
  bestValidation : Validation;
  alternativeStrategies : list Candidate
}.

(** The minimum each strategy of [extractBestSections] is validated
    against. *)
Definition minimumOf (name : string) : nat :=
  if String.eqb name "closest_approach" then 2048
  else if String.eqb name "short_file_quarters" then 1024
  else 512.

(** The strategies array of [extractBestSections]. *)
Definition candidates (samples : list num) (sampleRate : num)
    (closestApproachIndex : option num) : list Candidate :=
  let duration := JS.of_nat (length samples) / sampleRate in
  let strategy1 :=
    match closestApproachIndex with
    | Some i =>
        if (i >? Fin 0) && (i <? JS.of_nat (length samples)) then
          let sections := extractSections samples sampleRate i duration in
          let validation := validateSections sections 2048 in
          [ {| name := "closest_approach";
               sections := sections;
               validation := validation;
               confidence := if isValid validation then Fin 0.9 else Fin 0.1;
               reason := if isValid validation
                         then "Closest approach detected with valid sections"
                         else "Closest approach sections too small" |} ]
        else []
    | None => []
    end in
  let strategy2 :=
    if duration <? Fin 5 then
      let sections := extractShortFileSections samples sampleRate in
      let validation := validateSections sections 1024 in
      [ {| name := "short_file_quarters";
           sections := sections;
           validation := validation;
           confidence := if isValid validation then Fin 0.7 else Fin 0.2;
           reason := if isValid validation
                     then "Short file strategy with valid sections"
                     else "Short file sections too small" |} ]
    else [] in
  let quarterLength := (length samples / 4)%nat in
  let fallbackSections :=
    {| approaching := Some (Arr.slice samples (Fin 0) (Some (JS.of_nat quarterLength)));
       receding := Some (Arr.slice samples (lastQuarterStart quarterLength) None);
       approachDuration := JS.of_nat quarterLength / sampleRate;
       recedeDuration := JS.of_nat quarterLength / sampleRate;
       strategy := Some "simple_quarters" |} in
  let fallbackValidation := validateSections fallbackSections 512 in
  strategy1 ++ strategy2 ++
  [ {| name := "simple_quarters";
       sections := fallbackSections;
       validation := fallbackValidation;
       confidence := if isValid fallbackValidation then Fin 0.5 else Fin 0.1;
       reason := if isValid fallbackValidation
                 then "Fallback quarters strategy" else "All strategies failed" |} ].

(** [extractBestSections(samples, sampleRate, closestApproachIndex = null)];
    the strategies array is never empty, so [sorted[0]] exists. *)
Definition extractBestSections (samples : list num) (sampleRate : num)
    (closestApproachIndex : option num) : option BestSections :=
  let strategies := candidates samples sampleRate closestApproachIndex in
  let validStrategies := List.filter (fun s => isValid (validation s)) strategies in
  (* [sort] works in place: the strategies array itself is sorted when no
     strategy is valid, and left as it is otherwise *)
  let '(sorted, strategies') :=
    if (0 <? length validStrategies)%nat
    then (Arr.sort (Arr.descending confidence) validStrategies, strategies)
    else (Arr.sort (Arr.descending confidence) strategies,
          Arr.sort (Arr.descending confidence) strategies) in
  match sorted with
  | bestStrategy :: _ =>
      Some {| best := sections bestStrategy;
              selectedStrategy := name bestStrategy;
              bestConfidence := confidence bestStrategy;
              bestReason := reason bestStrategy;
              bestValidation := validation bestStrategy;
              alternativeStrategies :=
                List.filter (fun s => negb (String.eqb (name s) (name bestStrategy)))
                  strategies' |}
  | [] => None
  end.

End Slicer.

(* ===================================================================== *)
(** ** AudioAnalyzer.extractSections (docs/shared/audio-analyzer.js) *)
(* ===================================================================== *)

Module Analyzer.

(** ToBoolean, by the kind of value: an object is truthy whatever it
    holds. *)
Inductive Value : Type :=
| Undefined
| Null
| Boolean (b : bool)
| Number (n : num)
| Text (s : string)
| Object.

Definition ToBoolean (v : Value) : bool :=
  match v with
  | Undefined | Null => false
  | Boolean b => b
  | Number n => JS.truthy n
  | Text s => negb (String.eqb s "")
  | Object => true
  end.

(** [validateSections] returns an object. *)
Definition valueOfValidation (v : Slicer.Validation) : Value := Object.

(** The sections [extractSections] returns, with the [sectioningMethod]
    it sets on them. *)
Record Sectioned : Type := {
  sections : Slicer.Sections;
  sectioningMethod : string
}.

(** [extractSimpleSections(samples, sampleRate)] *)
Definition extractSimpleSections (samples : list num) (sampleRate : num) : Slicer.Sections :=
  let totalSamples := length samples in
  let quarterLength := (totalSamples / 4)%nat in
  {| Slicer.approaching := Some (Arr.slice samples (Fin 0) (Some (JS.of_nat quarterLength)));
     Slicer.receding :=
       Some (Arr.slice samples (JS.of_nat totalSamples - JS.of_nat quarterLength) None);
     Slicer.approachDuration := JS.of_nat quarterLength / sampleRate;
     Slicer.recedeDuration := JS.of_nat quarterLength / sampleRate;
     Slicer.strategy := None |}.

(** [extractSections(samples, sampleRate, strategy = 'peak_rms_energy')] *)
Definition extractSections (K : Numerics) (samples : list num) (sampleRate : num)
    (strategy : string) : Sectioned :=
  let duration := JS.of_nat (length samples) / sampleRate in
  if String.eqb strategy "peak_rms_energy" then
    if Approach.isShortFile duration then
      {| sections := Slicer.extractShortFileSections samples sampleRate;
         sectioningMethod := "quarters" |}
    else
      let closestApproachIndex := Approach.detectClosestApproach K samples 2048 in
      let sections :=
        Slicer.extractSections samples sampleRate (JS.of_nat closestApproachIndex) duration in
      if ToBoolean (valueOfValidation (Slicer.validateSections sections 2048)) then
        {| sections := sections; sectioningMethod := "peak_rms_energy" |}
      else
        {| sections := extractSimpleSections samples sampleRate;
           sectioningMethod := "quarters" |}
  else
    {| sections := extractSimpleSections samples sampleRate;
       sectioningMethod := "quarters" |}.

End Analyzer.

(* ===================================================================== *)
(** ** The arrays of a run and the operations on them *)
(* ===================================================================== *)

(** The caller's samples array and the arrays the library creates are
    objects with an identity: two expressions that hold the same
    reference see each other's writes.  The store maps a reference to
    the contents of the array of numbers it names; arrays of objects
    (candidates, peaks, strategies) are local to the function that
    builds them and stay values. *)

Module Store.

Abbreviation ref := positive (only parsing).
Abbreviation store := (gmap positive (list num)) (only parsing).

(** A computation on the store that returns or throws. *)
Definition M (A : Type) : Type := store -> outcome A * store.

Definition ret {A : Type} (a : A) : M A := fun h => (Returns a, h).

Definition throw {A : Type} (msg : string) : M A := fun h => (Throws msg, h).

Definition bind {A B : Type} (m : M A) (f : A -> M B) : M B :=
  fun h =>
    match m h with
    | (Returns a, h') => f a h'
    | (Throws msg, h') => (Throws msg, h')
    end.

(** [try { m } catch (error) { handler }] *)
Definition catch {A : Type} (m : M A) (handler : string -> M A) : M A :=
  fun h =>
    match m h with
    | (Throws msg, h') => handler msg h'
    | r => r
    end.

Notation "'let*' x ':=' m 'in' k" := (bind m (fun x => k))
  (at level 10, x name, m at level 100, k at level 200).

(** A new array with the given contents: [new Array(n)], an array
    literal, [[...a]], [a.slice(..)], [a.concat(..)]. *)
Definition alloc (contents : list num) : M ref :=
  fun h => let r := fresh (dom h) in (Returns r, <[r := contents]> h).

(** The contents of an array, for [a[i]], [a.length] and iteration. *)
Definition read (r : ref) : M (list num) :=
  fun h =>
    match h !! r with
    | Some contents => (Returns contents, h)
    | None => (Throws "not an array", h)
    end.

(** [a[i] = v] for an index inside the array. *)
Definition write (r : ref) (i : nat) (v : num) : M unit :=
  fun h =>
    match h !! r with
    | Some contents => (Returns tt, <[r := <[i := v]> contents]> h)
    | None => (Throws "not an array", h)
    end.

(** [for (const x of l) body(x)] *)
Fixpoint forEach {A : Type} (l : list A) (body : A -> M unit) : M unit :=
  match l with
  | [] => ret tt
  | x :: l' => let* _ := body x in forEach l' body
  end.

(** *** SpectrumAnalyzer *)

Record SpectrumAnalyzer : Type := {
  samples : ref;
  sampleRate : num;
  windowType : string;
  powerSpectrum : option ref;
  frequencies : option ref
}.

(** The analyzer as the functions on values see it. *)
Definition view (this : SpectrumAnalyzer) (h : store) : Spectrum.SpectrumAnalyzer :=
  {| Spectrum.samples := default [] (h !! samples this);
     Spectrum.sampleRate := sampleRate this;
     Spectrum.windowType := windowType this;
     Spectrum.powerSpectrum := r ← powerSpectrum this; h !! r;
     Spectrum.frequencies := r ← frequencies this; h !! r |}.

(** [new SpectrumAnalyzer(samples, sampleRate, options)]:
    [this.samples = [...samples]]. *)
Definition newSpectrumAnalyzer (samples : ref) (sampleRate : num) (windowType : option string)
  : M SpectrumAnalyzer :=
  let* contents := read samples in
  let* copy := alloc contents in
  ret {| samples := copy;
         sampleRate := sampleRate;
         windowType := Spectrum.windowType (Spectrum.new [] sampleRate windowType);
         powerSpectrum := None;
         frequencies := None |}.

(** [calculatePowerSpectrum()], array by array: the copy of
    [this.samples], the padded or truncated array, the windowed array,
    the transform, and the two arrays of the result, which the loop
    fills index by index. *)
Definition calculatePowerSpectrum (K : Numerics) (this : SpectrumAnalyzer)
  : M SpectrumAnalyzer :=
  let* own := read (samples this) in
  let originalLength := length own in
  let fftLength := Spectrum.fftLengthOf originalLength in
  let* processedSamples := alloc own in
  let* processedSamples :=
    (if (originalLength <? fftLength)%nat then
       let* zeros := alloc (repeat (Fin 0) (fftLength - originalLength)) in
       let* a := read processedSamples in
       let* b := read zeros in
       alloc (a ++ b)
     else if (fftLength <? originalLength)%nat then
       let* a := read processedSamples in
       alloc (Arr.slice a (Fin 0) (Some (JS.of_nat fftLength)))
     else ret processedSamples) in
  let* processed := read processedSamples in
  let* windowedSamples := alloc (applyWindowByType K processed (windowType this)) in
  let windowGain := getCoherentGain K (windowType this) fftLength in
  let* windowed := read windowedSamples in
  let* fftResult := alloc (fft K windowed) in
  if (fftLength =? 1)%nat then throw "Invalid array length"
  else
    let halfLength := (fftLength / 2)%nat in
    let* power := alloc (repeat NaN halfLength) in
    let* freqs := alloc (repeat NaN halfLength) in
    let* _ := forEach (seq 0 halfLength)
      (fun i =>
         let* result := read fftResult in
         let real := Arr.get result (i * 2) in
         let imag := Arr.get result (i * 2 + 1) in
         let magnitude := sqrt K (real * real + imag * imag) in
         let* _ := write power i ((magnitude * windowGain) / JS.of_nat fftLength) in
         write freqs i ((JS.of_nat i * sampleRate this) / JS.of_nat fftLength)) in
    ret {| samples := samples this;
           sampleRate := sampleRate this;
           windowType := windowType this;
           powerSpectrum := Some power;
           frequencies := Some freqs |}.

(** [findPeakFrequency()] and [getStrongestFrequencies(count)] read the
    two arrays; the candidates array is built, sorted and sliced as a
    value. *)
Definition findPeakFrequency (this : SpectrumAnalyzer) : M (option num) :=
  fun h =>
    match Spectrum.findPeakFrequency (view this h) with
    | Returns v => (Returns v, h)
    | Throws msg => (Throws msg, h)
    end.

Definition getStrongestFrequencies (this : SpectrumAnalyzer) (count : num)
  : M (list Matcher.FrequencyCandidate) :=
  fun h =>
    match Spectrum.getStrongestFrequencies (view this h) count with
    | Returns v => (Returns v, h)
    | Throws msg => (Throws msg, h)
    end.

(** *** Sectioning *)

(** A sections object whose two sections are arrays of the store. *)
Record Sections : Type := {
  approaching : option ref;
  receding : option ref;
  described : Slicer.Sections
}.

(** [samples.slice(start, end)] *)
Definition slice (samples : ref) (start : num) (stop : option num) : M ref :=
  let* contents := read samples in
  alloc (Arr.slice contents start stop).

Definition allocOptional (section : option (list num)) : M (option ref) :=
  match section with
  | Some contents => let* r := alloc contents in ret (Some r)
  | None => ret None
  end.

(** The arrays the slices of a sections object create. *)
Definition sliced (s : Slicer.Sections) : M Sections :=
  let* a := allocOptional (Slicer.approaching s) in
  let* r := allocOptional (Slicer.receding s) in
  ret {| approaching := a; receding := r; described := s |}.

(** [AudioSlicer.extractSections], [AudioSlicer.extractShortFileSections]
    and [AudioAnalyzer.extractSections] on the caller's array. *)
Definition extractSections (samples : ref) (sampleRate closestApproachIndex duration : num)
  : M Sections :=
  let* contents := read samples in
  sliced (Slicer.extractSections contents sampleRate closestApproachIndex duration).

Definition extractShortFileSections (samples : ref) (sampleRate : num) : M Sections :=
  let* contents := read samples in
  sliced (Slicer.extractShortFileSections contents sampleRate).

Definition analyzerExtractSections (K : Numerics) (samples : ref) (sampleRate : num)
    (strategy : string) : M (Sections * string) :=
  let* contents := read samples in
  let r := Analyzer.extractSections K contents sampleRate strategy in
  let* s := sliced (Analyzer.sections r) in
  ret (s, Analyzer.sectioningMethod r).

(** [AudioSlicer.extractBestSections]: every strategy slices its two
    sections; the result holds those of the best one. *)
Fixpoint sliceAll (strategies : list Slicer.Candidate) : M (list (string * Sections)) :=
  match strategies with
  | [] => ret []
  | c :: rest =>
      let* s := sliced (Slicer.sections c) in
      let* others := sliceAll rest in
      ret ((Slicer.name c, s) :: others)
  end.

Definition extractBestSections (samples : ref) (sampleRate : num)
    (closestApproachIndex : option num) : M (option (Sections * Slicer.BestSections)) :=
  let* contents := read samples in
  let* made := sliceAll (Slicer.candidates contents sampleRate closestApproachIndex) in
  match Slicer.extractBestSections contents sampleRate closestApproachIndex with
  | Some b =>
      match List.find (fun e => String.eqb (fst e) (Slicer.selectedStrategy b)) made with
      | Some (_, s) => ret (Some (s, b))
      | None => ret None
      end
  | None => ret None
  end.

(** *** FrequencyAnalysis *)

Record FrequencyAnalysis : Type := {
  ownSamples : ref;
  analysisWindowType : option string;
  settings : Analysis.FrequencyAnalysis
}.

(** [new FrequencyAnalysis(samples, sampleRate, options)]:
    [this.samples = [...samples]]. *)
Definition newFrequencyAnalysis (samples : ref) (sampleRate : num)
    (windowType : option string) (topFrequencyCount confidenceThreshold : option num)
  : M FrequencyAnalysis :=
  let* contents := read samples in
  let* copy := alloc contents in
  ret {| ownSamples := copy;
         analysisWindowType := windowType;
         settings := Analysis.new sampleRate topFrequencyCount confidenceThreshold |}.

(** The object returned for a section that is too short or whose
    analysis threw. *)
Definition invalidSection : Analysis.SectionAnalysis :=
  {| Analysis.valid := false;
     Analysis.frequencies := [];
     Analysis.qualityMetrics := Analysis.calculateSectionQuality [];
     Analysis.confidence := Fin 0 |}.

(** [analyzeSingleSection(samples, sectionType)] *)
Definition analyzeSingleSection (K : Numerics) (this : FrequencyAnalysis) (samples : ref)
  : M Analysis.SectionAnalysis :=
  let* contents := read samples in
  if (length contents <? 1024)%nat then ret invalidSection
  else
    catch
      (let* analyzer := newSpectrumAnalyzer samples (Analysis.sampleRate (settings this))
                     (analysisWindowType this) in
       let* analyzer := calculatePowerSpectrum K analyzer in
       let* strongestFreqs := getStrongestFrequencies analyzer
                           (Analysis.topFrequencyCount (settings this)) in
       let* peakFrequency := findPeakFrequency analyzer in
       let qualityMetrics := Analysis.calculateSectionQuality strongestFreqs in
       ret {| Analysis.valid := true;
              Analysis.frequencies := Analysis.rankFrequencies strongestFreqs;
              Analysis.qualityMetrics := qualityMetrics;
              Analysis.confidence := Analysis.overallConfidence qualityMetrics |})
      (fun _ => ret invalidSection).

(** [analyzeDualSections(approachSamples, recedeSamples)] *)
Definition analyzeDualSections (K : Numerics) (this : FrequencyAnalysis)
    (approachSamples recedeSamples : ref)
  : M (Analysis.SectionAnalysis * Analysis.SectionAnalysis * Analysis.Combined) :=
  let* approachAnalysis := analyzeSingleSection K this approachSamples in
  let* recedeAnalysis := analyzeSingleSection K this recedeSamples in
  ret (approachAnalysis, recedeAnalysis,
       Analysis.combineAnalyses (settings this) approachAnalysis recedeAnalysis).

(** *** Programs over the core operations *)

(** The computations a caller can build from the core operations:
    construction, power spectrum, peak and strongest frequencies,
    slicing and sectioning, section analysis (which ranks and matches),
    and the final matching, in any order and with any data flow between
    them. *)
Inductive Core : forall {A : Type}, M A -> Prop :=
| core_ret {A} (a : A) : Core (ret a)
| core_bind {A B} (m : M A) (f : A -> M B) :
    Core m -> (forall a, Core (f a)) -> Core (bind m f)
| core_catch {A} (m : M A) (handler : string -> M A) :
    Core m -> (forall msg, Core (handler msg)) -> Core (catch m handler)
| core_read r : Core (read r)
| core_newSpectrumAnalyzer samples sampleRate windowType :
    Core (newSpectrumAnalyzer samples sampleRate windowType)
| core_calculatePowerSpectrum K this : Core (calculatePowerSpectrum K this)
| core_findPeakFrequency this : Core (findPeakFrequency this)
| core_getStrongestFrequencies this count : Core (getStrongestFrequencies this count)
| core_slice samples start stop : Core (slice samples start stop)
| core_extractSections samples sampleRate closestApproachIndex duration :
    Core (extractSections samples sampleRate closestApproachIndex duration)
| core_extractShortFileSections samples sampleRate :
    Core (extractShortFileSections samples sampleRate)
| core_analyzerExtractSections K samples sampleRate strategy :
    Core (analyzerExtractSections K samples sampleRate strategy)
| core_extractBestSections samples sampleRate closestApproachIndex :
    Core (extractBestSections samples sampleRate closestApproachIndex)
| core_newFrequencyAnalysis samples sampleRate windowType topFrequencyCount confidenceThreshold :
    Core (newFrequencyAnalysis samples sampleRate windowType topFrequencyCount
            confidenceThreshold)
| core_analyzeSingleSection K this samples : Core (analyzeSingleSection K this samples)
| core_analyzeDualSections K this approachSamples recedeSamples :
    Core (analyzeDualSections K this approachSamples recedeSamples)
| core_findBestSpeedCalculation approachFrequencies recedeFrequencies expectedSpeed :
    Core (ret (Strategies.findBestSpeedCalculation approachFrequencies recedeFrequencies
                 expectedSpeed)).

(** A computation that changes no array outside [S] among those that
    exist when it starts. *)
Definition modifiesOnly {A : Type} (S : gset positive) (m : M A) : Prop :=
  forall h r contents, r ∉ S -> h !! r = Some contents -> (m h).2 !! r = Some contents.

End Store.

(* ===================================================================== *)
(** ** FrequencyMatcher: the shift test and the search for the best pair
       (docs/shared/frequency-matcher.js) *)
(* ===================================================================== *)

Module FrequencyMatcher.

Import Matcher.


(** The results with [valid: true] that the two loops of
    [findOptimalSpeedCalculation] see, in the order they see them. *)
Definition validResults (speedCalculator : Doppler.DopplerSpeedCalculator)
    (approachFrequencies recedeFrequencies : list FrequencyCandidate)
    (expectedSpeedMph : num) : list Match :=
  flat_map
    (fun approachFreq =>
       flat_map
         (fun recedeFreq =>
            match calculateSpeedForFrequencyPair speedCalculator
                    (frequency approachFreq) (frequency recedeFreq) expectedSpeedMph with
            | PairValid result => [result]
            | PairInvalid _ _ => []
            end)
         recedeFrequencies)
    approachFrequencies.

(** A result can replace the initial [bestError = Infinity] when its
    error is below it: a number that is not Infinity. *)
Definition beatsInfinity (result : Match) : bool := error result <? PInf.

(** The body of the inner loop of [findOptimalSpeedCalculation] on a
    result with [valid: true]. *)
Definition keepBetter (st : Best) (result : Match) : Best :=
  if error result <? snd st then (Some result, error result) else st.

End FrequencyMatcher.

(* ===================================================================== *)
(** ** AudioSlicer: time-based and overlapping sections
       (docs/shared/audio-slicer.js) *)
(* ===================================================================== *)

Module AudioSlicer.

(** The metadata kept for one named range. *)
Record RangeMetadata : Type := {
  startTime : num;
  endTime : num;
  startSample : num;
  endSample : num;
  duration : num
}.

(** What [extractTimeSections] returns, [{...sections, strategy:
    'time_based', metadata}]: the sections by name, the two properties
    written after the spread replacing a section of the same name. *)
Record TimeSections : Type := {
  sections : gmap string (list num);
  strategy : string;
  metadata : gmap string RangeMetadata
}.

(** The body of the loop of [extractTimeSections] for one range
    [[startTime, endTime]]. *)
Definition timeSection (samples : list num) (sampleRate : num) (range : num * num)
  : list num * RangeMetadata :=
  let '(startTime, endTime) := range in
  let startSample := JS.floor (startTime * sampleRate) in
  let endSample := JS.floor (endTime * sampleRate) in
  let validStartSample := JS.max (Fin 0) startSample in
  let validEndSample := JS.min (JS.of_nat (length samples)) endSample in
  (Arr.slice samples validStartSample (Some validEndSample),
   {| startTime := startTime;
      endTime := endTime;
      startSample := validStartSample;
      endSample := validEndSample;
      duration := (validEndSample - validStartSample) / sampleRate |}).

(** [extractTimeSections(samples, sampleRate, timeRanges)];
    [timeRanges] is given by its entries, [Object.entries(timeRanges)]. *)
Definition extractTimeSections (samples : list num) (sampleRate : num)
    (timeRanges : list (string * (num * num))) : TimeSections :=
  let filled :=
    fold_left
      (fun (st : gmap string (list num) * gmap string RangeMetadata)
           (entry : string * (num * num)) =>
         let section := timeSection samples sampleRate entry.2 in
         (<[entry.1 := section.1]> st.1, <[entry.1 := section.2]> st.2))
      timeRanges (∅, ∅) in
  {| sections := delete "metadata" (delete "strategy" filled.1);
     strategy := "time_based";
     metadata := filled.2 |}.

(** The object of [extractTimeSections] as [validateSections] reads it.
    It has no [approachDuration] and no [recedeDuration]: the two read
    undefined, which stands here as NaN (a range of one of these two
    names would be read instead, and is left out of the model). *)
Definition timeSectionsRead (t : TimeSections) : Slicer.Sections :=
  {| Slicer.approaching := sections t !! "approaching";
     Slicer.receding := sections t !! "receding";
     Slicer.approachDuration := NaN;
     Slicer.recedeDuration := NaN;
     Slicer.strategy := Some (strategy t) |}.










End AudioSlicer.

(* ===================================================================== *)
(** ** AudioProcessor (docs/shared/audio-utils.js) *)
(* ===================================================================== *)

Module AudioProcessor.



(** The body of the loop of [extractTimeSections] for one range. *)
Definition timeSection (samples : list num) (sampleRate : num) (range : num * num)
  : list num :=
  let '(startTime, endTime) := range in
  let startIndex := JS.floor (startTime * sampleRate) in
  let endIndex := JS.floor (endTime * sampleRate) in
  let validEndIndex := JS.min endIndex (JS.of_nat (length samples)) in
  if startIndex <? validEndIndex
  then Arr.slice samples startIndex (Some validEndIndex)
  else [].

(** [extractTimeSections(samples, sampleRate, timeRanges)] *)
Definition extractTimeSections (samples : list num) (sampleRate : num)
    (timeRanges : list (string * (num * num))) : gmap string (list num) :=
  fold_left
    (fun (sections : gmap string (list num)) (entry : string * (num * num)) =>
       <[entry.1 := timeSection samples sampleRate entry.2]> sections)
    timeRanges ∅.

End AudioProcessor.

(* ===================================================================== *)
(** ** AudioAnalyzer: the choice of a sectioning
       (docs/shared/audio-analyzer.js) *)
(* ===================================================================== *)

Module AudioAnalyzer.

(** The part of the configuration that [extractOptimalSections] reads. *)
Record SectioningConfig : Type := {
  sectioningStrategy : string;
  timeRanges : option (list (string * (num * num)))
}.

(** What [extractOptimalSections] returns: the sections object of the
    strategy, with its [validation] property set (for the 'auto'
    strategy: replaced) by the final [validateSections]. *)
Record Sectioning : Type := {
  sections : Slicer.Sections;
  selectedStrategy : option string;
  validation : Slicer.Validation
}.

(** [approachDetection && approachDetection.found] *)
Definition detected (approachDetection : option Approach.Detection) : bool :=
  match approachDetection with
  | Some d => Approach.found d
  | None => false
  end.

(** The sections object each case of the switch builds.  The 'auto'
    case reads [bestStrategy.sections] of the first element of a sorted
    array, which throws on an empty array. *)
Definition sectionsOfStrategy (samples : list num) (sampleRate : num)
    (approachDetection : option Approach.Detection) (config : SectioningConfig)
  : outcome (Slicer.Sections * option string) :=
  let closest :=
    match approachDetection with
    | Some d =>
        if Approach.found d
        then Returns
               (Slicer.extractSections samples sampleRate
                  (JS.of_Z (Approach.closestApproachIndex d))
                  (JS.of_nat (length samples) / sampleRate), None)
        else Returns (Slicer.extractShortFileSections samples sampleRate, None)
    | None => Returns (Slicer.extractShortFileSections samples sampleRate, None)
    end in
  if String.eqb (sectioningStrategy config) "closest_approach" then closest
  else if String.eqb (sectioningStrategy config) "quarters" then
    Returns (Slicer.extractShortFileSections samples sampleRate, None)
  else if String.eqb (sectioningStrategy config) "time_based" then
    match timeRanges config with
    | Some ranges =>
        Returns (AudioSlicer.timeSectionsRead
                   (AudioSlicer.extractTimeSections samples sampleRate ranges), None)
    | None => Returns (Slicer.extractShortFileSections samples sampleRate, None)
    end
  else
    match Slicer.extractBestSections samples sampleRate
            (match approachDetection with
             | Some d =>
                 if Approach.found d
                 then Some (JS.of_Z (Approach.closestApproachIndex d)) else None
             | None => None
             end) with
    | Some b => Returns (Slicer.best b, Some (Slicer.selectedStrategy b))
    | None => Throws "Cannot read properties of undefined"
    end.

(** [extractOptimalSections(samples, sampleRate, approachDetection,
    config)] *)
Definition extractOptimalSections (samples : list num) (sampleRate : num)
    (approachDetection : option Approach.Detection) (config : SectioningConfig)
  : outcome Sectioning :=
  match sectionsOfStrategy samples sampleRate approachDetection config with
  | Returns (sectioning, selected) =>
      Returns {| sections := sectioning;
                 selectedStrategy := selected;
                 validation := Slicer.validateSections sectioning 2048 |}
  | Throws msg => Throws msg
  end.

End AudioAnalyzer.

(* ===================================================================== *)
(** ** ApproachDetector: the energy profile and the full detection
       (docs/shared/approach-detector.js) *)
(* ===================================================================== *)

Module ApproachDetector.

Import Approach.

(** The integers [lo], [lo + 1], ..., [hi - 1]: the values of a loop
    counter. *)
Definition zrange (lo hi : Z) : list Z :=
  map (fun k => (lo + Z.of_nat k)%Z) (seq 0 (Z.to_nat (hi - lo))).

(** The inner loop of [calculateEnergyProfile] and the RMS it yields:
    [j] runs from [i - halfWindow] while [j < i + halfWindow] and
    [j < samples.length]; the positions [j >= 0] are summed and
    counted. *)
Definition windowEnergy (K : Numerics) (samples : list num) (halfWindow i : Z) : num :=
  let visited :=
    List.filter (fun j => (0 <=? j)%Z)
      (zrange (i - halfWindow) (Z.min (i + halfWindow) (Z.of_nat (length samples)))) in
  let sumSquares :=
    fold_left
      (fun sum j => sum + Arr.get samples (Z.to_nat j) * Arr.get samples (Z.to_nat j))
      visited (Fin 0) in
  let count := length visited in
  if (0 <? count)%nat then sqrt K (sumSquares / JS.of_nat count) else Fin 0.

(** The point pushed for the window centred at [i]. *)
Definition energyPoint (K : Numerics) (samples : list num) (halfWindow i : Z) : EnergyPoint :=
  {| index := i;
     energy := windowEnergy K samples halfWindow i;
     time := JS.of_Z i
             / (if (0 <? length samples)%nat then JS.of_nat (length samples) else Fin 1) |}.

(** [calculateEnergyProfile(samples, windowSamples)].  With a half
    window of -Infinity the loop counter starts at -Infinity and stays
    there, below its bound: the call does not return ([None]); with
    +Infinity or NaN the loop test fails at once. *)
Definition calculateEnergyProfile (K : Numerics) (samples : list num) (windowSamples : num)
  : option (list EnergyPoint) :=
  match windowSamples with
  | Fin q =>
      let halfWindow := Qfloor (q / 2) in
      Some (map (energyPoint K samples halfWindow)
              (zrange halfWindow (Z.of_nat (length samples) - halfWindow)))
  | NInf => None
  | PInf | NaN => Some []
  end.

(** A point of the smoothed profile: the point with its new energy, and
    the [rawEnergy] the filter adds (missing on a profile returned as it
    came). *)
Record SmoothedPoint : Type := {
  point : EnergyPoint;
  rawEnergy : option num
}.

(** The inner loop of [applySmoothingFilter]: the mean of the energies
    at the positions [i - halfWindow .. i + halfWindow] that lie inside
    the profile; [own] when there is none. *)
Definition smoothedEnergy (energyProfile : list EnergyPoint) (halfWindow : Z) (i : nat)
    (own : num) : num :=
  let visited :=
    List.filter (fun j => (0 <=? j)%Z && (j <? Z.of_nat (length energyProfile))%Z)
      (zrange (Z.of_nat i - halfWindow) (Z.of_nat i + halfWindow + 1)) in
  let sum :=
    fold_left (fun sum j => sum + energyAt energyProfile (Z.to_nat j)) visited (Fin 0) in
  let count := length visited in
  if (0 <? count)%nat then sum / JS.of_nat count else own.

Definition unsmoothed (energyProfile : list EnergyPoint) : list SmoothedPoint :=
  map (fun p => {| point := p; rawEnergy := None |}) energyProfile.

Definition smoothedWith (energyOf : nat -> EnergyPoint -> num)
    (energyProfile : list EnergyPoint) : list SmoothedPoint :=
  imap
    (fun i p =>
       {| point := {| index := index p; energy := energyOf i p; time := time p |};
          rawEnergy := Some (energy p) |})
    energyProfile.

(** [applySmoothingFilter(energyProfile, smoothingSamples)].  With
    [smoothingSamples] NaN no position is visited and every point keeps
    its energy; with +Infinity the inner counter starts at -Infinity and
    stays there: on a profile that is not empty the call does not return
    ([None]). *)
Definition applySmoothingFilter (energyProfile : list EnergyPoint) (smoothingSamples : num)
  : option (list SmoothedPoint) :=
  if smoothingSamples <=? Fin 1 then Some (unsmoothed energyProfile)
  else
    match smoothingSamples with
    | Fin q =>
        let halfWindow := Qfloor (q / 2) in
        Some (smoothedWith
                (fun i p => smoothedEnergy energyProfile halfWindow i (energy p))
                energyProfile)
    | PInf =>
        match energyProfile with
        | [] => Some []
        | _ :: _ => None
        end
    | NaN | NInf => Some (smoothedWith (fun _ p => energy p) energyProfile)
    end.



(** What [findClosestApproach] returns: the selection, the smoothed
    profile, the peaks, and the sample counts of its metadata. *)
Record Found : Type := {
  detection : Detection;
  energyProfile : list SmoothedPoint;
  allPeaks : list Peak;
  windowSamples : num;
  smoothingSamples : num;
  peaksFound : nat
}.


(** An energy that is not negative: NaN, +Infinity, or a finite value
    that is at least 0. *)
Definition notNegative (a : num) : Prop := (a <? Fin 0) = false.

End ApproachDetector.

(* ===================================================================== *)
(** ** The peak of a power spectrum and the analysis of two sections on
       values (docs/shared/spectrum-analyzer.js,
       docs/shared/frequency-analysis.js) *)
(* ===================================================================== *)

(** [firstStrongest power k peakIndex]: among the bins [1 .. k - 1],
    either none has a positive power and [peakIndex] is 0, or
    [peakIndex] is the first bin of the greatest power, which is
    positive. *)
Definition firstStrongest (power : list num) (k : nat) (peakIndex : nat) : Prop :=
  (peakIndex = 0%nat /\
   forall i, (1 <= i < k)%nat -> (Arr.get power i <=? Fin 0) = true) \/
  ((1 <= peakIndex < k)%nat /\ (Fin 0 <? Arr.get power peakIndex) = true /\
   (forall i, (1 <= i < peakIndex)%nat ->
              (Arr.get power i <? Arr.get power peakIndex) = true) /\
   (forall i, (peakIndex < i < k)%nat ->
              (Arr.get power i <=? Arr.get power peakIndex) = true)).

Module DualAnalysis.

Import Analysis.

(** The object [analyzeSingleSection] returns for a section that is too
    short or whose analysis threw. *)
Definition invalidSection : SectionAnalysis :=
  {| valid := false;
     frequencies := [];
     qualityMetrics := calculateSectionQuality [];
     confidence := Fin 0 |}.

(** [analyzeSingleSection(samples, sectionType)] on the samples
    themselves; [windowType] is the option the analysis was built with.
    Whatever is thrown on the way is caught. *)
Definition analyzeSingleSection (K : Numerics) (this : FrequencyAnalysis)
    (windowType : option string) (samples : list num) : SectionAnalysis :=
  if (length samples <? 1024)%nat then invalidSection
  else
    match Spectrum.calculatePowerSpectrum K
            (Spectrum.new samples (sampleRate this) windowType) with
    | Throws _ => invalidSection
    | Returns analyzer =>
        match Spectrum.getStrongestFrequencies analyzer (topFrequencyCount this),
              Spectrum.findPeakFrequency analyzer with
        | Returns strongestFreqs, Returns _ =>
            let qualityMetrics := calculateSectionQuality strongestFreqs in
            {| valid := true;
               frequencies := rankFrequencies strongestFreqs;
               qualityMetrics := qualityMetrics;
               confidence := overallConfidence qualityMetrics |}
        | _, _ => invalidSection
        end
    end.

(** What [analyzeDualSections] returns. *)
Record Dual : Type := {
  approach : SectionAnalysis;
  recede : SectionAnalysis;
  combined : Combined
}.

(** [analyzeDualSections(approachSamples, recedeSamples)] *)
Definition analyzeDualSections (K : Numerics) (this : FrequencyAnalysis)
    (windowType : option string) (approachSamples recedeSamples : list num) : Dual :=
  let approachAnalysis := analyzeSingleSection K this windowType approachSamples in
  let recedeAnalysis := analyzeSingleSection K this windowType recedeSamples in
  {| approach := approachAnalysis;
     recede := recedeAnalysis;
     combined := combineAnalyses this approachAnalysis recedeAnalysis |}.

End DualAnalysis.

(* ===================================================================== *)
(** ** SpeedAnalyzer: the transform size and the frequencies of a
       section (docs/shared/speed-analyzer.js) *)
(* ===================================================================== *)

Module SpeedAnalyzer.

(** The loop of [getOptimalFFTSize], [while (size < sampleLength / 4 &&
    size < 32768) size *= 2], from the value [size] on; [None] says that
    it is still running after [fuel] iterations. *)
Fixpoint doubled (fuel : nat) (sampleLength size : num) : option num :=
  match fuel with
  | O => None
  | S fuel' =>
      if (size <? sampleLength / Fin 4) && (size <? Fin 32768)
      then doubled fuel' sampleLength (size * Fin 2)
      else Some size
  end.

(** [getOptimalFFTSize(sampleLength)] *)
Definition getOptimalFFTSize (fuel : nat) (sampleLength : num) : option num :=
  match doubled fuel sampleLength (Fin 1024) with
  | Some size => Some (JS.min size sampleLength)
  | None => None
  end.

(** [new Array(n)]: the length of the array when [n] is an integer from
    0 to 2^32 - 1; any other number is a RangeError ([None]). *)
Definition arrayLength (n : num) : option nat :=
  match n with
  | Fin q =>
      if Qeq_bool q (inject_Z (Qfloor q)) && (0 <=? Qfloor q)%Z && (Qfloor q <? 2 ^ 32)%Z
      then Some (Z.to_nat (Qfloor q))
      else None
  | _ => None
  end.

(** The values of the counter of [for (let j = 0; j < bound; j += 4)]. *)
Definition strided (bound : nat) : list nat :=
  map (fun k => (4 * k)%nat) (seq 0 ((bound + 3) / 4)).

(** The body of the outer loop of [performFFT]: the power of bin [i].
    [cos] and [pi] stand for [Math.cos] and [Math.PI]. *)
Definition binPower (cos : num -> num) (pi : num) (samples : list num)
    (fftSize sampleRate : num) (i : nat) : num :=
  let freq := (JS.of_nat i * sampleRate) / fftSize in
  fold_left
    (fun power j =>
       let phase := (Fin 2 * pi * freq * JS.of_nat j) / sampleRate in
       power + JS.abs (Arr.get samples j * cos phase))
    (strided (Nat.min (length samples) 4096)) (Fin 0).

(** [performFFT(samples, fftSize, sampleRate)] *)
Definition performFFT (cos : num -> num) (pi : num) (samples : list num)
    (fftSize sampleRate : num) : outcome (list num) :=
  match arrayLength (fftSize / Fin 2) with
  | None => Throws "Invalid array length"
  | Some bins => Returns (map (binPower cos pi samples fftSize sampleRate) (seq 0 bins))
  end.

(** The filter of [analyzeFrequencies]. *)
Definition inRange (bin : Matcher.FrequencyCandidate) : bool :=
  (Matcher.frequency bin >=? Fin 50) && (Matcher.frequency bin <=? Fin 2000).

(** [analyzeFrequencies(samples, sampleRate)]; an error of [performFFT]
    is caught and gives the empty array. *)
Definition analyzeFrequencies (fuel : nat) (cos : num -> num) (pi : num)
    (samples : list num) (sampleRate : num) : option (list Matcher.FrequencyCandidate) :=
  match getOptimalFFTSize fuel (JS.of_nat (length samples)) with
  | None => None
  | Some fftSize =>
      match performFFT cos pi samples fftSize sampleRate with
      | Throws _ => Some []
      | Returns freqBins =>
          Some (Arr.slice
                  (Arr.sort (Arr.descending Matcher.power)
                     (List.filter inRange
                        (imap (fun index power =>
                                 {| Matcher.frequency :=
                                      (JS.of_nat index * sampleRate) / fftSize;
                                    Matcher.power := power |})
                           freqBins)))
                  (Fin 0) (Some (Fin 10)))
      end
  end.

End SpeedAnalyzer.

(* ===================================================================== *)
(** ** ApproachDetector: the energy distribution and the validation of a
       detection (docs/shared/approach-detector.js) *)
(* ===================================================================== *)

Module DetectionValidation.

Import Approach ApproachDetector.

(** What [analyzeEnergyDistribution] returns; the object of an empty
    profile has no [minEnergy], [coefficient] and [profile]. *)
Record EnergyDistribution : Type := {
  meanEnergy : num;
  maxEnergy : num;
  minEnergy : option num;
  energyVariance : num;
  energyStd : num;
  dynamicRange : num;
  peakCount : nat;
  coefficient : option num;
  profile : option (list EnergyPoint)
}.

(** [Math.min(...values)]; +Infinity on no argument. *)
Definition minimum (values : list num) : num := fold_left JS.min values PInf.

(** [analyzeEnergyDistribution(samples, sampleRate)]; [log10] stands for
    [Math.log10].  [None] when [calculateEnergyProfile] does not
    return. *)
Definition analyzeEnergyDistribution (K : Numerics) (log10 : num -> num)
    (samples : list num) (sampleRate : num) : option EnergyDistribution :=
  let windowSamples := JS.floor (Fin 0.1 * sampleRate) in
  match calculateEnergyProfile K samples windowSamples with
  | None => None
  | Some energyProfile =>
      if (length energyProfile =? 0)%nat then
        Some {| meanEnergy := Fin 0; maxEnergy := Fin 0; minEnergy := None;
                energyVariance := Fin 0; energyStd := Fin 0; dynamicRange := Fin 0;
                peakCount := 0; coefficient := None; profile := None |}
      else
        let energies := map energy energyProfile in
        let meanEnergy :=
          fold_left (fun sum e => sum + e) energies (Fin 0) / JS.of_nat (length energies) in
        let maxEnergy := Arr.maximum energies in
        let minEnergy := minimum energies in
        let variance :=
          fold_left (fun sum e => sum + (e - meanEnergy) * (e - meanEnergy)) energies (Fin 0)
          / JS.of_nat (length energies) in
        let standardDeviation := sqrt K variance in
        let dynamicRange :=
          if maxEnergy >? Fin 0
          then Fin 20 * log10 (maxEnergy / JS.max minEnergy (maxEnergy * Fin 0.001))
          else Fin 0 in
        let peaks := findEnergyPeaks energyProfile (Fin 0.1) in
        Some {| meanEnergy := meanEnergy; maxEnergy := maxEnergy;
                minEnergy := Some minEnergy;
                energyVariance := variance; energyStd := standardDeviation;
                dynamicRange := dynamicRange;
                peakCount := length peaks;
                coefficient := Some (standardDeviation / JS.or_else meanEnergy (Fin 1));
                profile := Some energyProfile |}
  end.

(** The issues [validateDetection] reports, each by the message it
    pushes (a number for the value printed into the message). *)
Inductive Issue : Type :=
| NoClosestApproach            (* 'No closest approach detected' *)
| LowConfidence (confidence : num)       (* 'Low confidence: ...' *)
| MediumConfidence (confidence : num)    (* 'Medium confidence: ...' *)
| TooCloseToBeginning          (* 'Closest approach too close to beginning' *)
| TooCloseToEnd                (* 'Closest approach too close to end' *)
| LowDynamicRange (dynamicRange : num).  (* 'Low dynamic range: ... dB' *)

(** [issue.includes('too close to')] *)
Definition includesTooCloseTo (issue : Issue) : bool :=
  match issue with
  | TooCloseToBeginning | TooCloseToEnd => true
  | _ => false
  end.

Inductive Quality : Type := Poor | Fair | Good.

Definition isPoor (quality : Quality) : bool :=
  match quality with Poor => true | _ => false end.

(** The [validation] object. *)
Record Validation : Type := {
  isValid : bool;
  quality : Quality;
  issues : list Issue;
  recommendations : list string
}.

(** [validateDetection(detection, samples, sampleRate)] *)
Definition validateDetection (K : Numerics) (log10 : num -> num) (detection : Detection)
    (samples : list num) (sampleRate : num) : option Validation :=
  if negb (found detection) then
    Some {| isValid := false; quality := Poor;
            issues := [NoClosestApproach];
            recommendations :=
              ["Try adjusting detection sensitivity or using manual sectioning"%string] |}
  else
    let confidence := detectionConfidence detection in
    let '(issues1, quality) :=
      if confidence <? Fin 0.3 then ([LowConfidence confidence], Poor)
      else if confidence <? Fin 0.6 then ([MediumConfidence confidence], Fair)
      else ([], Good) in
    let edgeMargin := JS.of_nat (length samples) * Fin 0.1 in
    let position := JS.of_Z (closestApproachIndex detection) in
    let '(issues2, recommendations2) :=
      if position <? edgeMargin then
        (issues1 ++ [TooCloseToBeginning],
         ["Audio may not contain complete approach phase"%string])
      else if position >? JS.of_nat (length samples) - edgeMargin then
        (issues1 ++ [TooCloseToEnd],
         ["Audio may not contain complete recede phase"%string])
      else (issues1, []) in
    match analyzeEnergyDistribution K log10 samples sampleRate with
    | None => None
    | Some energyAnalysis =>
        let '(issues3, recommendations3) :=
          if dynamicRange energyAnalysis <? Fin 10 then
            (issues2 ++ [LowDynamicRange (dynamicRange energyAnalysis)],
             recommendations2 ++
               ["Audio may lack sufficient signal variation for reliable detection"%string])
          else (issues2, recommendations2) in
        Some {| isValid :=
                  (length issues3 =? 0)%nat
                  || (negb (isPoor quality) && negb (existsb includesTooCloseTo issues3));
                quality := quality;
                issues := issues3;
                recommendations := recommendations3 |}
    end.

End DetectionValidation.

(* ===================================================================== *)
(** ** The pure JavaScript FFT, the Cooley-Tukey transform that the
       spectrum analyzer calls as [fft] *)
(* ===================================================================== *)

Module Fft.

(** [Math.cos], [Math.sin] and [Math.PI], which the transform reads. *)
Record Trig : Type := {
  cos : num -> num;
  sin : num -> num;
  PI : num
}.

(** ToInt32, which [&] applies to its two operands. *)
Definition toInt32 (z : Z) : Z :=
  let m := (z mod 2 ^ 32)%Z in
  if (m <? 2 ^ 31)%Z then m else (m - 2 ^ 32)%Z.

(** [(length & (length - 1)) !== 0] *)
Definition notPowerOfTwo (length : nat) : bool :=
  negb (Z.land (toInt32 (Z.of_nat length)) (toInt32 (Z.of_nat length - 1)) =? 0)%Z.

(** The array [complex] after the first loop of [fft]: every sample
    followed by an imaginary part of 0. *)
Definition complexOf (signal : list num) : list num :=
  flat_map (fun s => [s; Fin 0]) signal.

(** The arrays [even] and [odd] after the first loop of [fftRecursive],
    for an even [N]. *)
Definition evenOf (x : list num) (N : nat) : list num :=
  flat_map (fun i => [Arr.get x (i * 4); Arr.get x (i * 4 + 1)]) (seq 0 (N / 2)).

Definition oddOf (x : list num) (N : nat) : list num :=
  flat_map (fun i => [Arr.get x (i * 4 + 2); Arr.get x (i * 4 + 3)]) (seq 0 (N / 2)).

(** The body of the last loop of [fftRecursive]: the four writes to [x]
    for one [k]. *)
Definition combine (T : Trig) (even odd : list num) (N : nat) (x : list num) (k : nat)
  : list num :=
  let angle := (Fin (-2) * PI T * JS.of_nat k) / JS.of_nat N in
  let cos_val := cos T angle in
  let sin_val := sin T angle in
  let t_real := Arr.get odd (k * 2) * cos_val - Arr.get odd (k * 2 + 1) * sin_val in
  let t_imag := Arr.get odd (k * 2) * sin_val + Arr.get odd (k * 2 + 1) * cos_val in
  <[((k + N / 2) * 2 + 1)%nat := Arr.get even (k * 2 + 1) - t_imag]>
    (<[((k + N / 2) * 2)%nat := Arr.get even (k * 2) - t_real]>
       (<[(k * 2 + 1)%nat := Arr.get even (k * 2 + 1) + t_imag]>
          (<[(k * 2)%nat := Arr.get even (k * 2) + t_real]> x))).

(** [fftRecursive(x, N)], as the contents of [x] when it returns; [x]
    holds [2 * N] numbers, and [N] is 0 or a power of two at every call
    ([fft] checks it), so that [N / 2] is an integer and every write is
    inside [x].  [None] says that the recursion is deeper than [fuel]. *)
Fixpoint fftRecursive (fuel : nat) (T : Trig) (x : list num) (N : nat)
  : option (list num) :=
  match fuel with
  | O => None
  | S fuel' =>
      if (N <=? 1)%nat then Some x
      else
        match fftRecursive fuel' T (evenOf x N) (N / 2),
              fftRecursive fuel' T (oddOf x N) (N / 2) with
        | Some even, Some odd => Some (fold_left (combine T even odd N) (seq 0 (N / 2)) x)
        | _, _ => None
        end
  end.

(** [fft(signal)] *)
Definition fft (fuel : nat) (T : Trig) (signal : list num) : option (outcome (list num)) :=
  if notPowerOfTwo (length signal) then Some (Throws "FFT length must be power of 2")
  else
    match fftRecursive fuel T (complexOf signal) (length signal) with
    | Some complex => Some (Returns complex)
    | None => None
    end.

(** The sums of the real and of the imaginary parts of a complex
    array. *)
Fixpoint realSum (x : list num) : num :=
  match x with
  | real :: _ :: rest => real + realSum rest
  | _ => Fin 0
  end.

Fixpoint imagSum (x : list num) : num :=
  match x with
  | _ :: imag :: rest => imag + imagSum rest
  | _ => Fin 0
  end.

End Fft.

(* ===================================================================== *)
(** * Properties *)
(* ===================================================================== *)

(** ** Arithmetic of the number model *)

Lemma Qltb_iff a b : JS.Qltb a b = true <-> a < b.
Proof.
  unfold JS.Qltb. rewrite negb_true_iff.
  destruct (Qle_bool b a) eqn:E.
  - apply Qle_bool_iff in E. split; [discriminate | intros H; lra].
  - split; [intros _ | reflexivity].
    destruct (Qlt_le_dec a b) as [H | H]; [exact H |].
    apply Qle_bool_iff in H. congruence.
Qed.

Lemma Qltb_false_iff a b : JS.Qltb a b = false <-> b <= a.
Proof.
  unfold JS.Qltb. rewrite negb_false_iff. apply Qle_bool_iff.
Qed.


Lemma Qle_bool_false_iff a b : Qle_bool a b = false <-> b < a.
Proof.
  destruct (Qle_bool a b) eqn:E.
  - apply Qle_bool_iff in E. split; [discriminate | intros H; lra].
  - split; [intros _ | reflexivity].
    destruct (Qlt_le_dec b a) as [H | H]; [exact H |].
    apply Qle_bool_iff in H. congruence.
Qed.

Lemma Qeq_bool_false_iff a b : Qeq_bool a b = false <-> ~ a == b.
Proof.
  split; [apply Qeq_bool_neq |].
  intros H. destruct (Qeq_bool a b) eqn:E; [| reflexivity].
  apply Qeq_bool_iff in E. contradiction.
Qed.

(** Boolean comparisons of rationals, turned into propositions. *)
Ltac qbool :=
  repeat match goal with
  | H : JS.Qltb _ _ = true |- _ => apply Qltb_iff in H
  | H : JS.Qltb _ _ = false |- _ => apply Qltb_false_iff in H
  | H : Qle_bool _ _ = true |- _ => apply Qle_bool_iff in H
  | H : Qle_bool _ _ = false |- _ => apply Qle_bool_false_iff in H
  | H : Qeq_bool _ _ = true |- _ => apply Qeq_bool_iff in H
  | H : Qeq_bool _ _ = false |- _ => apply Qeq_bool_false_iff in H
  | |- JS.Qltb _ _ = true => apply Qltb_iff
  | |- JS.Qltb _ _ = false => apply Qltb_false_iff
  | |- Qle_bool _ _ = true => apply Qle_bool_iff
  | |- Qle_bool _ _ = false => apply Qle_bool_false_iff
  | |- Qeq_bool _ _ = true => apply Qeq_bool_iff
  | |- Qeq_bool _ _ = false => apply Qeq_bool_false_iff
  end.

Lemma same_refl a : a ≃ a.
Proof. destruct a; simpl; auto. reflexivity. Qed.

Lemma same_sym a b : a ≃ b -> b ≃ a.
Proof. destruct a, b; simpl; auto. intros H; now symmetry. Qed.

Lemma same_trans a b c : a ≃ b -> b ≃ c -> a ≃ c.
Proof.
  destruct a, b, c; simpl; auto; try contradiction.
  intros H1 H2. now rewrite H1.
Qed.

(** ** DopplerSpeedCalculator *)

Module DopplerFacts.
Import Doppler.

(** A positive shift over a positive sum is a positive ratio. *)
Lemma ratio_pos (f1 f2 : Q) : (0 < f2)%Q -> (f2 < f1)%Q -> (0 < (f1 - f2) / (f1 + f2))%Q.
Proof.
  intros H2 H1. apply Qlt_shift_div_l; lra.
Qed.


(** On finite frequencies whose sum is not zero, the speed before the
    bound check is the formula. *)
Lemma calculateSpeed_finite (this : DopplerSpeedCalculator) (c f1 f2 : Q) :
  soundSpeed this = Fin c -> ~ (f1 + f2 == 0)%Q ->
  calculateSpeed this (Fin f1) (Fin f2) =
    let v := Fin (c * (f1 - f2) / (f1 + f2) * 3.6) in
    if (v >=? maxReasonableSpeed this) || (v <? minReasonableSpeed this) then Fin 0 else v.
Proof.
  intros Hc Hs. unfold calculateSpeed. rewrite Hc. simpl.
  apply Qeq_bool_false_iff in Hs. rewrite Hs. reflexivity.
Qed.




(** The three rejections of C3 hold for every calculator and every pair
    of numbers: a non-positive frequency and a shift below 1 Hz leave by
    the early returns. *)
Lemma calculateSpeedWithValidation_early (this : DopplerSpeedCalculator) (f1 f2 : num) :
  (f1 <=? Fin 0) || (f2 <=? Fin 0) || (JS.abs (f1 - f2) <? Fin 1) = true ->
  exists msg, calculateSpeedWithValidation this f1 f2 = rejected msg.
Proof.
  intros H. unfold calculateSpeedWithValidation.
  destruct ((f1 <=? Fin 0) || (f2 <=? Fin 0)) eqn:E1; [eauto |].
  simpl in H. rewrite H. eauto.
Qed.

(** A speed outside the configured bound is returned as 0 by
    [calculateSpeed], and 0 is reported as invalid with an error. *)
Lemma calculateSpeedWithValidation_zero (this : DopplerSpeedCalculator) (f1 f2 : num) :
  calculateSpeed this f1 f2 = Fin 0 ->
  let r := calculateSpeedWithValidation this f1 f2 in
  valid r = false /\ speedKMH r = Fin 0 /\ speedMPH r ≃ Fin 0 /\ error r <> None.
Proof.
  intros H. unfold calculateSpeedWithValidation.
  destruct ((f1 <=? Fin 0) || (f2 <=? Fin 0)); [simpl; repeat split; try reflexivity; discriminate |].
  destruct (JS.abs (f1 - f2) <? Fin 1); [simpl; repeat split; try reflexivity; discriminate |].
  rewrite H. simpl. repeat split; try reflexivity; discriminate.
Qed.

(** On finite frequencies f2 < f1, both positive, the reversed call is
    invalid for every calculator with a positive finite speed of sound. *)
Lemma calculateSpeedWithValidation_reversed (this : DopplerSpeedCalculator) (c f1 f2 : Q) :
  soundSpeed this = Fin c -> (0 < c)%Q -> (0 < f2)%Q -> (f2 < f1)%Q ->
  valid (calculateSpeedWithValidation this (Fin f2) (Fin f1)) = false.
Proof.
  intros Hc Hpos H2 H1. unfold calculateSpeedWithValidation.
  destruct ((Fin f2 <=? Fin 0) || (Fin f1 <=? Fin 0)); [reflexivity |].
  destruct (JS.abs (Fin f2 - Fin f1) <? Fin 1); [reflexivity |].
  cbn [valid]. rewrite (calculateSpeed_finite this c f2 f1 Hc) by lra.
  cbv zeta.
  assert (Hneg : (c * (f2 - f1) / (f2 + f1) * 3.6 < 0)%Q).
  { pose proof (ratio_pos f1 f2 H2 H1) as Hr.
    assert (E : (c * (f2 - f1) / (f2 + f1) * 3.6 == - (c * 3.6 * ((f1 - f2) / (f1 + f2))))%Q).
    { field. lra. }
    rewrite E.
    assert (0 < c * 3.6 * ((f1 - f2) / (f1 + f2)))%Q; [| lra].
    apply Qmult_lt_0_compat; [lra | exact Hr]. }
  destruct (_ || _); simpl; qbool; lra.
Qed.

(** With a lower bound that is not negative (the default and every bound
    the strategies set), a finite call that is not valid reports zero
    speeds and an error. *)
Lemma calculateSpeedWithValidation_invalid_finite (this : DopplerSpeedCalculator)
    (c lo f1 f2 : Q) :
  soundSpeed this = Fin c -> minReasonableSpeed this = Fin lo -> (0 <= lo)%Q ->
  let r := calculateSpeedWithValidation this (Fin f1) (Fin f2) in
  valid r = false ->
  speedKMH r ≃ Fin 0 /\ speedMPH r ≃ Fin 0 /\ error r <> None.
Proof.
  intros Hc Hlo Hnn. unfold calculateSpeedWithValidation.
  destruct ((Fin f1 <=? Fin 0) || (Fin f2 <=? Fin 0)) eqn:E0;
    [simpl; intros _; repeat split; try reflexivity; discriminate |].
  destruct (JS.abs (Fin f1 - Fin f2) <? Fin 1);
    [simpl; intros _; repeat split; try reflexivity; discriminate |].
  assert (Hs : ~ (f1 + f2 == 0)%Q).
  { simpl in E0. apply orb_false_iff in E0 as [E1 E2]. qbool. lra. }
  rewrite (calculateSpeed_finite this c f1 f2 Hc Hs). cbv zeta.
  rewrite Hlo.
  destruct ((_ >=? _) || (_ <? _)) eqn:E.
  - simpl. intros _. repeat split; try reflexivity; discriminate.
  - apply orb_false_iff in E as [_ E]. simpl in E. simpl. intros Hv. qbool.
    assert (E0' : (c * (f1 - f2) / (f1 + f2) * 3.6 == 0)%Q) by lra.
    replace (Qeq_bool _ 0) with true by (symmetry; qbool; lra).
    repeat split; [lra | | discriminate]. rewrite E0'. reflexivity.
Qed.

(** C3 fails at a NaN frequency: neither guard fires, [calculateSpeed]
    returns NaN, and the result is [valid: false] with NaN speeds and a
    null error. *)
Theorem calculateSpeedWithValidation_nan :
  calculateSpeedWithValidation default NaN (Fin 440) =
    {| speedKMH := NaN; speedMPH := NaN; valid := false; error := None;
       frequencyShift := Some NaN; relativeFactor := Some NaN |}.
Proof. reflexivity. Qed.

(** The same happens with a negative lower bound and finite
    frequencies in the reversed order: the negative speed is inside the
    bound, so it is returned as it is, invalid and without an error. *)
Lemma calculateSpeedWithValidation_negative_bound :
  let r := calculateSpeedWithValidation
             (setSpeedLimits default (Fin (-100)) (Fin 1000)) (Fin 100) (Fin 110) in
  valid r = false /\ error r = None /\ speedKMH r ≃ Fin (- (58.8)).
Proof. vm_compute. repeat split; discriminate. Qed.

End DopplerFacts.

(** ** Loops that keep the first minimum *)

Lemma lt_not_nan_l a b : (a <? b) = true -> JS.is_nan a = false.
Proof. destruct a, b; simpl; congruence. Qed.

Lemma lt_false_le a b :
  JS.is_nan a = false -> JS.is_nan b = false -> (a <? b) = false -> (b <=? a) = true.
Proof.
  destruct a, b; simpl; try congruence. intros _ _ H. qbool. exact H.
Qed.

Lemma lt_le_trans a b c : (a <? b) = true -> (b <=? c) = true -> (a <? c) = true.
Proof.
  destruct a, b, c; simpl; try congruence. intros H1 H2. qbool. lra.
Qed.

Lemma lt_trans a b c : (a <? b) = true -> (b <? c) = true -> (a <? c) = true.
Proof.
  destruct a, b, c; simpl; try congruence. intros H1 H2. qbool. lra.
Qed.

Lemma le_trans a b c : (a <=? b) = true -> (b <=? c) = true -> (a <=? c) = true.
Proof.
  destruct a, b, c; simpl; try congruence. intros H1 H2. qbool. lra.
Qed.


Lemma le_refl a : JS.is_nan a = false -> (a <=? a) = true.
Proof. destruct a; simpl; try congruence. intros _. qbool. lra. Qed.

Section FirstMin.
Context {A : Type} (key : A -> num).

Lemma firstMin_single x : firstMin key [x] x.
Proof. exists [], []. repeat split; intros y []. Qed.

(** One more element at the end of the list. *)
Lemma firstMin_snoc l x y :
  JS.is_nan (key x) = false -> JS.is_nan (key y) = false ->
  firstMin key l x -> firstMin key (l ++ [y]) (keepLower key x y).
Proof.
  intros Hx Hy (pre & post & -> & Hpre & Hpost). unfold keepLower.
  destruct (key y <? key x) eqn:E.
  - exists (pre ++ x :: post), []. split; [reflexivity |]. split; [| intros z []].
    intros z Hz. apply in_app_or in Hz as [Hz | [<- | Hz]].
    + eapply lt_trans; [exact E | auto].
    + exact E.
    + eapply lt_le_trans; [exact E | auto].
  - exists pre, (post ++ [y]). split; [now rewrite <- app_assoc |]. split; [exact Hpre |].
    intros z Hz. apply in_app_or in Hz as [Hz | [<- | []]]; [auto |].
    now apply lt_false_le.
Qed.

Lemma firstMin_in l x : firstMin key l x -> In x l.
Proof. intros (pre & post & -> & _). apply in_or_app. right. now left. Qed.

Lemma fold_keepLower_firstMin rest : forall l x,
  Forall (fun y => JS.is_nan (key y) = false) (l ++ rest) ->
  firstMin key l x ->
  firstMin key (l ++ rest) (fold_left (keepLower key) rest x).
Proof.
  induction rest as [| y rest IH]; intros l x Hall Hx.
  - now rewrite app_nil_r.
  - simpl. replace (l ++ y :: rest) with ((l ++ [y]) ++ rest) in *
      by now rewrite <- app_assoc.
    apply IH; [exact Hall |].
    rewrite List.Forall_forall in Hall.
    apply firstMin_snoc; [| | exact Hx].
    + apply Hall. apply in_or_app. left. apply in_or_app. left.
      now apply firstMin_in.
    + apply Hall. apply in_or_app. left. apply in_or_app. right. now left.
Qed.

(** [reduce] without an initial value, on a non-empty array whose keys
    are numbers: the first minimum. *)
Lemma reduce_keepLower_firstMin x rest :
  Forall (fun y => JS.is_nan (key y) = false) (x :: rest) ->
  firstMin key (x :: rest) (fold_left (keepLower key) rest x).
Proof.
  intros Hall. apply (fold_keepLower_firstMin rest [x] x Hall), firstMin_single.
Qed.

End FirstMin.

Lemma fold_left_flat_map {A B S : Type} (f : S -> B -> S) (g : A -> list B) (l : list A) :
  forall st, fold_left f (flat_map g l) st = fold_left (fun st a => fold_left f (g a) st) l st.
Proof.
  induction l as [| a l IH]; intros st; [reflexivity |].
  simpl. now rewrite fold_left_app, IH.
Qed.

Lemma fold_left_ext {A S : Type} (f g : S -> A -> S) (l : list A) :
  (forall st a, f st a = g st a) -> forall st, fold_left f l st = fold_left g l st.
Proof.
  intros H. induction l as [| a l IH]; intros st; [reflexivity |].
  simpl. now rewrite H, IH.
Qed.

(** ** The three strategies and the final selection *)

Module StrategyFacts.
Import Matcher Strategies.

(** *** The tertiary strategy *)

Lemma tertiaryStep_kept e st p :
  tertiaryStep e st p =
    if kept p then
      if (tertiaryError e (pairMph p) <? snd st) || negb (JS.notNull (fst st))
      then (Some (tertiaryResult e p.1 p.2), tertiaryError e (pairMph p))
      else st
    else st.
Proof. destruct p as [f1 f2]. reflexivity. Qed.

(** The three nested loops run over [tertiaryPairs], and pairs that are
    not kept leave the state alone. *)
Lemma tertiary_loops A R e :
  fold_left
    (fun st a =>
       fold_left (fun st r => fold_left (tertiaryStep e) (bothOrders a r) st) (take 10 R) st)
    (take 10 A) noBest
  = fold_left (tertiaryStep e) (List.filter kept (tertiaryPairs A R)) noBest.
Proof.
  assert (Hskip : forall l st,
    fold_left (tertiaryStep e) (List.filter kept l) st = fold_left (tertiaryStep e) l st).
  { induction l as [| p l IH]; intros st; [reflexivity |].
    simpl. rewrite (tertiaryStep_kept e st p). destruct (kept p) eqn:K.
    - simpl. rewrite tertiaryStep_kept, K. apply IH.
    - apply IH. }
  rewrite Hskip. unfold tertiaryPairs. rewrite fold_left_flat_map.
  apply fold_left_ext. intros st a. now rewrite fold_left_flat_map.
Qed.

Lemma kept_speed_finite p :
  kept p = true ->
  exists q, Doppler.calculateSpeed veryLenientCalculator p.1 p.2 = Fin q /\ (0 < q)%Q /\ (q < 1000)%Q.
Proof.
  unfold kept. cbv zeta. destruct (Doppler.calculateSpeed _ _ _) as [q | | |]; simpl;
    try discriminate.
  intros H. apply andb_true_iff in H as [H1 H2]. qbool. eauto.
Qed.

Lemma abs_sub_not_nan q x : JS.is_nan x = false -> JS.is_nan (JS.abs (Fin q - x)) = false.
Proof. destruct x; simpl; congruence. Qed.

(** From the first kept pair on, the loop is the reduction that keeps
    the lower error. *)
Lemma tertiary_fold_from e rest : forall b,
  Forall (fun p => kept p = true) rest ->
  fold_left (tertiaryStep e) rest
    (Some (tertiaryResult e b.1 b.2), tertiaryError e (pairMph b))
  = let b' := fold_left (keepLower (fun p => tertiaryError e (pairMph p))) rest b in
    (Some (tertiaryResult e b'.1 b'.2), tertiaryError e (pairMph b')).
Proof.
  induction rest as [| p rest IH]; intros b Hk; [reflexivity |].
  apply List.Forall_cons_iff in Hk as [Kp Hk].
  cbn [fold_left]. rewrite tertiaryStep_kept, Kp.
  cbn [fst snd JS.notNull negb]. rewrite orb_false_r.
  rewrite <- (IH _ Hk). unfold keepLower.
  destruct (tertiaryError e (pairMph p) <? tertiaryError e (pairMph b)); reflexivity.
Qed.

Lemma tertiary_fold_kept e p0 rest :
  Forall (fun p => kept p = true) (p0 :: rest) ->
  fold_left (tertiaryStep e) (p0 :: rest) noBest
  = let b' := fold_left (keepLower (fun p => tertiaryError e (pairMph p))) rest p0 in
    (Some (tertiaryResult e b'.1 b'.2), tertiaryError e (pairMph b')).
Proof.
  intros Hk. apply List.Forall_cons_iff in Hk as [K0 Hk].
  cbn [fold_left]. rewrite tertiaryStep_kept, K0.
  cbn [fst snd noBest JS.notNull negb]. rewrite orb_true_r.
  now apply tertiary_fold_from.
Qed.

Lemma filter_all_kept l : Forall (fun p => kept p = true) (List.filter kept l).
Proof. apply List.Forall_forall. intros p Hp. now apply filter_In in Hp. Qed.

(** Without an anchor every error is 0 and the first pair stays. *)
Lemma keepLower_constant {A : Type} (key : A -> num) (c : Q) rest : forall b,
  (forall p, key p = Fin c) -> fold_left (keepLower key) rest b = b.
Proof.
  induction rest as [| p rest IH]; intros b Hc; [reflexivity |].
  cbn [fold_left]. replace (keepLower key b p) with b; [now apply IH |].
  unfold keepLower. rewrite !Hc. simpl.
  now replace (JS.Qltb c c) with false by (symmetry; qbool; lra).
Qed.

(** C5, as amended: the tertiary strategy tries both orderings of every
    pair of the first ten candidates of each list, keeps the pairs whose
    speed is strictly between 0 and 1000 km/h, and returns, when a
    non-zero anchor speed is supplied, the first kept pair that minimises
    |speedMph - anchor|, and otherwise (no anchor, or an anchor of 0) the
    first kept pair in the order tried; with no kept pair the result is
    invalid. *)
Theorem tryTertiaryStrategy_selection A R e :
  let cands := List.filter kept (tertiaryPairs A R) in
  match tryTertiaryStrategy A R e with
  | None => cands = []
  | Some s =>
      strategy s = Tertiary /\
      exists p,
        result s = tertiaryResult e p.1 p.2 /\
        speedMph (result s) = pairMph p /\
        match e with
        | Some anchor =>
            if JS.truthy anchor then firstMin (pairError anchor) cands p
            else head cands = Some p
        | None => head cands = Some p
        end
  end.
Proof.
  cbv zeta. unfold tryTertiaryStrategy. cbv zeta. rewrite tertiary_loops.
  pose proof (filter_all_kept (tertiaryPairs A R)) as Hk.
  destruct (List.filter kept (tertiaryPairs A R)) as [| p0 rest]; [reflexivity |].
  rewrite (tertiary_fold_kept e p0 rest Hk). cbv zeta. cbn [fst].
  split; [reflexivity |].
  set (key := fun p => tertiaryError e (pairMph p)).
  exists (fold_left (keepLower key) rest p0).
  split; [reflexivity |]. split; [reflexivity |].
  assert (Hconst : (forall p, key p = Fin 0) ->
                   head (p0 :: rest) = Some (fold_left (keepLower key) rest p0)).
  { intros Hc. now rewrite (keepLower_constant key 0 rest p0 Hc). }
  destruct e as [anchor |]; [| now apply Hconst].
  destruct (JS.truthy anchor) eqn:T.
  - assert (Hkey : forall p, key p = pairError anchor p).
    { intros p. unfold key, tertiaryError. now rewrite T. }
    assert (Hnan : Forall (fun p => JS.is_nan (pairError anchor p) = false) (p0 :: rest)).
    { eapply List.Forall_impl; [| exact Hk]. intros p Kp. cbv beta in Kp.
      destruct (kept_speed_finite p Kp) as (q & Hq & _).
      unfold pairError, pairMph. rewrite Hq. simpl.
      apply abs_sub_not_nan. destruct anchor; simpl in *; congruence. }
    rewrite (fold_left_ext (keepLower key) (keepLower (pairError anchor))).
    + now apply reduce_keepLower_firstMin.
    + intros b p. unfold keepLower. now rewrite !Hkey.
  - apply Hconst. intros p. unfold key, tertiaryError. now rewrite T.
Qed.

(** C5 as stated fails without an anchor: with approach 1000 Hz and
    recede 900 Hz and 950 Hz the strategy returns the first kept pair,
    (1000, 900) at about 40.4 mph, although (1000, 950) is kept too and
    is slower, about 19.7 mph. *)
Lemma tryTertiaryStrategy_not_lowest :
  let A := [ {| frequency := Fin 1000; power := Fin 1 |} ] in
  let R := [ {| frequency := Fin 900; power := Fin 1 |};
             {| frequency := Fin 950; power := Fin 1 |} ] in
  exists s,
    tryTertiaryStrategy A R None = Some s /\
    approachFreq (result s) = Fin 1000 /\ recedeFreq (result s) = Fin 900 /\
    In (Fin 1000, Fin 950) (List.filter kept (tertiaryPairs A R)) /\
    (Fin 0 <? pairMph (Fin 1000, Fin 950)) = true /\
    (pairMph (Fin 1000, Fin 950) <? speedMph (result s)) = true.
Proof.
  eexists. split; [vm_compute; reflexivity |].
  vm_compute. repeat split. right. left. reflexivity.
Qed.


(** *** Valid strategy results carry a speed that is a number *)




Lemma fold_keepLower_in {A : Type} (key : A -> num) rest : forall b,
  In (fold_left (keepLower key) rest b) (b :: rest).
Proof.
  induction rest as [| p rest IH]; intros b; [now left |].
  cbn [fold_left]. destruct (IH (keepLower key b p)) as [H | H].
  - rewrite <- H. unfold keepLower. destruct (_ <? _); [right; now left | now left].
  - right. now right.
Qed.






(** *** The final selection *)




(** The multi-tier example of the specification: Primary at 120 mph,
    Secondary at 45 mph and Tertiary at 200 mph select Secondary. *)
Lemma selectBest_example :
  let at_mph tier mph :=
    {| strategy := tier;
       result := {| speedKmh := Fin mph / Fin 0.621371; speedMph := Fin mph;
                    approachFreq := Fin 1000; recedeFreq := Fin 900;
                    error := Fin 0; accuracy := Fin 100 |} |} in
  selectBest [at_mph Primary 120%Q; at_mph Secondary 45%Q; at_mph Tertiary 200%Q]
  = Found (at_mph Secondary 45%Q).
Proof. reflexivity. Qed.

(** Equal speeds: the earlier tier wins. *)
Lemma selectBest_tie :
  let at_mph tier mph :=
    {| strategy := tier;
       result := {| speedKmh := Fin mph / Fin 0.621371; speedMph := Fin mph;
                    approachFreq := Fin 1000; recedeFreq := Fin 900;
                    error := Fin 0; accuracy := Fin 100 |} |} in
  selectBest [at_mph Primary 45%Q; at_mph Secondary 45%Q; at_mph Tertiary 200%Q]
  = Found (at_mph Primary 45%Q).
Proof. reflexivity. Qed.

End StrategyFacts.

(** ** Array.prototype.sort with a descending comparator *)

Module SortFacts.

Section Sorting.
Context {A : Type} (key : A -> num) (before : A -> A -> Prop).

(** On numbers the comparator is positive exactly when the first key
    is the lower one. *)
Lemma descending_positive x y :
  JS.is_nan (key x) = false -> JS.is_nan (key y) = false ->
  (Arr.descending key x y >? Fin 0) = (key x <? key y).
Proof using Type.
  unfold Arr.descending, JS.gt.
  destruct (key x) as [a | | |], (key y) as [b | | |]; simpl; try congruence.
  intros _ _. destruct (JS.Qltb a b) eqn:E; qbool; lra.
Qed.

Lemma insert_Permutation (c : A -> A -> num) x l : Permutation (Arr.insert c x l) (x :: l).
Proof using Type.
  induction l as [| y l IH]; cbn [Arr.insert]; [reflexivity |].
  destruct (c x y >? Fin 0); [| reflexivity].
  rewrite IH. apply perm_swap.
Qed.

Lemma sort_Permutation (c : A -> A -> num) l : Permutation (Arr.sort c l) l.
Proof using Type.
  induction l as [| x l IH]; cbn [Arr.sort]; [reflexivity |].
  now rewrite insert_Permutation, IH.
Qed.

Lemma sort_In (c : A -> A -> num) l x : In x (Arr.sort c l) <-> In x l.
Proof using Type.
  split; apply Permutation_in; [| symmetry]; apply sort_Permutation.
Qed.

Lemma sort_length (c : A -> A -> num) l : length (Arr.sort c l) = length l.
Proof using Type. apply Permutation_length, sort_Permutation. Qed.

Lemma descendingThen_key x y :
  JS.is_nan (key x) = false -> JS.is_nan (key y) = false ->
  Arr.descendingThen key before x y -> (key y <=? key x) = true.
Proof using Type.
  unfold Arr.descendingThen.
  destruct (key x) as [a | | |], (key y) as [b | | |]; simpl; try congruence;
    intros _ _ [H | [H _]]; try discriminate; qbool; lra.
Qed.

(** [x] is not below [y], [y] goes before [z], and [x] was before [z]:
    [x] goes before [z]. *)
Lemma descendingThen_below x y z :
  JS.is_nan (key x) = false -> JS.is_nan (key y) = false -> JS.is_nan (key z) = false ->
  (key x <? key y) = false -> Arr.descendingThen key before y z -> before x z ->
  Arr.descendingThen key before x z.
Proof using Type.
  unfold Arr.descendingThen.
  destruct (key x) as [a | | |], (key y) as [b | | |], (key z) as [c | | |];
    simpl; try congruence; intros _ _ _ Hxy [Hyz | [Hyz _]] Hb;
    try discriminate; auto.
  - left. qbool. lra.
  - destruct (Qlt_le_dec c a); [left; qbool; lra | right; split; [qbool; lra | exact Hb]].
Qed.

Lemma descendingThen_not_below x y :
  JS.is_nan (key x) = false -> JS.is_nan (key y) = false ->
  (key x <? key y) = false -> before x y -> Arr.descendingThen key before x y.
Proof using Type.
  unfold Arr.descendingThen.
  destruct (key x) as [a | | |], (key y) as [b | | |]; simpl; try congruence; auto.
  intros _ _ H Hb.
  destruct (Qlt_le_dec b a); [left; qbool; lra | right; split; [qbool; lra | exact Hb]].
Qed.

Lemma insert_sorted x l :
  JS.is_nan (key x) = false -> Forall (fun y => JS.is_nan (key y) = false) l ->
  Forall (before x) l ->
  StronglySorted (Arr.descendingThen key before) l ->
  StronglySorted (Arr.descendingThen key before) (Arr.insert (Arr.descending key) x l).
Proof using Type.
  intros Hx Hok Hb Hs. induction Hs as [| y l Hs IH Hy]; cbn [Arr.insert].
  - repeat constructor.
  - apply List.Forall_cons_iff in Hok as [Hoky Hok].
    apply List.Forall_cons_iff in Hb as [Hby Hb].
    rewrite (descending_positive x y Hx Hoky).
    destruct (key x <? key y) eqn:E.
    + constructor; [now apply IH |].
      rewrite insert_Permutation.
      constructor; [now left | exact Hy].
    + constructor; [now constructor |].
      constructor; [now apply descendingThen_not_below |].
      rewrite List.Forall_forall in Hy, Hok, Hb |- *. intros z Hz.
      apply (descendingThen_below x y z); auto.
Qed.

(** The sort keeps the elements, puts the keys in descending order and
    leaves elements of equal key in the order they had. *)
Lemma sort_sorted l :
  Forall (fun y => JS.is_nan (key y) = false) l -> StronglySorted before l ->
  StronglySorted (Arr.descendingThen key before) (Arr.sort (Arr.descending key) l).
Proof using Type.
  intros Hok Hs. induction Hs as [| x l Hs IH Hx]; cbn [Arr.sort]; [constructor |].
  apply List.Forall_cons_iff in Hok as [Hokx Hok].
  apply insert_sorted; auto.
  - now rewrite sort_Permutation.
  - now rewrite sort_Permutation.
Qed.
End Sorting.

Lemma StronglySorted_orderedBy {A : Type} (R : A -> A -> Prop) l :
  StronglySorted R l -> Arr.orderedBy R l.
Proof.
  intros Hs. induction Hs as [| x l Hs IH Hx]; intros i j a b Hij Ha Hb.
  - destruct i; discriminate.
  - destruct j as [| j]; [lia |]. cbn in Hb.
    destruct i as [| i]; cbn in Ha.
    + injection Ha as <-. rewrite List.Forall_forall in Hx. apply Hx.
      apply list_elem_of_In. eapply list_elem_of_lookup_2. exact Hb.
    + apply (IH i j); [lia | assumption | assumption].
Qed.

Lemma StronglySorted_trivial {A : Type} (l : list A) : StronglySorted (fun _ _ => True) l.
Proof.
  induction l; constructor; [assumption |]. apply List.Forall_forall. auto.
Qed.

(** A descending sort of numbers is in descending order. *)
Lemma sort_sortedDesc {A : Type} (key : A -> num) l :
  Forall (fun x => JS.is_nan (key x) = false) l ->
  Arr.sortedDesc key (Arr.sort (Arr.descending key) l).
Proof.
  intros Hok. unfold Arr.sortedDesc.
  pose proof (sort_sorted key (fun _ _ => True) l Hok (StronglySorted_trivial l)) as Hs.
  apply StronglySorted_orderedBy in Hs.
  intros i j x y Hij Hx Hy.
  apply (descendingThen_key key (fun _ _ => True)).
  - rewrite List.Forall_forall in Hok. apply Hok, (sort_In (Arr.descending key)).
    apply list_elem_of_In. eapply list_elem_of_lookup_2. exact Hx.
  - rewrite List.Forall_forall in Hok. apply Hok, (sort_In (Arr.descending key)).
    apply list_elem_of_In. eapply list_elem_of_lookup_2. exact Hy.
  - now apply (Hs i j).
Qed.

End SortFacts.

(** ** SpectrumAnalyzer *)

Module SpectrumFacts.
Import Spectrum.

Lemma relativeIndex_of_nat len k : Arr.relativeIndex len (JS.of_nat k) = Nat.min k len.
Proof.
  unfold Arr.relativeIndex, JS.of_nat, JS.of_Z, Arr.truncate.
  replace (JS.Qltb (inject_Z (Z.of_nat k)) 0) with false.
  - rewrite Qfloor_Z. replace (Z.of_nat k <? 0)%Z with false by (symmetry; apply Z.ltb_ge; lia).
    now rewrite Nat2Z.id.
  - symmetry. apply Qltb_false_iff. change 0%Q with (inject_Z 0).
    rewrite <- Zle_Qle. lia.
Qed.

Lemma slice_from_zero {A : Type} (l : list A) k :
  Arr.slice l (Fin 0) (Some (JS.of_nat k)) = take k l.
Proof.
  unfold Arr.slice. rewrite relativeIndex_of_nat.
  change (Fin 0) with (JS.of_nat 0). rewrite relativeIndex_of_nat.
  cbn [Nat.min drop]. rewrite Nat.sub_0_r.
  destruct (Nat.le_ge_cases k (length l)) as [H | H].
  - now rewrite Nat.min_l.
  - rewrite Nat.min_r by exact H.
    rewrite (take_ge l k) by exact H. now apply take_ge.
Qed.





(** With a positive sample rate the bins are in ascending order of
    frequency. *)
Lemma bin_frequency (r : Q) (L i : nat) :
  (0 < L)%nat ->
  (JS.of_nat i * Fin r) / JS.of_nat L = Fin (inject_Z (Z.of_nat i) * r / inject_Z (Z.of_nat L)).
Proof.
  intros HL. unfold JS.of_nat, JS.of_Z. simpl.
  replace (Qeq_bool (inject_Z (Z.of_nat L)) 0) with false; [reflexivity |].
  symmetry. apply Qeq_bool_false_iff. change 0%Q with (inject_Z 0).
  rewrite inject_Z_injective. lia.
Qed.






End SpectrumFacts.

(** ** Numeric equality is a congruence for the operations *)

Lemma same_add a a' b b' : a ≃ a' -> b ≃ b' -> a + b ≃ a' + b'.
Proof.
  destruct a, a', b, b'; simpl; try contradiction; auto.
  intros H1 H2. now rewrite H1, H2.
Qed.

Lemma same_lt a a' b b' : a ≃ a' -> b ≃ b' -> (a <? b) = (a' <? b').
Proof.
  destruct a, a', b, b'; simpl; try contradiction; auto.
  intros H1 H2. unfold JS.Qltb. now rewrite H1, H2.
Qed.

Lemma same_min a a' b b' : a ≃ a' -> b ≃ b' -> JS.min a b ≃ JS.min a' b'.
Proof.
  intros H1 H2. pose proof (same_lt b b' a a' H2 H1) as E.
  destruct a, a', b, b'; simpl in *; try contradiction; auto;
    rewrite <- ?E; destruct (JS.Qltb _ _); simpl; auto.
Qed.

Lemma same_max a a' b b' : a ≃ a' -> b ≃ b' -> JS.max a b ≃ JS.max a' b'.
Proof.
  intros H1 H2. pose proof (same_lt a a' b b' H1 H2) as E.
  destruct a, a', b, b'; simpl in *; try contradiction; auto;
    rewrite <- ?E; destruct (JS.Qltb _ _); simpl; auto.
Qed.



(** ** FrequencyAnalysis *)

Module AnalysisFacts.
Import Analysis.








(** The default threshold. *)
Lemma confidenceThreshold_default sampleRate topFrequencyCount :
  confidenceThreshold (new sampleRate topFrequencyCount None) = Fin 0.3.
Proof. reflexivity. Qed.



End AnalysisFacts.

(** ** ApproachDetector *)

Module ApproachFacts.
Import Approach.

Lemma energyAt_finite energyProfile j :
  finiteEnergies energyProfile ->
  JS.is_nan (energyAt energyProfile j) = false -> JS.is_fin (energyAt energyProfile j).
Proof.
  intros Hfin. unfold energyAt. destruct (energyProfile !! j) as [p |] eqn:E; [| discriminate].
  intros _. unfold finiteEnergies in Hfin. rewrite List.Forall_forall in Hfin.
  apply Hfin, list_elem_of_In. eapply list_elem_of_lookup_2. exact E.
Qed.

(** The least surrounding energy is one of the finite energies. *)
Lemma minSurroundingOf_finite energyProfile i current :
  finiteEnergies energyProfile -> JS.is_fin current ->
  JS.is_fin (minSurroundingOf energyProfile i current).
Proof.
  intros Hfin. unfold minSurroundingOf. cbv zeta.
  generalize (seq (i - Nat.min 20 (length energyProfile / 10))
                (S (Nat.min (length energyProfile - 1)
                      (i + Nat.min 20 (length energyProfile / 10)))
                 - (i - Nat.min 20 (length energyProfile / 10)))).
  intros js. revert current. induction js as [| j js IH]; intros current Hc; [exact Hc |].
  cbn [fold_left]. apply IH.
  destruct (negb (j =? i)%nat && (energyAt energyProfile j <? current)) eqn:E; [| exact Hc].
  apply andb_true_iff in E as [_ E]. apply lt_not_nan_l in E.
  now apply energyAt_finite.
Qed.

Lemma fin_sub a b : JS.is_fin a -> JS.is_fin b -> JS.is_nan (a - b) = false.
Proof. destruct a, b; simpl; tauto. Qed.

(** What [peakAt] pushes: the confidence is
    min(1, prominence / (maxEnergy * 0.5)), and on finite energies the
    prominence is a number. *)
Lemma peakAt_peak energyProfile maxEnergy minProminence i p :
  In p (peakAt energyProfile maxEnergy minProminence i) ->
  confidence p = JS.min (Fin 1) (prominence p / (maxEnergy * Fin 0.5)) /\
  (finiteEnergies energyProfile -> JS.is_nan (prominence p) = false).
Proof.
  unfold peakAt. destruct (energyProfile !! i) as [current |] eqn:E; [| intros []].
  destruct (_ && _); [| intros []]. cbv zeta. destruct (_ >=? _); [| intros []].
  intros [<- | []]. cbn [confidence prominence]. split; [reflexivity |].
  intros Hfin. apply fin_sub.
  - unfold finiteEnergies in Hfin. rewrite List.Forall_forall in Hfin.
    apply Hfin, list_elem_of_In. eapply list_elem_of_lookup_2. exact E.
  - apply minSurroundingOf_finite; [exact Hfin |].
    unfold finiteEnergies in Hfin. rewrite List.Forall_forall in Hfin.
    apply Hfin, list_elem_of_In. eapply list_elem_of_lookup_2. exact E.
Qed.

(** The peaks of [findEnergyPeaks]: the stated confidence, and
    descending prominence. *)
Lemma findEnergyPeaks_peaks energyProfile prominence0 :
  let peaks := findEnergyPeaks energyProfile prominence0 in
  let maxEnergy := Arr.maximum (map energy energyProfile) in
  (forall p, In p peaks ->
     confidence p = JS.min (Fin 1) (prominence p / (maxEnergy * Fin 0.5))) /\
  (finiteEnergies energyProfile -> Arr.sortedDesc prominence peaks).
Proof.
  cbv zeta. unfold findEnergyPeaks.
  destruct (length energyProfile <? 3)%nat.
  { split; [intros p [] |]. intros _ i j x y _ Hx. destruct i; discriminate Hx. }
  cbv zeta. split.
  - intros p Hp. apply SortFacts.sort_In in Hp. apply in_flat_map in Hp as (i & _ & Hp).
    now apply peakAt_peak in Hp.
  - intros Hfin. apply SortFacts.sort_sortedDesc. apply List.Forall_forall. intros p Hp.
    apply in_flat_map in Hp as (i & _ & Hp). apply peakAt_peak in Hp as [_ Hp]. auto.
Qed.

(** [find] returns the first element that passes the test. *)
Lemma find_first {A : Type} (f : A -> bool) l x :
  List.find f l = Some x ->
  exists i, l !! i = Some x /\ f x = true /\
            forall j y, (j < i)%nat -> l !! j = Some y -> f y = false.
Proof.
  induction l as [| a l IH]; [discriminate |]. cbn [List.find].
  destruct (f a) eqn:E.
  - intros [= <-]. exists 0%nat. repeat split; [exact E |]. intros j y Hj. lia.
  - intros H. destruct (IH H) as (i & Hi & Hx & Hbefore).
    exists (S i). repeat split; [exact Hi | exact Hx |].
    intros [| j] y Hj Hy; [cbn in Hy; congruence |]. apply (Hbefore j); [lia | exact Hy].
Qed.

(** C7: on the peaks of [findEnergyPeaks] (which are in descending
    order of prominence, each with confidence
    min(1, prominence / (maxEnergy * 0.5))) the detector returns the
    first peak whose confidence is at least [minimumConfidence]; if no
    peak reaches it, the first (most prominent) peak, found, with a
    low-confidence reason and a warning; and with no peak at all, not
    found, with the index at the midpoint of the energy profile. *)
Theorem selectClosestApproachPeak_selection energyProfile prominence0 windowSamples
    minimumConfidence :
  finiteEnergies energyProfile ->
  let peaks := findEnergyPeaks energyProfile prominence0 in
  let maxEnergy := Arr.maximum (map energy energyProfile) in
  let d := selectClosestApproachPeak peaks energyProfile windowSamples minimumConfidence in
  Arr.sortedDesc prominence peaks /\
  (forall p, In p peaks ->
     confidence p = JS.min (Fin 1) (prominence p / (maxEnergy * Fin 0.5))) /\
  match peaks with
  | [] =>
      found d = false /\
      closestApproachIndex d = Z.of_nat (length energyProfile / 2) /\
      reason d = NoEnergyPeaks
  | first :: _ =>
      found d = true /\
      ((exists i p,
          peaks !! i = Some p /\
          (confidence p >=? minimumConfidence) = true /\
          (forall j q, (j < i)%nat -> peaks !! j = Some q ->
                       (confidence q >=? minimumConfidence) = false) /\
          (forall j q, (i < j)%nat -> peaks !! j = Some q ->
                       (prominence q <=? prominence p) = true) /\
          selected d = Some p /\ closestApproachIndex d = peakIndex p /\
          detectionConfidence d = confidence p /\
          reason d = HighConfidencePeak (confidence p) /\ warning d = None)
       \/
       ((forall q, In q peaks -> (confidence q >=? minimumConfidence) = false) /\
        (forall j q, (0 < j)%nat -> peaks !! j = Some q ->
                     (prominence q <=? prominence first) = true) /\
        selected d = Some first /\ closestApproachIndex d = peakIndex first /\
        detectionConfidence d = confidence first /\
        reason d = LowConfidencePeak (confidence first) /\ warning d <> None))
  end.
Proof.
  intros Hfin. cbv zeta.
  destruct (findEnergyPeaks_peaks energyProfile prominence0) as [Hconf Hsorted].
  specialize (Hsorted Hfin).
  split; [exact Hsorted |]. split; [exact Hconf |].
  destruct (findEnergyPeaks energyProfile prominence0) as [| first rest] eqn:P.
  - repeat split.
  - unfold selectClosestApproachPeak, firstConfident.
    destruct (List.find _ (first :: rest)) as [p |] eqn:F.
    + split; [reflexivity |]. left.
      destruct (find_first _ _ _ F) as (i & Hi & Hp & Hbefore).
      exists i, p. cbn [selected closestApproachIndex detectionConfidence reason warning].
      repeat split; try assumption.
      intros j q Hj Hq. now apply (Hsorted i j p q).
    + split; [reflexivity |]. right.
      cbn [selected closestApproachIndex detectionConfidence reason warning].
      repeat split; try discriminate.
      * intros q Hq. now apply (find_none _ _ F).
      * intros j q Hj Hq. now apply (Hsorted 0%nat j first q).
Qed.

Lemma selectClosestApproachPeak_selection_witness :
  let flat := {| index := 0; energy := Fin 0.1; time := Fin 0 |} in
  let loud := {| index := 5; energy := Fin 0.9; time := Fin 0.5 |} in
  let energyProfile := [flat; flat; flat; flat; flat; loud; flat; flat; flat; flat] in
  let peaks := findEnergyPeaks energyProfile (Fin 0.1) in
  finiteEnergies energyProfile /\
  Arr.sortedDesc prominence peaks /\
  (forall p, In p peaks ->
     confidence p
     = JS.min (Fin 1) (prominence p / (Arr.maximum (map energy energyProfile) * Fin 0.5))).
Proof.
  intros flat loud energyProfile peaks.
  assert (Hfin : finiteEnergies energyProfile) by (repeat constructor).
  split; [exact Hfin |].
  destruct (selectClosestApproachPeak_selection energyProfile (Fin 0.1) (Fin 4800) (Fin 0.3) Hfin)
    as (H1 & H2 & _).
  exact (conj H1 H2).
Defined.

(** The detection on that profile: the peak at index 5, confidence 1. *)
Lemma selectClosestApproachPeak_example :
  let flat := {| index := 0; energy := Fin 0.1; time := Fin 0 |} in
  let loud := {| index := 5; energy := Fin 0.9; time := Fin 0.5 |} in
  let energyProfile := [flat; flat; flat; flat; flat; loud; flat; flat; flat; flat] in
  let d := selectClosestApproachPeak (findEnergyPeaks energyProfile (Fin 0.1))
             energyProfile (Fin 4800) (Fin 0.3) in
  found d = true /\ closestApproachIndex d = 5%Z /\ detectionConfidence d = Fin 1 /\
  warning d = None.
Proof. vm_compute. repeat split. Qed.

End ApproachFacts.

(** ** AudioSlicer *)

Module SlicerFacts.
Import Slicer.

(** The verdict depends on the two length checks and on nothing else. *)
Lemma validateSections_isValid sections minSamples :
  isValid (validateSections sections minSamples)
  = negb (tooShort (approaching sections) minSamples)
    && negb (tooShort (receding sections) minSamples).
Proof.
  unfold validateSections. cbv zeta. cbn [isValid].
  destruct (tooShort (approaching sections) minSamples),
           (tooShort (receding sections) minSamples); reflexivity.
Qed.

Lemma tooShort_false section minSamples :
  tooShort section minSamples = false <->
  exists l, section = Some l /\ (minSamples <= length l)%nat.
Proof.
  unfold tooShort. destruct section as [l |].
  - rewrite Nat.ltb_ge. split; [eauto | intros (l' & [= <-] & H); exact H].
  - split; [discriminate | intros (l' & H & _); discriminate].
Qed.

(** Every strategy of [extractBestSections] is validated against its
    own minimum. *)
Lemma candidates_validation samples sampleRate closestApproachIndex c :
  In c (candidates samples sampleRate closestApproachIndex) ->
  validation c = validateSections (sections c) (minimumOf (name c)) /\
  In (name c) ["closest_approach"; "short_file_quarters"; "simple_quarters"]%string.
Proof.
  unfold candidates. cbv zeta. intros H.
  apply in_app_or in H as [H | H]; [| apply in_app_or in H as [H | H]].
  - destruct closestApproachIndex as [i |]; [| destruct H].
    destruct (_ && _); [| destruct H]. destruct H as [<- | []].
    split; [reflexivity | now left].
  - destruct (_ <? Fin 5); [| destruct H]. destruct H as [<- | []].
    split; [reflexivity | right; now left].
  - destruct H as [<- | []]. split; [reflexivity | right; right; now left].
Qed.




(** An imbalance beyond 5:1 adds a warning and leaves the sections
    valid. *)
Lemma validateSections_imbalance :
  let sections :=
    {| approaching := Some (repeat (Fin 0) 12);
       receding := Some (repeat (Fin 0) 2);
       approachDuration := Fin 12; recedeDuration := Fin 2;
       strategy := Some "time_based"%string |} in
  isValid (validateSections sections 2) = true /\
  warnings (validateSections sections 2) = [Imbalance (Fin 12 / Fin 2)].
Proof. split; reflexivity. Qed.


End SlicerFacts.

(** ** AudioAnalyzer.extractSections *)

Module AnalyzerFacts.
Import Analyzer.

(** C9: with the default strategy on a file that is not short, the
    result is the closest-approach sectioning tagged 'peak_rms_energy',
    whatever its validation says: the guard tests an object, which is
    truthy, so the quarters fallback is never taken. *)
Theorem extractSections_no_fallback K samples sampleRate :
  let duration := JS.of_nat (length samples) / sampleRate in
  Approach.isShortFile duration = false ->
  (forall v : Slicer.Validation, ToBoolean (valueOfValidation v) = true) /\
  extractSections K samples sampleRate "peak_rms_energy" =
    {| sections :=
         Slicer.extractSections samples sampleRate
           (JS.of_nat (Approach.detectClosestApproach K samples 2048)) duration;
       sectioningMethod := "peak_rms_energy" |}.
Proof.
  cbv zeta. intros Hlong. split; [reflexivity |].
  unfold extractSections. cbv zeta. rewrite Hlong. reflexivity.
Qed.

Lemma extractSections_no_fallback_witness :
  let K := {| sqrt := fun x => x;
              applyWindowByType := fun l _ => l;
              getCoherentGain := fun _ _ => Fin 1;
              fft := fun l => flat_map (fun x => [x; Fin 0]) l |} in
  let samples := repeat (Fin 0) 2000 in
  Approach.isShortFile (JS.of_nat (length samples) / Fin 1000) = false /\
  sectioningMethod (extractSections K samples (Fin 1000) "peak_rms_energy")
  = "peak_rms_energy"%string.
Proof.
  intros K samples.
  assert (H : Approach.isShortFile (JS.of_nat (length samples) / Fin 1000) = false)
    by (vm_compute; reflexivity).
  split; [exact H |].
  destruct (extractSections_no_fallback K samples (Fin 1000) H) as [_ E].
  rewrite E. reflexivity.
Defined.

(** On that input the sections fail the validation (2000 and 48
    samples against the minimum of 2048) and are returned all the same. *)
Lemma extractSections_returns_invalid :
  let K := {| sqrt := fun x => x;
              applyWindowByType := fun l _ => l;
              getCoherentGain := fun _ _ => Fin 1;
              fft := fun l => flat_map (fun x => [x; Fin 0]) l |} in
  let r := extractSections K (repeat (Fin 0) 2000) (Fin 1000) "peak_rms_energy" in
  sectioningMethod r = "peak_rms_energy"%string /\
  Slicer.isValid (Slicer.validateSections (sections r) 2048) = false /\
  Slicer.lengthOrZero (Slicer.approaching (sections r)) = 2000%nat /\
  Slicer.lengthOrZero (Slicer.receding (sections r)) = 48%nat.
Proof. vm_compute. repeat split. Qed.

End AnalyzerFacts.

(** ** The caller's array is never written *)

Module StoreFacts.
Import Store.

Section Frame.
Context (S : gset positive).

Lemma mo_ret {A : Type} (a : A) : modifiesOnly S (ret a).
Proof using Type. intros h r c _ H. exact H. Qed.

Lemma mo_throw {A : Type} msg : modifiesOnly S (@throw A msg).
Proof using Type. intros h r c _ H. exact H. Qed.

Lemma mo_read r0 : modifiesOnly S (read r0).
Proof using Type.
  intros h r c _ H. unfold read. destruct (h !! r0); exact H.
Qed.

Lemma mo_bind {A B : Type} (m : M A) (f : A -> M B) :
  modifiesOnly S m -> (forall a, modifiesOnly S (f a)) -> modifiesOnly S (bind m f).
Proof using Type.
  intros Hm Hf h r c Hr H. unfold bind.
  specialize (Hm h r c Hr H). destruct (m h) as [[a | msg] h']; cbn in Hm.
  - now apply Hf.
  - exact Hm.
Qed.

Lemma mo_catch {A : Type} (m : M A) (handler : string -> M A) :
  modifiesOnly S m -> (forall msg, modifiesOnly S (handler msg)) ->
  modifiesOnly S (catch m handler).
Proof using Type.
  intros Hm Hf h r c Hr H. unfold catch.
  specialize (Hm h r c Hr H). destruct (m h) as [[a | msg] h']; cbn in Hm.
  - exact Hm.
  - now apply Hf.
Qed.

(** A new array is none of the arrays that exist. *)
Lemma mo_alloc contents : modifiesOnly S (alloc contents).
Proof using Type.
  intros h r c _ H. unfold alloc. cbn. rewrite lookup_insert_ne; [exact H |].
  intros E. pose proof (is_fresh (dom h)) as F. rewrite E in F.
  apply F, elem_of_dom. eauto.
Qed.

(** What follows an allocation may write the new array. *)
Lemma mo_alloc_bind {B : Type} contents (k : positive -> M B) :
  (forall r', modifiesOnly (S ∪ {[r']}) (k r')) -> modifiesOnly S (bind (alloc contents) k).
Proof using Type.
  intros Hk h r c Hr H. unfold bind, alloc.
  assert (Hne : fresh (dom h) <> r).
  { intros E. pose proof (is_fresh (dom h)) as F. rewrite E in F.
    apply F, elem_of_dom. eauto. }
  apply Hk; [| now rewrite lookup_insert_ne].
  rewrite elem_of_union, elem_of_singleton. intros [Hin | E]; [contradiction | congruence].
Qed.

Lemma mo_write r0 i v : r0 ∈ S -> modifiesOnly S (write r0 i v).
Proof using Type.
  intros Hin h r c Hr H. unfold write. destruct (h !! r0) eqn:E; [| exact H].
  cbn. rewrite lookup_insert_ne; [exact H |]. intros ->. contradiction.
Qed.

Lemma mo_forEach {A : Type} (l : list A) (body : A -> M unit) :
  (forall x, modifiesOnly S (body x)) -> modifiesOnly S (forEach l body).
Proof using Type.
  intros Hb. induction l as [| x l IH]; cbn [forEach]; [apply mo_ret |].
  apply mo_bind; [apply Hb | intros _; exact IH].
Qed.

(** A computation that leaves the store as it is. *)
Lemma mo_pure {A : Type} (m : M A) : (forall h, (m h).2 = h) -> modifiesOnly S m.
Proof using Type. intros Hm h r c _ H. now rewrite Hm. Qed.
End Frame.

(** Rule by rule, through the binds of an operation. *)
Ltac frame :=
  repeat first
    [ apply mo_ret
    | apply mo_throw
    | apply mo_read
    | apply mo_alloc
    | apply mo_write; rewrite ?elem_of_union, ?elem_of_singleton; tauto
    | apply mo_alloc_bind; intros ?
    | apply mo_bind; [| intros ?]
    | apply mo_catch; [| intros ?]
    | apply mo_forEach; intros ?
    | match goal with
      | |- modifiesOnly _ (if ?b then _ else _) => destruct b
      | |- modifiesOnly _ (match ?o with Some _ => _ | None => _ end) => destruct o
      end ].

Lemma mo_newSpectrumAnalyzer S samples sampleRate windowType :
  modifiesOnly S (newSpectrumAnalyzer samples sampleRate windowType).
Proof. unfold newSpectrumAnalyzer. frame. Qed.

Lemma mo_calculatePowerSpectrum S K this : modifiesOnly S (calculatePowerSpectrum K this).
Proof. unfold calculatePowerSpectrum. frame. Qed.

Lemma mo_findPeakFrequency S this : modifiesOnly S (findPeakFrequency this).
Proof.
  apply mo_pure. intros h. unfold findPeakFrequency.
  now destruct (Spectrum.findPeakFrequency _).
Qed.

Lemma mo_getStrongestFrequencies S this count :
  modifiesOnly S (getStrongestFrequencies this count).
Proof.
  apply mo_pure. intros h. unfold getStrongestFrequencies.
  now destruct (Spectrum.getStrongestFrequencies _ _).
Qed.

Lemma mo_sliced S s : modifiesOnly S (sliced s).
Proof. unfold sliced, allocOptional. frame. Qed.

Lemma mo_slice S samples start stop : modifiesOnly S (slice samples start stop).
Proof. unfold slice. frame. Qed.

Lemma mo_sliceAll S strategies : modifiesOnly S (sliceAll strategies).
Proof.
  induction strategies as [| c rest IH]; cbn [sliceAll]; [apply mo_ret |].
  apply mo_bind; [apply mo_sliced | intros s].
  apply mo_bind; [exact IH | intros others; apply mo_ret].
Qed.

Lemma mo_extractBestSections S samples sampleRate closestApproachIndex :
  modifiesOnly S (extractBestSections samples sampleRate closestApproachIndex).
Proof.
  unfold extractBestSections. apply mo_bind; [apply mo_read | intros contents].
  apply mo_bind; [apply mo_sliceAll | intros made].
  destruct (Slicer.extractBestSections _ _ _); [| apply mo_ret].
  destruct (List.find _ made) as [[? ?] |]; apply mo_ret.
Qed.

Lemma mo_analyzeSingleSection S K this samples :
  modifiesOnly S (analyzeSingleSection K this samples).
Proof.
  unfold analyzeSingleSection. apply mo_bind; [apply mo_read | intros contents].
  destruct (_ <? 1024)%nat; [apply mo_ret |].
  apply mo_catch; [| intros _; apply mo_ret].
  apply mo_bind; [apply mo_newSpectrumAnalyzer | intros analyzer].
  apply mo_bind; [apply mo_calculatePowerSpectrum | intros analyzer'].
  apply mo_bind; [apply mo_getStrongestFrequencies | intros strongest].
  apply mo_bind; [apply mo_findPeakFrequency | intros peak]. apply mo_ret.
Qed.

(** Every program over the core operations leaves every array that
    exists when it starts as it is. *)
Lemma Core_modifiesOnly {A : Type} (m : M A) : Core m -> modifiesOnly ∅ m.
Proof.
  induction 1.
  - apply mo_ret.
  - now apply mo_bind.
  - now apply mo_catch.
  - apply mo_read.
  - apply mo_newSpectrumAnalyzer.
  - apply mo_calculatePowerSpectrum.
  - apply mo_findPeakFrequency.
  - apply mo_getStrongestFrequencies.
  - apply mo_slice.
  - unfold extractSections. apply mo_bind; [apply mo_read | intros ?; apply mo_sliced].
  - unfold extractShortFileSections. apply mo_bind; [apply mo_read | intros ?; apply mo_sliced].
  - unfold analyzerExtractSections. apply mo_bind; [apply mo_read | intros ?].
    apply mo_bind; [apply mo_sliced | intros ?; apply mo_ret].
  - apply mo_extractBestSections.
  - unfold newFrequencyAnalysis. frame.
  - apply mo_analyzeSingleSection.
  - unfold analyzeDualSections.
    apply mo_bind; [apply mo_analyzeSingleSection | intros ?].
    apply mo_bind; [apply mo_analyzeSingleSection | intros ?]. apply mo_ret.
  - apply mo_ret.
Qed.


(** *** The store-level operations compute what the value-level ones do *)

Lemma bind_alloc {B : Type} contents (k : positive -> M B) (h : gmap positive (list num)) :
  bind (alloc contents) k h = k (fresh (dom h)) (<[fresh (dom h) := contents]> h).
Proof. reflexivity. Qed.

Lemma bind_read {B : Type} r contents (k : list num -> M B) (h : gmap positive (list num)) :
  h !! r = Some contents -> bind (read r) k h = k contents h.
Proof. intros H. unfold bind, read. now rewrite H. Qed.

Lemma bind_write {B : Type} r i v contents (k : unit -> M B) (h : gmap positive (list num)) :
  h !! r = Some contents ->
  bind (write r i v) k h = k tt (<[r := <[i := v]> contents]> h).
Proof. intros H. unfold bind, write. now rewrite H. Qed.

Lemma fresh_ne (h : gmap positive (list num)) r contents :
  h !! r = Some contents -> fresh (dom h) <> r.
Proof.
  intros H E. pose proof (is_fresh (dom h)) as F. rewrite E in F.
  apply F, elem_of_dom. eauto.
Qed.

(** The loop that fills the two arrays of the result. *)
Lemma forEach_fill power freqs src (f g : list num -> nat -> num) result m :
  power <> freqs -> src <> power -> src <> freqs ->
  forall k (h : gmap positive (list num)) pdone prest fdone frest,
    h !! src = Some result ->
    h !! power = Some (pdone ++ prest) -> length pdone = k -> length prest = m ->
    h !! freqs = Some (fdone ++ frest) -> length fdone = k -> length frest = m ->
    exists h' : gmap positive (list num),
      forEach (seq k m)
        (fun i => bind (read src) (fun result =>
                  bind (write power i (f result i)) (fun _ =>
                  write freqs i (g result i)))) h = (Returns tt, h') /\
      h' !! power = Some (pdone ++ map (f result) (seq k m)) /\
      h' !! freqs = Some (fdone ++ map (g result) (seq k m)) /\
      (forall r, r <> power -> r <> freqs -> h' !! r = h !! r).
Proof.
  intros Hpf Hsp Hsf. induction m as [| m IH]; intros k h pdone prest fdone frest Hs Hp Lp Lpr Hf Lf Lfr.
  - destruct prest; [| discriminate]. destruct frest; [| discriminate].
    exists h. cbn. rewrite !app_nil_r in *. auto.
  - destruct prest as [| p0 prest]; [discriminate |].
    destruct frest as [| f0 frest]; [discriminate |].
    set (body := fun i => bind (read src) (fun result =>
                  bind (write power i (f result i)) (fun _ =>
                  write freqs i (g result i)))).
    set (h1 := <[power := <[k := f result k]> (pdone ++ p0 :: prest)]> h).
    set (h2 := <[freqs := <[k := g result k]> (fdone ++ f0 :: frest)]> h1).
    assert (Hstep : body k h = (Returns tt, h2)).
    { unfold body. rewrite (bind_read _ _ _ _ Hs). rewrite (bind_write _ _ _ _ _ _ Hp).
      unfold write. fold h1.
      assert (Hf1 : h1 !! freqs = Some (fdone ++ f0 :: frest)).
      { unfold h1. now rewrite lookup_insert_ne by exact Hpf. }
      now rewrite Hf1. }
    cbn [seq forEach]. fold body. unfold bind at 1. rewrite Hstep.
    assert (E1 : <[k := f result k]> (pdone ++ p0 :: prest) = (pdone ++ [f result k]) ++ prest).
    { rewrite <- Lp. rewrite insert_app_r_alt by lia. rewrite Nat.sub_diag. cbn.
      now rewrite <- app_assoc. }
    assert (E2 : <[k := g result k]> (fdone ++ f0 :: frest) = (fdone ++ [g result k]) ++ frest).
    { rewrite <- Lf. rewrite insert_app_r_alt by lia. rewrite Nat.sub_diag. cbn.
      now rewrite <- app_assoc. }
    destruct (IH (S k) h2 (pdone ++ [f result k]) prest (fdone ++ [g result k]) frest)
      as (h' & Hrun & Hp' & Hf' & Hframe).
    + unfold h2, h1. rewrite !lookup_insert_ne by congruence. exact Hs.
    + unfold h2. rewrite lookup_insert_ne by congruence. unfold h1.
      rewrite lookup_insert_eq. now rewrite E1.
    + rewrite length_app. cbn. lia.
    + cbn in Lpr. lia.
    + unfold h2. rewrite lookup_insert_eq. now rewrite E2.
    + rewrite length_app. cbn. lia.
    + cbn in Lfr. lia.
    + exists h'. split; [exact Hrun |]. cbn [map].
      rewrite <- !app_assoc in Hp', Hf'. split; [exact Hp' |]. split; [exact Hf' |].
      intros r Hrp Hrf. rewrite (Hframe r Hrp Hrf). unfold h2, h1.
      now rewrite !lookup_insert_ne by congruence.
Qed.

(** The padded or truncated copy. *)
Lemma processed_block (h1 : gmap positive (list num)) r1 own L :
  h1 !! r1 = Some own ->
  let block : M positive :=
    if (length own <? L)%nat then
      bind (alloc (repeat (Fin 0) (L - length own))) (fun zeros =>
      bind (read r1) (fun a => bind (read zeros) (fun b => alloc (a ++ b))))
    else if (L <? length own)%nat then
      bind (read r1) (fun a => alloc (Arr.slice a (Fin 0) (Some (JS.of_nat L))))
    else ret r1 in
  let processed :=
    if (length own <? L)%nat then own ++ repeat (Fin 0) (L - length own)
    else if (L <? length own)%nat then Arr.slice own (Fin 0) (Some (JS.of_nat L))
    else own in
  exists r2 (h2 : gmap positive (list num)),
    block h1 = (Returns r2, h2) /\ h2 !! r2 = Some processed /\
    (forall r c, h1 !! r = Some c -> h2 !! r = Some c).
Proof.
  intros H1. cbv zeta. destruct (length own <? L)%nat; [| destruct (L <? length own)%nat].
  - rewrite bind_alloc.
    set (z := fresh (dom h1)). set (hz := <[z := repeat (Fin 0) (L - length own)]> h1).
    assert (Hz : z <> r1) by (eapply fresh_ne; exact H1).
    assert (Hr1 : hz !! r1 = Some own) by (unfold hz; now rewrite lookup_insert_ne).
    rewrite (bind_read _ _ _ _ Hr1).
    assert (Hzz : hz !! z = Some (repeat (Fin 0) (L - length own)))
      by (unfold hz; apply lookup_insert_eq).
    rewrite (bind_read _ _ _ _ Hzz).
    eexists _, _. split; [reflexivity |]. split; [apply lookup_insert_eq |].
    intros r c Hr. assert (Hr' : hz !! r = Some c).
    { unfold hz. rewrite lookup_insert_ne; [exact Hr |]. eapply fresh_ne; exact Hr. }
    rewrite lookup_insert_ne; [exact Hr' |]. eapply fresh_ne; exact Hr'.
  - rewrite (bind_read _ _ _ _ H1).
    eexists _, _. split; [reflexivity |]. split; [apply lookup_insert_eq |].
    intros r c Hr. rewrite lookup_insert_ne; [exact Hr |]. eapply fresh_ne; exact Hr.
  - exists r1, h1. auto.
Qed.

(** The store-level [calculatePowerSpectrum] computes what the
    value-level one does, in arrays of its own. *)
Lemma calculatePowerSpectrum_view K this (h : gmap positive (list num)) own :
  h !! samples this = Some own ->
  match Spectrum.calculatePowerSpectrum K (view this h) with
  | Returns v =>
      exists this' (h' : gmap positive (list num)),
        calculatePowerSpectrum K this h = (Returns this', h') /\ view this' h' = v
  | Throws msg =>
      exists h' : gmap positive (list num), calculatePowerSpectrum K this h = (Throws msg, h')
  end.
Proof.
  intros Hown.
  unfold Spectrum.calculatePowerSpectrum, calculatePowerSpectrum. cbv zeta.
  cbn [view Spectrum.samples Spectrum.windowType Spectrum.sampleRate]. rewrite Hown.
  cbn [default]. rewrite (bind_read _ _ _ _ Hown). rewrite bind_alloc.
  set (L := Spectrum.fftLengthOf (length own)).
  set (r1 := fresh (dom h)). set (h1 := <[r1 := own]> h).
  assert (H1 : h1 !! r1 = Some own) by apply lookup_insert_eq.
  assert (F1 : forall r c, h !! r = Some c -> h1 !! r = Some c).
  { intros r c Hr. unfold h1. rewrite lookup_insert_ne; [exact Hr |]. eapply fresh_ne; exact Hr. }
  destruct (processed_block h1 r1 own L H1) as (r2 & h2 & Hblock & H2 & F2).
  cbv zeta in Hblock, H2.
  change (id own) with own. fold L.
  set (processed := if (length own <? L)%nat then own ++ repeat (Fin 0) (L - length own)
                    else if (L <? length own)%nat
                         then Arr.slice own (Fin 0) (Some (JS.of_nat L)) else own) in *.
  set (W := applyWindowByType K processed (windowType this)).
  set (r3 := fresh (dom h2)). set (h3 := <[r3 := W]> h2).
  assert (H3 : h3 !! r3 = Some W) by apply lookup_insert_eq.
  assert (F3 : forall r c, h2 !! r = Some c -> h3 !! r = Some c).
  { intros r c Hr. unfold h3. rewrite lookup_insert_ne; [exact Hr |]. eapply fresh_ne; exact Hr. }
  set (F := fft K W).
  set (r4 := fresh (dom h3)). set (h4 := <[r4 := F]> h3).
  assert (H4 : h4 !! r4 = Some F) by apply lookup_insert_eq.
  assert (F4 : forall r c, h3 !! r = Some c -> h4 !! r = Some c).
  { intros r c Hr. unfold h4. rewrite lookup_insert_ne; [exact Hr |]. eapply fresh_ne; exact Hr. }
  destruct (L =? 1)%nat eqn:EL.
  { exists h4. unfold bind at 1. rewrite Hblock.
    rewrite (bind_read _ _ _ _ H2). rewrite bind_alloc. fold W r3 h3.
    rewrite (bind_read _ _ _ _ H3). rewrite bind_alloc. reflexivity. }
  set (r5 := fresh (dom h4)). set (h5 := <[r5 := repeat NaN (L / 2)]> h4).
  set (r6 := fresh (dom h5)). set (h6 := <[r6 := repeat NaN (L / 2)]> h5).
  assert (H5 : h5 !! r5 = Some (repeat NaN (L / 2))) by apply lookup_insert_eq.
  assert (F5 : forall r c, h4 !! r = Some c -> h5 !! r = Some c).
  { intros r c Hr. unfold h5. rewrite lookup_insert_ne; [exact Hr |]. eapply fresh_ne; exact Hr. }
  assert (H6 : h6 !! r6 = Some (repeat NaN (L / 2))) by apply lookup_insert_eq.
  assert (F6 : forall r c, h5 !! r = Some c -> h6 !! r = Some c).
  { intros r c Hr. unfold h6. rewrite lookup_insert_ne; [exact Hr |]. eapply fresh_ne; exact Hr. }
  assert (N56 : r5 <> r6) by (intros E; apply (fresh_ne h5 r5 _ H5); now rewrite E).
  assert (N45 : r4 <> r5) by (intros E; apply (fresh_ne h4 r4 _ H4); now rewrite E).
  assert (N46 : r4 <> r6) by (intros E; apply (fresh_ne h5 r4 _ (F5 _ _ H4)); now rewrite E).
  destruct (forEach_fill r5 r6 r4
              (fun result i =>
                 sqrt K (Arr.get result (i * 2) * Arr.get result (i * 2)
                         + Arr.get result (i * 2 + 1) * Arr.get result (i * 2 + 1))
                 * getCoherentGain K (windowType this) L / JS.of_nat L)
              (fun _ i => JS.of_nat i * sampleRate this / JS.of_nat L)
              F (L / 2) N56 N45 N46 0%nat h6 [] (repeat NaN (L / 2)) [] (repeat NaN (L / 2)))
    as (h7 & Hrun & Hp & Hf & Hframe).
  { apply F6, F5, H4. }
  { apply F6, H5. }
  { reflexivity. }
  { apply repeat_length. }
  { exact H6. }
  { reflexivity. }
  { apply repeat_length. }
  assert (Hs7 : h7 !! samples this = Some own).
  { assert (Hs6 : h6 !! samples this = Some own).
    { apply F6, F5, F4, F3, F2, F1, Hown. }
    rewrite Hframe; [exact Hs6 | |].
    - intros E. apply (fresh_ne h4 (samples this) own); [apply F4, F3, F2, F1, Hown | now rewrite E].
    - intros E. apply (fresh_ne h5 (samples this) own);
        [apply F5, F4, F3, F2, F1, Hown | now rewrite E]. }
  unfold Spectrum.bins.
  exists {| samples := samples this; sampleRate := sampleRate this;
            windowType := windowType this;
            powerSpectrum := Some r5; frequencies := Some r6 |}, h7.
  split.
  - unfold bind at 1. rewrite Hblock.
    rewrite (bind_read _ _ _ _ H2). rewrite bind_alloc. fold W r3 h3.
    rewrite (bind_read _ _ _ _ H3). rewrite bind_alloc. fold F r4 h4.
    rewrite !bind_alloc. fold r5 h5 r6 h6.
    unfold bind at 1. rewrite Hrun. reflexivity.
  - unfold view. cbn [samples sampleRate windowType powerSpectrum frequencies].
    rewrite Hs7. cbn. rewrite Hp, Hf. reflexivity.
Qed.

(** A new analyzer is the value-level one on the contents of the
    caller's array. *)
Lemma newSpectrumAnalyzer_view (h : gmap positive (list num)) samples contents sampleRate
    windowType :
  h !! samples = Some contents ->
  exists this (h' : gmap positive (list num)),
    newSpectrumAnalyzer samples sampleRate windowType h = (Returns this, h') /\
    view this h' = Spectrum.new contents sampleRate windowType.
Proof.
  intros H. unfold newSpectrumAnalyzer. rewrite (bind_read _ _ _ _ H), bind_alloc.
  eexists _, _. split; [reflexivity |].
  unfold view. cbn [Store.samples Store.sampleRate Store.windowType Store.powerSpectrum
                    Store.frequencies].
  rewrite lookup_insert_eq. reflexivity.
Qed.

(** The constructors copy: the array of the new object is another
    array with the same contents. *)
Lemma copy_on_construction (h : gmap positive (list num)) samples contents :
  h !! samples = Some contents ->
  let copy := fresh (dom h) in
  copy <> samples /\
  <[copy := contents]> h !! copy = Some contents /\
  <[copy := contents]> h !! samples = Some contents.
Proof.
  intros H. cbv zeta.
  assert (Hne : fresh (dom h) <> samples).
  { intros E. pose proof (is_fresh (dom h)) as F. rewrite E in F.
    apply F, elem_of_dom. eauto. }
  split; [exact Hne |]. split; [apply lookup_insert_eq |].
  now rewrite lookup_insert_ne.
Qed.

(** C10: SpectrumAnalyzer and FrequencyAnalysis keep a copy of the
    samples they are given, in an array of their own, and no program
    over the core operations (construction, power spectrum, strongest
    frequencies, slicing and sectioning, section analysis with its
    ranking, matching) changes an array that exists when it starts: the
    caller's samples hold the same elements in the same order
    afterwards. *)
Theorem samples_never_mutated :
  (forall (h : gmap positive (list num)) samples contents sampleRate windowType,
     h !! samples = Some contents ->
     exists this h',
       newSpectrumAnalyzer samples sampleRate windowType h = (Returns this, h') /\
       Store.samples this <> samples /\
       h' !! Store.samples this = Some contents /\
       h' !! samples = Some contents) /\
  (forall (h : gmap positive (list num)) samples contents sampleRate windowType
          topFrequencyCount confidenceThreshold,
     h !! samples = Some contents ->
     exists this h',
       newFrequencyAnalysis samples sampleRate windowType topFrequencyCount
         confidenceThreshold h = (Returns this, h') /\
       ownSamples this <> samples /\
       h' !! ownSamples this = Some contents /\
       h' !! samples = Some contents) /\
  (forall (A : Type) (m : M A),
     Core m ->
     forall (h : gmap positive (list num)) samples contents,
       h !! samples = Some contents -> (m h).2 !! samples = Some contents).
Proof.
  split; [| split].
  - intros h samples contents sampleRate windowType H.
    unfold newSpectrumAnalyzer, bind, read, alloc, ret. rewrite H.
    eexists _, _. split; [reflexivity |]. now apply copy_on_construction.
  - intros h samples contents sampleRate windowType t c H.
    unfold newFrequencyAnalysis, bind, read, alloc, ret. rewrite H.
    eexists _, _. split; [reflexivity |]. now apply copy_on_construction.
  - intros A m Hm h samples contents H.
    apply (Core_modifiesOnly m Hm h samples contents); [apply not_elem_of_empty | exact H].
Qed.

Lemma samples_never_mutated_witness :
  let K := {| sqrt := fun x => x;
              applyWindowByType := fun l _ => l;
              getCoherentGain := fun _ _ => Fin 1;
              fft := fun l => flat_map (fun x => [x; Fin 0]) l |} in
  let samples := 1%positive in
  let contents := [Fin 0.5; Fin (-0.25); Fin 0.125; Fin 0] in
  let h : gmap positive (list num) := {[ samples := contents ]} in
  let program :=
    bind (newSpectrumAnalyzer samples (Fin 8) None)
      (fun analyzer =>
         bind (calculatePowerSpectrum K analyzer)
           (fun analyzer => getStrongestFrequencies analyzer (Fin 2))) in
  h !! samples = Some contents /\ (program h).2 !! samples = Some contents.
Proof.
  intros K samples contents h program.
  assert (H : h !! samples = Some contents) by apply lookup_singleton_eq.
  split; [exact H |].
  apply (proj2 (proj2 samples_never_mutated) _ program); [| exact H].
  apply core_bind; [apply core_newSpectrumAnalyzer | intros analyzer].
  apply core_bind; [apply core_calculatePowerSpectrum | intros analyzer'].
  apply core_getStrongestFrequencies.
Defined.

End StoreFacts.

(** ** The speed limits, the frequency-shift test and the pair search *)

Lemma le_false_lt a b :
  JS.is_nan a = false -> JS.is_nan b = false -> (a <=? b) = false -> (b <? a) = true.
Proof.
  destruct a, b; simpl; try congruence. intros _ _ H. qbool. exact H.
Qed.

Module FrequencyMatcherFacts.
Import Matcher Strategies FrequencyMatcher.

(** X1: whatever the two frequencies are (NaN and the infinities
    included), a calculator whose two limits are numbers returns 0, NaN,
    or a speed v with minReasonableSpeed <= v < maxReasonableSpeed. *)
Theorem calculateSpeed_within_limits (this : Doppler.DopplerSpeedCalculator) (f1 f2 : num) :
  JS.is_nan (Doppler.minReasonableSpeed this) = false ->
  JS.is_nan (Doppler.maxReasonableSpeed this) = false ->
  Doppler.calculateSpeed this f1 f2 = Fin 0 \/
  JS.is_nan (Doppler.calculateSpeed this f1 f2) = true \/
  ((Doppler.minReasonableSpeed this <=? Doppler.calculateSpeed this f1 f2) = true /\
   (Doppler.calculateSpeed this f1 f2 <? Doppler.maxReasonableSpeed this) = true).
Proof.
  intros Hmin Hmax. unfold Doppler.calculateSpeed. cbv zeta.
  set (v := _ * Fin 3.6).
  destruct ((v >=? _) || (v <? _)) eqn:E; [now left | right].
  apply orb_false_iff in E as [E1 E2].
  destruct (JS.is_nan v) eqn:N; [now left | right]. split.
  - now apply lt_false_le.
  - now apply le_false_lt.
Qed.

Lemma calculateSpeed_within_limits_witness :
  Doppler.calculateSpeed Doppler.default (Fin 1100) (Fin 950) = Fin 0 \/
  JS.is_nan (Doppler.calculateSpeed Doppler.default (Fin 1100) (Fin 950)) = true \/
  ((Doppler.minReasonableSpeed Doppler.default
      <=? Doppler.calculateSpeed Doppler.default (Fin 1100) (Fin 950)) = true /\
   (Doppler.calculateSpeed Doppler.default (Fin 1100) (Fin 950)
      <? Doppler.maxReasonableSpeed Doppler.default) = true).
Proof.
  apply (calculateSpeed_within_limits Doppler.default (Fin 1100) (Fin 950)); reflexivity.
Defined.




(** *** The pair search of FrequencyMatcher *)

Section Search.
Variable speedCalculator : Doppler.DopplerSpeedCalculator.
Variable expectedSpeedMph : num.

(** The two loops run over [validResults]. *)
Lemma search_loops A R :
  fold_left
    (fun st a =>
       fold_left (fun st r => tryPair speedCalculator expectedSpeedMph a r st) R st)
    A noBest
  = fold_left keepBetter (validResults speedCalculator A R expectedSpeedMph) noBest.
Proof.
  unfold validResults. rewrite fold_left_flat_map.
  apply fold_left_ext. intros st a. rewrite fold_left_flat_map.
  apply fold_left_ext. intros st' r. unfold tryPair.
  destruct (calculateSpeedForFrequencyPair _ _ _ _); reflexivity.
Qed.

(** A result that cannot replace Infinity cannot replace anything. *)
Lemma keepBetter_skip st result : beatsInfinity result = false -> keepBetter st result = st.
Proof.
  unfold beatsInfinity, keepBetter. destruct (error result), (snd st); simpl; congruence.
Qed.

Lemma search_filter l : forall st,
  fold_left keepBetter l st = fold_left keepBetter (List.filter beatsInfinity l) st.
Proof.
  induction l as [| m l IH]; intros st; [reflexivity |].
  cbn [fold_left List.filter]. destruct (beatsInfinity m) eqn:E.
  - cbn [fold_left]. apply IH.
  - rewrite (keepBetter_skip st m E). apply IH.
Qed.

Lemma search_from rest : forall b,
  fold_left keepBetter rest (Some b, error b)
  = (Some (fold_left (keepLower error) rest b), error (fold_left (keepLower error) rest b)).
Proof.
  induction rest as [| m rest IH]; intros b; [reflexivity |].
  cbn [fold_left]. unfold keepBetter at 2, keepLower at 2 4. cbn [snd].
  destruct (error m <? error b); apply IH.
Qed.

(** The search in closed form. *)
Lemma search_result A R :
  findOptimalSpeedCalculation speedCalculator A R expectedSpeedMph =
    match List.filter beatsInfinity (validResults speedCalculator A R expectedSpeedMph) with
    | [] => None
    | m0 :: rest => Some (fold_left (keepLower error) rest m0)
    end.
Proof.
  unfold findOptimalSpeedCalculation. rewrite search_loops, search_filter.
  pose proof (filter_In beatsInfinity) as Hin.
  destruct (List.filter beatsInfinity _) as [| m0 rest] eqn:E; [reflexivity |].
  cbn [fold_left]. unfold keepBetter at 2. cbn [noBest snd].
  assert (H0 : beatsInfinity m0 = true).
  { apply (Hin m0 (validResults speedCalculator A R expectedSpeedMph)).
    rewrite E. now left. }
  unfold beatsInfinity in H0. rewrite H0. now rewrite search_from.
Qed.

End Search.

Lemma beatsInfinity_not_nan m : beatsInfinity m = true -> JS.is_nan (error m) = false.
Proof. apply lt_not_nan_l. Qed.

(** X3: [findOptimalSpeedCalculation] returns, among the pairs whose
    speed is valid and whose error is a number below Infinity, the one
    with the least error to the expected speed, and the first of them in
    the order of the two loops; it reports no valid pair exactly when
    there is no such pair. *)
Theorem findOptimalSpeedCalculation_least_error
    (speedCalculator : Doppler.DopplerSpeedCalculator)
    (A R : list FrequencyCandidate) (expectedSpeedMph : num) :
  let eligible :=
    List.filter beatsInfinity (validResults speedCalculator A R expectedSpeedMph) in
  match findOptimalSpeedCalculation speedCalculator A R expectedSpeedMph with
  | None => eligible = []
  | Some best => firstMin error eligible best
  end.
Proof.
  cbv zeta. rewrite search_result.
  pose proof (filter_In beatsInfinity) as Hin.
  destruct (List.filter beatsInfinity _) as [| m0 rest] eqn:E; [reflexivity |].
  apply reduce_keepLower_firstMin.
  apply List.Forall_forall. intros m Hm. apply beatsInfinity_not_nan.
  apply (Hin m (validResults speedCalculator A R expectedSpeedMph)). now rewrite E.
Qed.

(** Membership in [validResults]. *)
Lemma validResults_In calc A R e m :
  In m (validResults calc A R e) <->
  exists a r, In a A /\ In r R /\
    calculateSpeedForFrequencyPair calc (frequency a) (frequency r) e = PairValid m.
Proof.
  unfold validResults. rewrite in_flat_map. split.
  - intros (a & Ha & H). apply in_flat_map in H as (r & Hr & H).
    exists a, r. repeat split; [exact Ha | exact Hr |].
    destruct (calculateSpeedForFrequencyPair _ _ _ _); [destruct H |].
    destruct H as [<- | []]. reflexivity.
  - intros (a & r & Ha & Hr & H). exists a. split; [exact Ha |].
    apply in_flat_map. exists r. split; [exact Hr |]. rewrite H. now left.
Qed.

Lemma search_found calc A R e :
  (exists m, In m (validResults calc A R e) /\ beatsInfinity m = true) ->
  exists best, findOptimalSpeedCalculation calc A R e = Some best.
Proof.
  intros (m & Hm & Hb). rewrite search_result.
  destruct (List.filter beatsInfinity _) as [| m0 rest] eqn:E; [| eauto].
  exfalso. assert (Hin : In m (List.filter beatsInfinity (validResults calc A R e))).
  { apply filter_In. now split. }
  rewrite E in Hin. destruct Hin.
Qed.

Lemma search_found_inv calc A R e best :
  findOptimalSpeedCalculation calc A R e = Some best ->
  In best (validResults calc A R e) /\ beatsInfinity best = true.
Proof.
  rewrite search_result.
  destruct (List.filter beatsInfinity _) as [| m0 rest] eqn:E; [discriminate |].
  intros [= <-]. apply filter_In. rewrite E. apply StrategyFacts.fold_keepLower_in.
Qed.

(** An expected speed against which an error below Infinity exists is
    finite. *)
Lemma finite_error_expected (q : Q) e :
  (JS.abs (Fin q - e) <? PInf) = true -> JS.is_fin e.
Proof. destruct e; simpl; try discriminate; auto. Qed.

Lemma orDefault_finite e (d d' : Q) :
  JS.is_fin (JS.orDefault e (Fin d)) -> JS.is_fin (JS.orDefault e (Fin d')).
Proof.
  destruct e as [x |]; simpl; [| auto].
  unfold JS.or_else. destruct (JS.truthy x); auto.
Qed.

(** X4: the secondary strategy never finds a pair when the primary finds
    none: its calculator, limited to 500 km/h, accepts no pair that the
    default calculator, limited to 1000 km/h, rejects. *)
Theorem trySecondaryStrategy_needs_primary (A R : list FrequencyCandidate)
    (expectedSpeed : option num) (s : StrategyResult) :
  trySecondaryStrategy A R expectedSpeed = Some s ->
  exists p, tryPrimaryStrategy A R expectedSpeed = Some p.
Proof.
  unfold trySecondaryStrategy, tryPrimaryStrategy. cbv zeta.
  destruct (findOptimalSpeedCalculation (Doppler.setSpeedLimits _ _ _) _ _ _)
    as [m |] eqn:E; [| discriminate].
  intros _. apply search_found_inv in E as [Hin Hb].
  apply validResults_In in Hin as (a & r & Ha & Hr & Hpair).
  assert (Hfound : exists best,
    findOptimalSpeedCalculation Doppler.default A R (JS.orDefault expectedSpeed (Fin 30))
      = Some best).
  { apply search_found.
    unfold calculateSpeedForFrequencyPair in Hpair. cbv zeta in Hpair.
    destruct (_ === Fin 0) eqn:Z in Hpair; [discriminate |].
    injection Hpair as <-. unfold beatsInfinity in Hb. cbn [error] in Hb.
    set (raw := (Fin 343 * (frequency a - frequency r) / (frequency a + frequency r)
                 * Fin 3.6)%num) in *.
    assert (Hlen : Doppler.calculateSpeed (Doppler.setSpeedLimits Doppler.default (Fin 0) (Fin 500))
                     (frequency a) (frequency r)
                   = if (raw >=? Fin 500) || (raw <? Fin 0) then Fin 0 else raw)
      by reflexivity.
    assert (Hdef : Doppler.calculateSpeed Doppler.default (frequency a) (frequency r)
                   = if (raw >=? Fin 1000) || (raw <? Fin 0) then Fin 0 else raw)
      by reflexivity.
    rewrite Hlen in Z, Hb.
    destruct ((raw >=? Fin 500) || (raw <? Fin 0)) eqn:C; [discriminate Z |].
    apply orb_false_iff in C as [C1 C2].
    destruct raw as [q | | |] eqn:Eraw; try discriminate.
    simpl in C1, C2, Z. qbool.
    assert (Hdef' : Doppler.calculateSpeed Doppler.default (frequency a) (frequency r) = Fin q).
    { rewrite Hdef. simpl.
      replace (Qle_bool 1000 q) with false by (symmetry; qbool; lra).
      replace (JS.Qltb q 0) with false by (symmetry; qbool; lra).
      reflexivity. }
    eexists. split.
    - apply validResults_In. exists a, r. split; [exact Ha |]. split; [exact Hr |].
      unfold calculateSpeedForFrequencyPair. cbv zeta. rewrite Hdef'. simpl.
      replace (Qeq_bool q 0) with false by (symmetry; qbool; exact Z).
      reflexivity.
    - unfold beatsInfinity. cbn [error].
      simpl in Hb. apply finite_error_expected in Hb.
      apply (orDefault_finite _ 50 30) in Hb.
      destruct (JS.orDefault expectedSpeed (Fin 30)); simpl in *; tauto. }
  destruct Hfound as [best ->]. eauto.
Qed.

Lemma trySecondaryStrategy_needs_primary_witness :
  exists p,
    tryPrimaryStrategy [ {| frequency := Fin 1000; power := Fin 1 |} ]
                       [ {| frequency := Fin 900; power := Fin 1 |} ] None = Some p.
Proof.
  eapply (trySecondaryStrategy_needs_primary
            [ {| frequency := Fin 1000; power := Fin 1 |} ]
            [ {| frequency := Fin 900; power := Fin 1 |} ] None).
  vm_compute. reflexivity.
Defined.

End FrequencyMatcherFacts.

(** ** Slices at integer positions *)

Lemma truncate_inject_Z z : Arr.truncate (inject_Z z) = z.
Proof.
  unfold Arr.truncate. destruct (JS.Qltb (inject_Z z) 0); [apply Qceiling_Z | apply Qfloor_Z].
Qed.

Lemma relativeIndex_of_Z len z :
  Arr.relativeIndex len (JS.of_Z z) =
    if (z <? 0)%Z then Z.to_nat (Z.max (Z.of_nat len + z) 0)
    else Nat.min (Z.to_nat z) len.
Proof. unfold Arr.relativeIndex, JS.of_Z. now rewrite truncate_inject_Z. Qed.

(** [slice(start)] at a position inside the array. *)
Lemma slice_drop {A : Type} (l : list A) k :
  (k <= length l)%nat -> Arr.slice l (JS.of_nat k) None = drop k l.
Proof.
  intros H. unfold Arr.slice. rewrite SpectrumFacts.relativeIndex_of_nat.
  rewrite Nat.min_l by exact H. apply take_ge. rewrite length_drop. lia.
Qed.

(** [slice(-k)] for 0 < k <= length. *)
Lemma slice_last {A : Type} (l : list A) k :
  (0 < k <= length l)%nat ->
  Arr.slice l (JS.of_Z (- Z.of_nat k)) None = drop (length l - k) l.
Proof.
  intros H. unfold Arr.slice. rewrite relativeIndex_of_Z.
  replace (- Z.of_nat k <? 0)%Z with true by (symmetry; apply Z.ltb_lt; lia).
  replace (Z.to_nat (Z.max (Z.of_nat (length l) + - Z.of_nat k) 0))
    with (length l - k)%nat by lia.
  apply take_ge. rewrite length_drop. lia.
Qed.


(** ** The quarter sections *)

Module QuarterFacts.
Import Slicer.

Lemma lastQuarter (samples : list num) :
  Arr.slice samples (lastQuarterStart (length samples / 4)) None =
    if (length samples / 4 =? 0)%nat then samples
    else drop (length samples - length samples / 4) samples.
Proof.
  unfold lastQuarterStart.
  destruct (length samples / 4 =? 0)%nat eqn:E.
  - apply Nat.eqb_eq in E. rewrite E. change (JS.of_Z (- Z.of_nat 0)) with (JS.of_nat 0).
    rewrite slice_drop by lia. reflexivity.
  - apply Nat.eqb_neq in E. apply slice_last.
    pose proof (Nat.Div0.div_le_upper_bound (length samples) 4 (length samples)).
    lia.
Qed.

(** X5: [extractShortFileSections] on fewer than four samples returns an
    empty approaching section and the whole input as the receding one
    (the quarter length is 0 and [slice(-0)] is [slice(0)]); from four
    samples on the two sections are the first and the last quarter of
    the input, of the same length, and do not overlap. *)
Theorem extractShortFileSections_quarters (samples : list num) (sampleRate : num) :
  ((length samples < 4)%nat ->
     approaching (extractShortFileSections samples sampleRate) = Some [] /\
     receding (extractShortFileSections samples sampleRate) = Some samples) /\
  ((4 <= length samples)%nat ->
     exists a middle r,
       samples = a ++ middle ++ r /\
       length a = (length samples / 4)%nat /\ length r = (length samples / 4)%nat /\
       approaching (extractShortFileSections samples sampleRate) = Some a /\
       receding (extractShortFileSections samples sampleRate) = Some r).
Proof.
  unfold extractShortFileSections. cbv zeta. cbn [approaching receding].
  rewrite SpectrumFacts.slice_from_zero, lastQuarter.
  set (n := length samples). set (q := (n / 4)%nat).
  assert (Hq : (4 * q <= n)%nat) by (apply Nat.Div0.mul_div_le).
  split; intros Hn.
  - assert (E : q = 0%nat) by (apply Nat.div_small; exact Hn).
    rewrite E. now rewrite take_0.
  - assert (Hpos : (0 < q)%nat).
    { unfold q. apply Nat.div_str_pos. lia. }
    replace (q =? 0)%nat with false by (symmetry; apply Nat.eqb_neq; lia).
    exists (take q samples), (take (n - 2 * q) (drop q samples)), (drop (n - q) samples).
    repeat split.
    + rewrite <- (take_drop q samples) at 1. f_equal.
      rewrite <- (take_drop (n - 2 * q) (drop q samples)) at 1. f_equal.
      rewrite drop_drop. f_equal. lia.
    + rewrite length_take. fold n. lia.
    + rewrite length_drop. fold n. lia.
Qed.

(** X6: the two quarter sectionings of the library,
    [AudioSlicer.extractShortFileSections] and
    [AudioAnalyzer.extractSimpleSections], return the same sections and
    durations for an empty input and from four samples on; on one to
    three samples they differ: the first returns the whole input as the
    receding section, the second an empty one. *)
Theorem quarter_sectionings_compared (samples : list num) (sampleRate : num) :
  ((length samples = 0 \/ 4 <= length samples)%nat ->
     approaching (extractShortFileSections samples sampleRate)
       = approaching (Analyzer.extractSimpleSections samples sampleRate) /\
     receding (extractShortFileSections samples sampleRate)
       = receding (Analyzer.extractSimpleSections samples sampleRate) /\
     approachDuration (extractShortFileSections samples sampleRate)
       = approachDuration (Analyzer.extractSimpleSections samples sampleRate) /\
     recedeDuration (extractShortFileSections samples sampleRate)
       = recedeDuration (Analyzer.extractSimpleSections samples sampleRate)) /\
  ((0 < length samples < 4)%nat ->
     receding (extractShortFileSections samples sampleRate) = Some samples /\
     receding (Analyzer.extractSimpleSections samples sampleRate) = Some []).
Proof.
  unfold extractShortFileSections, Analyzer.extractSimpleSections. cbv zeta.
  cbn [approaching receding approachDuration recedeDuration].
  rewrite SpectrumFacts.slice_from_zero, lastQuarter.
  set (n := length samples). set (q := (n / 4)%nat).
  assert (Hq : (4 * q <= n)%nat) by (apply Nat.Div0.mul_div_le).
  assert (Esub : (JS.of_nat n - JS.of_nat q)%num = JS.of_nat (n - q)).
  { unfold JS.of_nat, JS.of_Z. cbn [JS.sub JS.neg JS.add]. f_equal.
    rewrite Nat2Z.inj_sub by lia. unfold Z.sub. rewrite inject_Z_plus, inject_Z_opp.
    reflexivity. }
  rewrite Esub. rewrite (slice_drop samples (n - q)) by (fold n; lia).
  split.
  - intros Hn. split; [reflexivity |].
    assert (Hlen : length (take q samples) = q) by (rewrite length_take; fold n; lia).
    rewrite Hlen.
    destruct (q =? 0)%nat eqn:E.
    + apply Nat.eqb_eq in E.
      assert (n = 0)%nat as Hz.
      { destruct Hn as [Hn | Hn]; [exact Hn |].
        exfalso. assert (0 < q)%nat by (unfold q; apply Nat.div_str_pos; lia). lia. }
      rewrite E, Nat.sub_0_r.
      assert (samples = []) as -> by (apply length_zero_iff_nil; exact Hz).
      repeat split.
    + rewrite length_drop. fold n. replace (n - (n - q))%nat with q by lia.
      repeat split.
  - intros Hn. assert (E : q = 0%nat) by (apply Nat.div_small; lia).
    rewrite E, Nat.sub_0_r. cbn [Nat.eqb]. split; [reflexivity |].
    unfold n. now rewrite drop_all.
Qed.

End QuarterFacts.

(** ** Integers as numbers *)

Lemma of_Z_add a b : (JS.of_Z a + JS.of_Z b ≃ JS.of_Z (a + b))%num.
Proof. unfold JS.of_Z. simpl. now rewrite inject_Z_plus. Qed.

Lemma of_Z_sub a b : (JS.of_Z a - JS.of_Z b ≃ JS.of_Z (a - b))%num.
Proof.
  unfold JS.of_Z, JS.sub. simpl. unfold Z.sub. now rewrite inject_Z_plus, inject_Z_opp.
Qed.

Lemma of_Z_lt a b : (JS.of_Z a <? JS.of_Z b) = (a <? b)%Z.
Proof.
  unfold JS.of_Z. simpl. destruct (a <? b)%Z eqn:E.
  - apply Z.ltb_lt in E. qbool. now rewrite <- Zlt_Qlt.
  - apply Z.ltb_ge in E. qbool. now rewrite <- Zle_Qle.
Qed.


Lemma of_Z_max a b : JS.max (JS.of_Z a) (JS.of_Z b) = JS.of_Z (Z.max a b).
Proof.
  pose proof (of_Z_lt a b) as H. unfold JS.of_Z in *. cbn [JS.max]. rewrite H.
  destruct (a <? b)%Z eqn:E.
  - apply Z.ltb_lt in E. now rewrite Z.max_r by lia.
  - apply Z.ltb_ge in E. now rewrite Z.max_l by lia.
Qed.

Lemma of_Z_min a b : JS.min (JS.of_Z a) (JS.of_Z b) = JS.of_Z (Z.min a b).
Proof.
  pose proof (of_Z_lt b a) as H. unfold JS.of_Z in *. cbn [JS.min]. rewrite H.
  destruct (b <? a)%Z eqn:E.
  - apply Z.ltb_lt in E. now rewrite Z.min_r by lia.
  - apply Z.ltb_ge in E. now rewrite Z.min_l by lia.
Qed.

Lemma floor_of_Q (q : Q) : JS.floor (Fin q) = JS.of_Z (Qfloor q).
Proof. reflexivity. Qed.

(** Numerically equal positions give the same slice. *)
Lemma relativeIndex_same len a b : (a ≃ b)%num -> Arr.relativeIndex len a = Arr.relativeIndex len b.
Proof.
  destruct a as [x | | |], b as [y | | |]; simpl; try contradiction; try reflexivity.
  intros H. unfold Arr.truncate.
  assert (E : JS.Qltb x 0 = JS.Qltb y 0).
  { destruct (JS.Qltb y 0) eqn:Ey; qbool; lra. }
  rewrite E, (Qfloor_comp x y H), (Qceiling_comp x y H). reflexivity.
Qed.

Lemma slice_same {A : Type} (l : list A) a a' b b' :
  (a ≃ a')%num -> (b ≃ b')%num ->
  Arr.slice l a (Some b) = Arr.slice l a' (Some b').
Proof.
  intros Ha Hb. unfold Arr.slice.
  now rewrite (relativeIndex_same _ a a' Ha), (relativeIndex_same _ b b' Hb).
Qed.

Lemma slice_same_open {A : Type} (l : list A) a a' :
  (a ≃ a')%num -> Arr.slice l a None = Arr.slice l a' None.
Proof.
  intros Ha. unfold Arr.slice. now rewrite (relativeIndex_same _ a a' Ha).
Qed.

Lemma of_nat_of_Z n : JS.of_nat n = JS.of_Z (Z.of_nat n).
Proof. reflexivity. Qed.

(** ** Sections around the closest approach *)

Module ClosestApproachFacts.
Import Slicer.

(** The margin is a whole, non-negative number of samples. *)
Lemma marginSamples_nonneg (sr d : Q) :
  (0 <= sr)%Q -> (0 <= d)%Q ->
  exists m, (0 <= m)%Z /\
    JS.floor (JS.min (Fin 0.3) (Fin d * Fin 0.2) * Fin sr) = JS.of_Z m.
Proof.
  intros Hsr Hd. cbn [JS.mul JS.min JS.lt].
  destruct (JS.Qltb (d * 0.2) 0.3) eqn:E; cbn [JS.mul]; rewrite floor_of_Q;
    eexists; (split; [| reflexivity]).
  - change 0%Z with (Qfloor 0). apply Qfloor_resp_le.
    apply Qmult_le_0_compat; [| exact Hsr]. lra.
  - change 0%Z with (Qfloor 0). apply Qfloor_resp_le.
    apply Qmult_le_0_compat; [| exact Hsr]. lra.
Qed.

(** The two sections, by the positions that bound them. *)
Lemma extractSections_bounds (samples : list num) (sr d : Q) (ci : nat) :
  (0 <= sr)%Q -> (0 <= d)%Q ->
  exists m, (0 <= m)%Z /\
    approaching (extractSections samples (Fin sr) (JS.of_nat ci) (Fin d))
      = Some (take (Z.to_nat (Z.max (Z.of_nat ci - m) 2048)) samples) /\
    receding (extractSections samples (Fin sr) (JS.of_nat ci) (Fin d))
      = Some (Arr.slice samples
                (JS.of_Z (Z.min (Z.of_nat ci + m) (Z.of_nat (length samples) - 2048))) None).
Proof.
  intros Hsr Hd. destruct (marginSamples_nonneg sr d Hsr Hd) as (m & Hm & Em).
  exists m. split; [exact Hm |].
  unfold extractSections. cbv zeta. cbn [approaching receding]. rewrite Em.
  unfold minSectionSamples. split; f_equal.
  - rewrite <- SpectrumFacts.slice_from_zero.
    apply slice_same; [apply same_refl |].
    rewrite !of_nat_of_Z.
    eapply same_trans; [apply same_max; [apply of_Z_sub | apply same_refl] |].
    rewrite of_Z_max. rewrite Z2Nat.id by lia. apply same_refl.
  - apply slice_same_open. rewrite !of_nat_of_Z.
    eapply same_trans; [apply same_min; [apply of_Z_add | apply of_Z_sub] |].
    rewrite of_Z_min. apply same_refl.
Qed.

(** X7: with a sample rate and a duration that are finite and not
    negative and a closest-approach index that is a natural number, the
    sections cut around the closest approach pass the default validation
    exactly when the input has at least 2048 samples: both sections then
    have at least 2048 samples, wherever the closest approach lies. *)
Theorem extractSections_valid_iff (samples : list num) (sr d : Q) (ci : nat) :
  (0 <= sr)%Q -> (0 <= d)%Q ->
  isValid (validateSections (extractSections samples (Fin sr) (JS.of_nat ci) (Fin d)) 2048)
    = (2048 <=? length samples)%nat.
Proof.
  intros Hsr Hd.
  destruct (extractSections_bounds samples sr d ci Hsr Hd) as (m & Hm & Ea & Er).
  rewrite SlicerFacts.validateSections_isValid, Ea, Er. cbn [tooShort].
  rewrite length_take.
  unfold Arr.slice. rewrite relativeIndex_of_Z, length_take, length_drop.
  set (n := length samples).
  destruct (2048 <=? n)%nat eqn:E.
  - apply Nat.leb_le in E.
    replace (Z.min (Z.of_nat ci + m) (Z.of_nat n - 2048) <? 0)%Z with false
      by (symmetry; apply Z.ltb_ge; lia).
    apply andb_true_iff. split; apply negb_true_iff, Nat.ltb_ge; lia.
  - apply Nat.leb_gt in E. apply andb_false_iff. left.
    apply negb_false_iff, Nat.ltb_lt. lia.
Qed.

Lemma extractSections_valid_iff_witness :
  isValid (validateSections
             (extractSections (repeat (Fin 0) 3000) (Fin 8000) (JS.of_nat 1500) (Fin 0.375))
             2048)
    = (2048 <=? length (repeat (Fin 0) 3000))%nat.
Proof.
  apply (extractSections_valid_iff (repeat (Fin 0) 3000) 8000 0.375 1500); discriminate.
Defined.

End ClosestApproachFacts.

(** ** The choice among the sectioning strategies *)

Module BestSectionsFacts.
Import Slicer.

(** The first element of a descending sort has the greatest key. *)
Lemma sort_head_greatest {A : Type} (key : A -> num) (l : list A) c rest :
  Forall (fun x => JS.is_nan (key x) = false) l ->
  Arr.sort (Arr.descending key) l = c :: rest ->
  In c l /\ forall x, In x l -> (key x <=? key c) = true.
Proof.
  intros Hok E.
  assert (Hc : In c l).
  { apply (SortFacts.sort_In (Arr.descending key)). rewrite E. now left. }
  split; [exact Hc |]. intros x Hx.
  pose proof (SortFacts.sort_sortedDesc key l Hok) as Hs. rewrite E in Hs.
  apply (SortFacts.sort_In (Arr.descending key)) in Hx. rewrite E in Hx.
  destruct Hx as [<- | Hx].
  - apply le_refl. rewrite List.Forall_forall in Hok. now apply Hok.
  - apply list_elem_of_In, list_elem_of_lookup_1 in Hx as [j Hj].
    apply (Hs 0%nat (S j) c x); [lia | reflexivity | exact Hj].
Qed.

Lemma candidates_confidence samples sampleRate closestApproachIndex :
  Forall (fun c => JS.is_nan (confidence c) = false)
    (candidates samples sampleRate closestApproachIndex).
Proof.
  unfold candidates. cbv zeta. repeat rewrite Forall_app. repeat split.
  - destruct closestApproachIndex as [i |]; [| constructor].
    destruct (_ && _); [| constructor].
    constructor; [| constructor]. cbn [confidence]. now destruct (isValid _).
  - destruct (_ <? Fin 5); [| constructor].
    constructor; [| constructor]. cbn [confidence]. now destruct (isValid _).
  - constructor; [| constructor]. cbn [confidence]. now destruct (isValid _).
Qed.

Lemma candidates_not_empty samples sampleRate closestApproachIndex :
  candidates samples sampleRate closestApproachIndex <> [].
Proof.
  unfold candidates. cbv zeta. intros H.
  apply app_eq_nil in H as [_ H]. apply app_eq_nil in H as [_ H]. discriminate H.
Qed.

Lemma sort_not_empty {A : Type} (c : A -> A -> num) (l : list A) :
  l <> [] -> Arr.sort c l <> [].
Proof.
  intros Hl E. apply Hl. apply length_zero_iff_nil.
  rewrite <- (SortFacts.sort_length c l), E. reflexivity.
Qed.

(** The selection of [extractBestSections], spelled out. *)
Lemma selected_candidate samples sampleRate closestApproachIndex :
  exists b c,
    extractBestSections samples sampleRate closestApproachIndex = Some b /\
    In c (candidates samples sampleRate closestApproachIndex) /\
    best b = sections c /\ selectedStrategy b = name c /\
    bestValidation b = validation c /\ bestConfidence b = confidence c /\
    (forall c', In c' (candidates samples sampleRate closestApproachIndex) ->
                isValid (validation c') = true ->
                isValid (validation c) = true /\ (confidence c' <=? confidence c) = true) /\
    ((forall c', In c' (candidates samples sampleRate closestApproachIndex) ->
                 isValid (validation c') = false) ->
     forall c', In c' (candidates samples sampleRate closestApproachIndex) ->
                (confidence c' <=? confidence c) = true).
Proof.
  unfold extractBestSections. cbv zeta.
  pose proof (candidates_confidence samples sampleRate closestApproachIndex) as Hok.
  pose proof (candidates_not_empty samples sampleRate closestApproachIndex) as Hne.
  set (strategies := candidates samples sampleRate closestApproachIndex) in *.
  set (valid := fun s : Candidate => isValid (validation s)).
  set (validStrategies := List.filter valid strategies).
  assert (Hokv : Forall (fun c => JS.is_nan (confidence c) = false) validStrategies).
  { apply List.Forall_forall. intros c Hc. apply filter_In in Hc as [Hc _].
    rewrite List.Forall_forall in Hok. now apply Hok. }
  destruct (0 <? length validStrategies)%nat eqn:L.
  - apply Nat.ltb_lt in L.
    destruct (Arr.sort (Arr.descending confidence) validStrategies) as [| c rest] eqn:E.
    { exfalso. apply (sort_not_empty (Arr.descending confidence) validStrategies); [| exact E].
      intros Hnil. rewrite Hnil in L. cbn in L. lia. }
    destruct (sort_head_greatest confidence validStrategies c rest Hokv E) as [Hc Hmax].
    apply filter_In in Hc as [Hc Hv].
    eexists; exists c. split; [reflexivity |]. cbn.
    repeat split; try assumption.
    + apply Hmax, filter_In. now split.
    + intros Hnone c' Hc'. specialize (Hnone c Hc). unfold valid in Hv. congruence.
  - apply Nat.ltb_ge in L.
    assert (Hnil : validStrategies = []) by (apply length_zero_iff_nil; lia).
    destruct (Arr.sort (Arr.descending confidence) strategies) as [| c rest] eqn:E.
    { exfalso. now apply (sort_not_empty (Arr.descending confidence) strategies). }
    destruct (sort_head_greatest confidence strategies c rest Hok E) as [Hc Hmax].
    eexists; exists c. split; [reflexivity |]. cbn.
    repeat split; try assumption.
    + exfalso. assert (Hin : In c' validStrategies) by (apply filter_In; now split).
      rewrite Hnil in Hin. destruct Hin.
    + exfalso. assert (Hin : In c' validStrategies) by (apply filter_In; now split).
      rewrite Hnil in Hin. destruct Hin.
    + intros _. exact Hmax.
Qed.

(** X8: [extractBestSections] always selects one of the strategies it
    tried; whenever a strategy passed its validation the selected one
    did, and no valid strategy has a higher confidence; when none passed,
    the selected one has the highest confidence of all. *)
Theorem extractBestSections_selects_best (samples : list num) (sampleRate : num)
    (closestApproachIndex : option num) :
  exists b c,
    extractBestSections samples sampleRate closestApproachIndex = Some b /\
    In c (candidates samples sampleRate closestApproachIndex) /\
    best b = sections c /\ selectedStrategy b = name c /\
    bestValidation b = validation c /\ bestConfidence b = confidence c /\
    (forall c', In c' (candidates samples sampleRate closestApproachIndex) ->
                isValid (validation c') = true ->
                isValid (validation c) = true /\ (confidence c' <=? confidence c) = true) /\
    ((forall c', In c' (candidates samples sampleRate closestApproachIndex) ->
                 isValid (validation c') = false) ->
     forall c', In c' (candidates samples sampleRate closestApproachIndex) ->
                (confidence c' <=? confidence c) = true).
Proof. apply selected_candidate. Qed.

End BestSectionsFacts.

(** ** AudioAnalyzer.extractOptimalSections *)

Module OptimalSectionsFacts.
Import Slicer AudioAnalyzer.

(** Without a closest approach the strategies are the two quarter
    sectionings, whose sections hold a quarter of the samples each. *)
Lemma quarter_candidates (samples : list num) sampleRate c :
  (4 <= length samples)%nat ->
  In c (candidates samples sampleRate None) ->
  exists a r, approaching (Slicer.sections c) = Some a /\ receding (Slicer.sections c) = Some r /\
              length a = (length samples / 4)%nat /\ length r = (length samples / 4)%nat.
Proof.
  intros Hn Hc.
  assert (Hq : (0 < length samples / 4)%nat) by (apply Nat.div_str_pos; lia).
  assert (Hq' : (4 * (length samples / 4) <= length samples)%nat)
    by (apply Nat.Div0.mul_div_le).
  assert (Hshape : exists a r,
    Some (Arr.slice samples (Fin 0) (Some (JS.of_nat (length samples / 4)))) = Some a /\
    Some (Arr.slice samples (lastQuarterStart (length samples / 4)) None) = Some r /\
    length a = (length samples / 4)%nat /\ length r = (length samples / 4)%nat).
  { rewrite SpectrumFacts.slice_from_zero, QuarterFacts.lastQuarter.
    replace (length samples / 4 =? 0)%nat with false by (symmetry; apply Nat.eqb_neq; lia).
    eexists; eexists. split; [reflexivity |]. split; [reflexivity |].
    rewrite length_take, length_drop. lia. }
  unfold candidates in Hc. cbv zeta in Hc. cbn [app] in Hc.
  apply in_app_or in Hc as [Hc | [<- | []]]; [| exact Hshape].
  destruct (_ <? Fin 5); [| destruct Hc]. destruct Hc as [<- | []].
  exact Hshape.
Qed.

(** X9: in the 'auto' mode without a detected closest approach, an
    input of 2048 to 8191 samples is sectioned by a quarter strategy that
    [extractBestSections] reports valid (it validates the quarters
    against 1024 or 512 samples), and [extractOptimalSections] then
    replaces that validation by one against 2048 samples, which fails:
    the sectioning it returns is invalid. *)
Theorem extractOptimalSections_revalidates (samples : list num) (sampleRate : num)
    (approachDetection : option Approach.Detection) (ranges : option (list (string * (num * num)))) :
  detected approachDetection = false ->
  (2048 <= length samples < 4 * 2048)%nat ->
  exists b s,
    extractBestSections samples sampleRate None = Some b /\
    isValid (bestValidation b) = true /\
    extractOptimalSections samples sampleRate approachDetection
      {| sectioningStrategy := "auto"; timeRanges := ranges |} = Returns s /\
    AudioAnalyzer.sections s = best b /\
    AudioAnalyzer.selectedStrategy s = Some (Slicer.selectedStrategy b) /\
    isValid (AudioAnalyzer.validation s) = false.
Proof.
  intros Hdet Hn.
  destruct (BestSectionsFacts.selected_candidate samples sampleRate None)
    as (b & c & Eb & Hc & Hs & Hname & Hval & _ & Hvalid & _).
  assert (Hq : (512 <= length samples / 4 < 2048)%nat).
  { split; [apply Nat.div_le_lower_bound; lia | apply Nat.Div0.div_lt_upper_bound; lia]. }
  exists b. eexists. split; [exact Eb |]. split; [| split].
  - (* the fallback strategy is valid *)
    rewrite Hval.
    set (fallback := List.last (candidates samples sampleRate None) c).
    assert (Hf : In fallback (candidates samples sampleRate None) /\
                 name fallback = "simple_quarters"%string).
    { unfold fallback, candidates. cbv zeta. rewrite !app_assoc, last_last.
      split; [| reflexivity]. apply in_or_app. right. now left. }
    destruct Hf as [Hf Hfn].
    apply (Hvalid fallback Hf).
    destruct (SlicerFacts.candidates_validation _ _ _ _ Hf) as [-> _].
    rewrite Hfn. change (minimumOf "simple_quarters") with 512%nat.
    destruct (quarter_candidates samples sampleRate fallback ltac:(lia) Hf)
      as (a & r & Ea & Er & La & Lr).
    rewrite SlicerFacts.validateSections_isValid, Ea, Er. cbn [tooShort].
    apply andb_true_iff. split; apply negb_true_iff, Nat.ltb_ge; lia.
  - unfold extractOptimalSections, sectionsOfStrategy. cbv zeta.
    cbn [sectioningStrategy String.eqb Ascii.eqb Bool.eqb].
    replace (match approachDetection with
             | Some d => if Approach.found d
                         then Some (JS.of_Z (Approach.closestApproachIndex d)) else None
             | None => None
             end) with (@None num).
    + rewrite Eb. reflexivity.
    + destruct approachDetection as [d |]; [| reflexivity].
      cbn in Hdet. now rewrite Hdet.
  - cbn [AudioAnalyzer.sections AudioAnalyzer.selectedStrategy AudioAnalyzer.validation].
    split; [reflexivity |]. split; [reflexivity |].
    rewrite Hs.
    destruct (quarter_candidates samples sampleRate c ltac:(lia) Hc)
      as (a & r & Ea & Er & La & Lr).
    rewrite SlicerFacts.validateSections_isValid, Ea, Er. cbn [tooShort].
    apply andb_false_iff. left. apply negb_false_iff, Nat.ltb_lt. lia.
Qed.

Lemma extractOptimalSections_revalidates_witness :
  exists b s,
    extractBestSections (repeat (Fin 0) 4096) (Fin 44100) None = Some b /\
    isValid (bestValidation b) = true /\
    extractOptimalSections (repeat (Fin 0) 4096) (Fin 44100) None
      {| sectioningStrategy := "auto"; timeRanges := None |} = Returns s /\
    AudioAnalyzer.sections s = best b /\
    AudioAnalyzer.selectedStrategy s = Some (Slicer.selectedStrategy b) /\
    isValid (AudioAnalyzer.validation s) = false.
Proof.
  apply (extractOptimalSections_revalidates (repeat (Fin 0) 4096) (Fin 44100) None None).
  - reflexivity.
  - rewrite repeat_length. lia.
Defined.

End OptimalSectionsFacts.

(** ** Time-based sections *)


Module TimeSectionsFacts.










(** With a negative start time the two differ: the slicer starts at the
    first sample, the processor counts the start from the end. *)
Lemma extractTimeSections_negative_start :
  AudioSlicer.sections
    (AudioSlicer.extractTimeSections [Fin 1; Fin 2; Fin 3; Fin 4] (Fin 1)
       [("approaching"%string, (Fin (-1), Fin 3))]) !! "approaching"%string
    = Some [Fin 1; Fin 2; Fin 3] /\
  AudioProcessor.extractTimeSections [Fin 1; Fin 2; Fin 3; Fin 4] (Fin 1)
    [("approaching"%string, (Fin (-1), Fin 3))] !! "approaching"%string
    = Some [].
Proof. split; vm_compute; reflexivity. Qed.

End TimeSectionsFacts.

(** ** Overlapping sections *)

Module OverlappingFacts.
Import AudioSlicer.


Section Loop.
Variable samples : list num.
Variables sampleRate duration : num.
Variables s t L : Z.
Hypothesis s_nonneg : (0 <= s)%Z.
Hypothesis L_inside : (L <= Z.of_nat (length samples))%Z.



Hypothesis t_pos : (0 < t)%Z.



End Loop.










End OverlappingFacts.

(** ** ApproachDetector *)

Module DetectorFacts.
Import Approach ApproachDetector.

Lemma zrange_length lo hi : length (zrange lo hi) = Z.to_nat (hi - lo).
Proof. unfold zrange. now rewrite length_map, length_seq. Qed.

Lemma zrange_lookup lo hi k j :
  zrange lo hi !! k = Some j -> j = (lo + Z.of_nat k)%Z /\ (lo <= j < hi)%Z.
Proof.
  unfold zrange. rewrite list_lookup_fmap.
  destruct (seq 0 (Z.to_nat (hi - lo)) !! k) as [k' |] eqn:E; [| discriminate].
  apply lookup_seq in E as [-> Hk]. cbn. intros [= <-]. lia.
Qed.

Lemma zrange_empty lo hi : (hi <= lo)%Z -> zrange lo hi = [].
Proof. intros H. unfold zrange. now replace (Z.to_nat (hi - lo)) with 0%nat by lia. Qed.

(** A window of no sample has energy 0. *)
Lemma windowEnergy_empty K samples halfWindow i :
  (halfWindow <= 0)%Z -> windowEnergy K samples halfWindow i = Fin 0.
Proof.
  intros H. unfold windowEnergy. cbv zeta.
  rewrite zrange_empty by lia. reflexivity.
Qed.

(** The profile point by point. *)
Lemma energyProfile_points (K : Numerics) (samples : list num) (q : Q) :
  exists profile,
    calculateEnergyProfile K samples (Fin q) = Some profile /\
    length profile = Z.to_nat (Z.of_nat (length samples) - 2 * Qfloor (q / 2)) /\
    (forall k p, profile !! k = Some p -> index p = (Qfloor (q / 2) + Z.of_nat k)%Z) /\
    ((Qfloor (q / 2) <= 0)%Z -> Forall (fun p => energy p = Fin 0) profile) /\
    ((forall x, notNegative (sqrt K x)) -> Forall (fun p => notNegative (energy p)) profile).
Proof.
  eexists. split; [reflexivity |]. cbv zeta. set (h := Qfloor (q / 2)).
  split; [| split; [| split]].
  - rewrite length_map, zrange_length. f_equal. lia.
  - intros k p Hp. rewrite list_lookup_fmap in Hp.
    destruct (zrange h _ !! k) as [i |] eqn:E; [| discriminate].
    apply zrange_lookup in E as [-> _]. cbn in Hp. now injection Hp as <-.
  - intros Hh. apply List.Forall_forall. intros p Hp.
    apply in_map_iff in Hp as (i & <- & _). cbn [energyPoint energy].
    now apply windowEnergy_empty.
  - intros Hsqrt. apply List.Forall_forall. intros p Hp.
    apply in_map_iff in Hp as (i & <- & _). cbn [energyPoint energy].
    unfold windowEnergy. cbv zeta. destruct (0 <? _)%nat; [apply Hsqrt | reflexivity].
Qed.

(** X14: for a finite window of [windowSamples] samples, with half
    window h = floor(windowSamples / 2), the energy profile holds one
    point for each centre h, h + 1, ..., length - h - 1, in this order
    (none when the input has no more than 2h samples); with a window of
    fewer than two samples (h <= 0) no sample is ever summed and every
    energy of the profile is 0. *)
Theorem calculateEnergyProfile_shape (K : Numerics) (samples : list num) (q : Q) :
  exists profile,
    calculateEnergyProfile K samples (Fin q) = Some profile /\
    length profile = Z.to_nat (Z.of_nat (length samples) - 2 * Qfloor (q / 2)) /\
    (forall k p, profile !! k = Some p -> index p = (Qfloor (q / 2) + Z.of_nat k)%Z) /\
    ((Qfloor (q / 2) <= 0)%Z -> Forall (fun p => energy p = Fin 0) profile).
Proof.
  destruct (energyProfile_points K samples q) as (profile & H1 & H2 & H3 & H4 & _).
  exists profile. auto.
Qed.

(** *** The smoothing filter *)

(** A sum of finite values between two bounds. *)
Lemma sum_bounds {A : Type} (f : A -> num) (lo hi : Q) (l : list A) :
  Forall (fun x => exists e, f x = Fin e /\ (lo <= e <= hi)%Q) l ->
  forall acc : Q,
    exists total,
      fold_left (fun sum x => sum + f x) l (Fin acc) = Fin total /\
      (acc + inject_Z (Z.of_nat (length l)) * lo <= total)%Q /\
      (total <= acc + inject_Z (Z.of_nat (length l)) * hi)%Q.
Proof.
  induction 1 as [| x l (e & Ex & He) _ IH]; intros acc.
  - exists acc. split; [reflexivity |].
    change (inject_Z (Z.of_nat (@length A []))) with 0%Q. lra.
  - cbn [fold_left]. rewrite Ex. cbn [JS.add].
    destruct (IH (acc + e)%Q) as (total & -> & H1 & H2).
    exists total. split; [reflexivity |].
    cbn [length]. rewrite Nat2Z.inj_succ, <- Z.add_1_r, inject_Z_plus.
    change (inject_Z 1) with 1%Q.
    set (n := inject_Z (Z.of_nat (length l))) in *. lra.
Qed.

Lemma energyAt_bounds (energyProfile : list EnergyPoint) (lo hi : Q) j :
  Forall (fun p => exists e, energy p = Fin e /\ (lo <= e <= hi)%Q) energyProfile ->
  (j < length energyProfile)%nat ->
  exists e, energyAt energyProfile j = Fin e /\ (lo <= e <= hi)%Q.
Proof.
  intros Hall Hj. unfold energyAt.
  destruct (lookup_lt_is_Some_2 energyProfile j Hj) as [p Hp]. rewrite Hp.
  rewrite List.Forall_forall in Hall. apply Hall.
  apply list_elem_of_In. eapply list_elem_of_lookup_2. exact Hp.
Qed.

Lemma smoothedEnergy_bounds (energyProfile : list EnergyPoint) (lo hi : Q) halfWindow i own :
  Forall (fun p => exists e, energy p = Fin e /\ (lo <= e <= hi)%Q) energyProfile ->
  (exists e, own = Fin e /\ (lo <= e <= hi)%Q) ->
  exists e, smoothedEnergy energyProfile halfWindow i own = Fin e /\ (lo <= e <= hi)%Q.
Proof.
  intros Hall Hown. unfold smoothedEnergy. cbv zeta.
  set (visited := List.filter _ _).
  assert (Hvis : Forall (fun j => exists e, energyAt energyProfile (Z.to_nat j) = Fin e /\
                                            (lo <= e <= hi)%Q) visited).
  { apply List.Forall_forall. intros j Hj. apply filter_In in Hj as [_ Hj].
    apply andb_true_iff in Hj as [H0 H1].
    apply Z.leb_le in H0. apply Z.ltb_lt in H1.
    apply energyAt_bounds; [exact Hall | lia]. }
  destruct (0 <? length visited)%nat eqn:C; [| exact Hown].
  apply Nat.ltb_lt in C.
  destruct (sum_bounds (fun j => energyAt energyProfile (Z.to_nat j)) lo hi visited Hvis 0)
    as (total & -> & H1 & H2).
  unfold JS.of_nat, JS.of_Z. cbn [JS.div].
  set (n := inject_Z (Z.of_nat (length visited))) in *.
  assert (Hn : (0 < n)%Q).
  { unfold n. change 0%Q with (inject_Z 0). rewrite <- Zlt_Qlt. lia. }
  replace (Qeq_bool n 0) with false by (symmetry; qbool; lra).
  exists (total / n)%Q. split; [reflexivity |]. split.
  - apply Qle_shift_div_l; [exact Hn | lra].
  - apply Qle_shift_div_r; [exact Hn | lra].
Qed.

Lemma imap_ext_index {A B : Type} (f g : nat -> A -> B) (l : list A) :
  (forall i x, l !! i = Some x -> f i x = g i x) -> imap f l = imap g l.
Proof.
  revert f g. induction l as [| x l IH]; intros f g H; [reflexivity |].
  cbn [imap]. f_equal; [apply (H 0%nat); reflexivity |].
  apply IH. intros i y Hy. apply (H (S i)). exact Hy.
Qed.

Lemma smoothedWith_points energyOf (energyProfile : list EnergyPoint) :
  length (smoothedWith energyOf energyProfile) = length energyProfile /\
  map (fun s => index (point s)) (smoothedWith energyOf energyProfile)
    = map index energyProfile /\
  map (fun s => time (point s)) (smoothedWith energyOf energyProfile)
    = map time energyProfile.
Proof.
  unfold smoothedWith. split; [apply length_imap |].
  split; revert energyOf; induction energyProfile as [| p l IH]; intros energyOf;
    try reflexivity; cbn [imap map point index time]; f_equal; apply IH.
Qed.

(** X15: on a finite number of smoothing samples the filter returns a
    profile of the same length with the same sample indices and times;
    for a count of at most 1 the points are returned unchanged, and for
    a larger one every smoothed energy of a profile of finite energies
    lies between the least and the greatest energy of that profile. *)
Theorem applySmoothingFilter_shape (energyProfile : list EnergyPoint) (q lo hi : Q) :
  Forall (fun p => exists e, energy p = Fin e /\ (lo <= e <= hi)%Q) energyProfile ->
  exists smoothed,
    applySmoothingFilter energyProfile (Fin q) = Some smoothed /\
    length smoothed = length energyProfile /\
    map (fun s => index (point s)) smoothed = map index energyProfile /\
    map (fun s => time (point s)) smoothed = map time energyProfile /\
    ((q <= 1)%Q -> map point smoothed = energyProfile) /\
    Forall (fun s => exists e, energy (point s) = Fin e /\ (lo <= e <= hi)%Q) smoothed.
Proof.
  intros Hall. unfold applySmoothingFilter. cbn [JS.le].
  destruct (Qle_bool q 1) eqn:E.
  - eexists. split; [reflexivity |]. unfold unsmoothed.
    rewrite length_map, !map_map. cbn [point].
    repeat split; try (apply map_ext; reflexivity).
    + intros _. apply map_id.
    + apply Forall_map. exact Hall.
  - eexists. split; [reflexivity |]. cbv zeta.
    destruct (smoothedWith_points
                (fun i p => smoothedEnergy energyProfile (Qfloor (q / 2)) i (energy p))
                energyProfile) as (H1 & H2 & H3).
    split; [exact H1 |]. split; [exact H2 |]. split; [exact H3 |].
    split; [intros Hq; qbool; lra |].
    unfold smoothedWith. apply List.Forall_forall. intros s Hs.
    apply list_elem_of_In, list_elem_of_lookup_1 in Hs as [i Hi].
    rewrite list_lookup_imap in Hi.
    destruct (energyProfile !! i) as [p |] eqn:Ep; [| discriminate].
    cbn in Hi. injection Hi as <-. cbn [point energy].
    apply smoothedEnergy_bounds; [exact Hall |].
    rewrite List.Forall_forall in Hall. apply Hall.
    apply list_elem_of_In. eapply list_elem_of_lookup_2. exact Ep.
Qed.

Lemma applySmoothingFilter_shape_witness :
  exists smoothed,
    applySmoothingFilter
      [ {| index := 0; energy := Fin 1; time := Fin 0 |};
        {| index := 1; energy := Fin 3; time := Fin 0.5 |} ] (Fin 2) = Some smoothed /\
    length smoothed = 2%nat /\
    map (fun s => index (point s)) smoothed = [0%Z; 1%Z] /\
    map (fun s => time (point s)) smoothed = [Fin 0; Fin 0.5] /\
    ((2 <= 1)%Q -> map point smoothed
                   = [ {| index := 0; energy := Fin 1; time := Fin 0 |};
                       {| index := 1; energy := Fin 3; time := Fin 0.5 |} ]) /\
    Forall (fun s => exists e, energy (point s) = Fin e /\ (1 <= e <= 3)%Q) smoothed.
Proof.
  apply (applySmoothingFilter_shape
           [ {| index := 0; energy := Fin 1; time := Fin 0 |};
             {| index := 1; energy := Fin 3; time := Fin 0.5 |} ] 2 1 3).
  repeat constructor.
  - exists 1%Q. split; [reflexivity | split; discriminate].
  - exists 3%Q. split; [reflexivity | split; discriminate].
Defined.


(** *** Peaks of a short profile *)

Lemma max_ge a b :
  JS.is_nan (JS.max a b) = false -> (a <=? JS.max a b) = true /\ (b <=? JS.max a b) = true.
Proof.
  destruct a as [x | | |], b as [y | | |]; cbn; try discriminate; try (split; reflexivity);
    intros _.
  - destruct (JS.Qltb x y) eqn:E; cbn; split; qbool; lra.
  - destruct (JS.Qltb x x) eqn:E; split; qbool; lra.
  - split; qbool; lra.
Qed.

Lemma maximum_from_ge (l : list num) : forall acc,
  JS.is_nan (fold_left JS.max l acc) = true \/
  ((acc <=? fold_left JS.max l acc) = true /\
   forall x, In x l -> (x <=? fold_left JS.max l acc) = true).
Proof.
  induction l as [| y l IH]; intros acc; cbn [fold_left].
  - destruct (JS.is_nan acc) eqn:N; [now left | right].
    split; [now apply le_refl | intros x []].
  - destruct (IH (JS.max acc y)) as [H | [H1 H2]]; [now left | right].
    assert (N : JS.is_nan (JS.max acc y) = false).
    { destruct (JS.max acc y); try reflexivity. discriminate H1. }
    destruct (max_ge acc y N) as [Ha Hy].
    split; [eapply le_trans; eassumption |].
    intros x [<- | Hx]; [eapply le_trans; eassumption | now apply H2].
Qed.

Lemma maximum_ge (l : list num) x :
  In x l -> JS.is_nan (Arr.maximum l) = true \/ (x <=? Arr.maximum l) = true.
Proof.
  intros Hx. unfold Arr.maximum.
  destruct (maximum_from_ge l NInf) as [H | [_ H]]; [now left | right; now apply H].
Qed.

Lemma flat_map_nil {A B : Type} (f : A -> list B) (l : list A) :
  (forall x, In x l -> f x = []) -> flat_map f l = [].
Proof.
  induction l as [| x l IH]; intros H; [reflexivity |].
  cbn [flat_map]. rewrite (H x) by now left. apply IH. intros y Hy. apply H. now right.
Qed.

(** Within a radius of 0 the least surrounding energy is the energy of
    the point itself. *)
Lemma minSurroundingOf_short energyProfile i current :
  (length energyProfile < 10)%nat -> (i + 1 < length energyProfile)%nat ->
  minSurroundingOf energyProfile i current = current.
Proof.
  intros Hlen Hi. unfold minSurroundingOf. cbv zeta.
  replace (length energyProfile / 10)%nat with 0%nat by (symmetry; now apply Nat.div_small).
  cbn [Nat.min]. rewrite Nat.sub_0_r, Nat.add_0_r.
  replace (Nat.min (length energyProfile - 1) i) with i by lia.
  replace (S i - i)%nat with 1%nat by lia.
  cbn [seq fold_left]. now rewrite Nat.eqb_refl.
Qed.

Lemma peakAt_short energyProfile prominence0 i :
  (length energyProfile < 10)%nat -> (1 <= i)%nat -> (i + 1 < length energyProfile)%nat ->
  Forall (fun p => notNegative (energy p)) energyProfile ->
  (Fin 0 <? prominence0) = true ->
  peakAt energyProfile (Arr.maximum (map energy energyProfile))
    (Arr.maximum (map energy energyProfile) * prominence0) i = [].
Proof.
  intros Hlen Hi1 Hi Hpos Hprom. unfold peakAt.
  destruct (energyProfile !! i) as [current |] eqn:Ec; [| reflexivity].
  destruct ((energy current >? energyAt energyProfile (i - 1))
            && (energy current >? energyAt energyProfile (i + 1))) eqn:Epeak;
    [| reflexivity].
  cbv zeta. rewrite (minSurroundingOf_short energyProfile i _ Hlen Hi).
  apply andb_true_iff in Epeak as [Eprev _]. unfold JS.gt in Eprev.
  assert (Hprev : notNegative (energyAt energyProfile (i - 1))).
  { unfold energyAt. destruct (lookup_lt_is_Some_2 energyProfile (i - 1) ltac:(lia)) as [p Hp].
    rewrite Hp. rewrite List.Forall_forall in Hpos. apply Hpos.
    apply list_elem_of_In. eapply list_elem_of_lookup_2. exact Hp. }
  assert (Hmax : JS.is_nan (Arr.maximum (map energy energyProfile)) = true \/
                 (energy current <=? Arr.maximum (map energy energyProfile)) = true).
  { apply maximum_ge. apply in_map. apply list_elem_of_In.
    eapply list_elem_of_lookup_2. exact Ec. }
  unfold notNegative in Hprev.
  set (maxEnergy := Arr.maximum (map energy energyProfile)) in *.
  destruct (energyAt energyProfile (i - 1)) as [e0 | | |]; try discriminate.
  - destruct (energy current) as [e | | |]; try discriminate.
    2:{ change (PInf - PInf) with NaN. unfold JS.ge.
        destruct (maxEnergy * prominence0); reflexivity. }
    cbn in Hprev, Eprev. qbool.
    replace ((Fin e - Fin e) >=? maxEnergy * prominence0) with false; [reflexivity |].
    symmetry. unfold JS.ge. cbn [JS.sub JS.neg JS.add].
    destruct Hmax as [Hmax | Hmax].
    + destruct maxEnergy; try discriminate. reflexivity.
    + destruct maxEnergy as [m | | |]; try discriminate.
      * cbn in Hmax. qbool.
        destruct prominence0 as [pr | | |]; try discriminate.
        -- cbn in Hprom. qbool. cbn. qbool.
           assert (0 < m * pr)%Q by (apply Qmult_lt_0_compat; lra). lra.
        -- cbn. unfold JS.Qsign.
           replace (JS.Qltb 0 m) with true by (symmetry; qbool; lra). reflexivity.
      * destruct prominence0 as [pr | | |]; try discriminate; [| reflexivity].
        cbn in Hprom. cbn. unfold JS.Qsign. rewrite Hprom. reflexivity.
  - destruct (energy current); discriminate.
Qed.

Lemma short_profile_no_peak (energyProfile : list EnergyPoint) (prominence0 : num) :
  (length energyProfile < 10)%nat ->
  Forall (fun p => notNegative (energy p)) energyProfile ->
  (Fin 0 <? prominence0) = true ->
  findEnergyPeaks energyProfile prominence0 = [].
Proof.
  intros Hlen Hpos Hprom. unfold findEnergyPeaks.
  destruct (length energyProfile <? 3)%nat eqn:E; [reflexivity |].
  apply Nat.ltb_ge in E. cbv zeta.
  rewrite flat_map_nil; [reflexivity |].
  intros i Hi. apply in_seq in Hi. apply peakAt_short; try assumption; lia.
Qed.

(** X16: an energy profile of fewer than ten points has no peak.  The
    search radius, min(20, floor(length / 10)), is then 0, so that the
    prominence of a local maximum is measured against itself and is 0,
    below every positive threshold (energies that are not negative, a
    positive [prominence] argument). *)
Theorem findEnergyPeaks_short_profile (energyProfile : list EnergyPoint) (prominence0 : num) :
  (length energyProfile < 10)%nat ->
  Forall (fun p => notNegative (energy p)) energyProfile ->
  (Fin 0 <? prominence0) = true ->
  findEnergyPeaks energyProfile prominence0 = [].
Proof. apply short_profile_no_peak. Qed.

Lemma findEnergyPeaks_short_profile_witness :
  findEnergyPeaks
    [ {| index := 0; energy := Fin 0; time := Fin 0 |};
      {| index := 1; energy := Fin 1; time := Fin 0.25 |};
      {| index := 2; energy := Fin 0; time := Fin 0.5 |} ] (Fin 0.1) = [].
Proof.
  apply (findEnergyPeaks_short_profile
           [ {| index := 0; energy := Fin 0; time := Fin 0 |};
             {| index := 1; energy := Fin 1; time := Fin 0.25 |};
             {| index := 2; energy := Fin 0; time := Fin 0.5 |} ] (Fin 0.1)).
  - cbn. lia.
  - repeat constructor.
  - reflexivity.
Defined.

(** *** The simple detector *)

Lemma windowStarts_inside len w i :
  (0 < w)%nat -> In i (windowStarts len (4 * w)) -> (i + 4 * w <= len)%nat.
Proof.
  intros Hw. unfold windowStarts.
  destruct (len <? 4 * w)%nat eqn:E; [intros [] |]. apply Nat.ltb_ge in E.
  replace (4 * w / 4)%nat with w by (rewrite Nat.mul_comm; symmetry; apply Nat.div_mul; lia).
  intros Hi. apply in_map_iff in Hi as (k & <- & Hk). apply in_seq in Hk.
  assert (k <= (len - 4 * w) / w)%nat by lia.
  assert (w * ((len - 4 * w) / w) <= len - 4 * w)%nat by (apply Nat.Div0.mul_div_le).
  nia.
Qed.

(** X17: for a window of 4w samples (w > 0; the default is 2048) the
    index [detectClosestApproach] returns is 0, when no window has a
    positive energy or the input is shorter than the window, or the
    centre of a window that lies inside the input: at least 2w and at
    most length - 2w. *)
Theorem detectClosestApproach_inside (K : Numerics) (samples : list num) (w : nat) :
  (0 < w)%nat ->
  detectClosestApproach K samples (4 * w) = 0%nat \/
  (2 * w <= detectClosestApproach K samples (4 * w) /\
   detectClosestApproach K samples (4 * w) + 2 * w <= length samples)%nat.
Proof.
  intros Hw. unfold detectClosestApproach.
  pose proof (fun i => windowStarts_inside (length samples) w i Hw) as Hin.
  generalize dependent (windowStarts (length samples) (4 * w)). intros starts Hin.
  assert (Hgen : forall st : num * nat,
    (st.2 = 0%nat \/ (2 * w <= st.2 /\ st.2 + 2 * w <= length samples)%nat) ->
    let final := fold_left
      (fun (st : num * nat) i =>
         let rmsEnergy := calculateRMSEnergy K samples i (4 * w) in
         if rmsEnergy >? st.1 then (rmsEnergy, (i + 4 * w / 2)%nat) else st) starts st in
    final.2 = 0%nat \/ (2 * w <= final.2 /\ final.2 + 2 * w <= length samples)%nat).
  { induction starts as [| i starts IH]; intros st Hst; [exact Hst |].
    cbn [fold_left]. apply IH.
    - intros j Hj. apply Hin. now right.
    - cbv zeta. destruct (_ >? st.1); [| exact Hst]. right. cbn [snd].
      assert (i + 4 * w <= length samples)%nat by (apply Hin; now left).
      replace (4 * w / 2)%nat with (2 * w)%nat; [lia |].
      replace (4 * w)%nat with ((2 * w) * 2)%nat by lia. symmetry. apply Nat.div_mul. lia. }
  apply (Hgen (Fin 0, 0%nat)). now left.
Qed.

Lemma detectClosestApproach_inside_witness :
  detectClosestApproach
    {| sqrt := fun x => x; applyWindowByType := fun l _ => l;
       getCoherentGain := fun _ _ => Fin 1; fft := fun l => l |}
    [Fin 0; Fin 0; Fin 0; Fin 0; Fin 1; Fin 1; Fin 1; Fin 1] (4 * 1) = 0%nat \/
  (2 * 1 <= detectClosestApproach
              {| sqrt := fun x => x; applyWindowByType := fun l _ => l;
                 getCoherentGain := fun _ _ => Fin 1; fft := fun l => l |}
              [Fin 0; Fin 0; Fin 0; Fin 0; Fin 1; Fin 1; Fin 1; Fin 1] (4 * 1) /\
   detectClosestApproach
     {| sqrt := fun x => x; applyWindowByType := fun l _ => l;
        getCoherentGain := fun _ _ => Fin 1; fft := fun l => l |}
     [Fin 0; Fin 0; Fin 0; Fin 0; Fin 1; Fin 1; Fin 1; Fin 1] (4 * 1) + 2 * 1
   <= length [Fin 0; Fin 0; Fin 0; Fin 0; Fin 1; Fin 1; Fin 1; Fin 1])%nat.
Proof.
  apply (detectClosestApproach_inside
           {| sqrt := fun x => x; applyWindowByType := fun l _ => l;
              getCoherentGain := fun _ _ => Fin 1; fft := fun l => l |}
           [Fin 0; Fin 0; Fin 0; Fin 0; Fin 1; Fin 1; Fin 1; Fin 1] 1).
  lia.
Defined.

(** *** The full detector on a short input *)








End DetectorFacts.

(** ** SpectrumAnalyzer: the bins and the peak *)

Module SpectrumMoreFacts.
Import Spectrum.

(** The transform length is the least power of two that is at least the
    number of samples. *)
Lemma fftLengthOf_spec n :
  (0 < n)%nat ->
  (n <= fftLengthOf n < 2 * n)%nat /\ exists k, fftLengthOf n = (2 ^ k)%nat.
Proof.
  intros Hn. unfold fftLengthOf. destruct n as [| m]; [lia |].
  set (a := Z.of_nat (S m)).
  assert (Ha : (0 < a)%Z) by (unfold a; lia).
  assert (Hk : (0 <= Z.log2_up a)%Z) by apply Z.log2_up_nonneg.
  split.
  - destruct (Z.eq_dec a 1) as [E | E].
    + rewrite E. cbn. unfold a in E. lia.
    + destruct (Z.log2_up_spec a ltac:(lia)) as [H1 H2].
      assert (Hpow : (2 ^ Z.log2_up a = 2 * 2 ^ Z.pred (Z.log2_up a))%Z).
      { rewrite <- Z.pow_succ_r.
        - now rewrite Z.succ_pred.
        - assert (0 < Z.log2_up a)%Z by (apply Z.log2_up_pos; lia). lia. }
      unfold a in *. lia.
  - exists (Z.to_nat (Z.log2_up a)).
    rewrite <- (Z2Nat.id (Z.log2_up a)) at 1 by exact Hk.
    generalize (Z.to_nat (Z.log2_up a)). intros k.
    change 2%Z with (Z.of_nat 2). rewrite <- Nat2Z.inj_pow. apply Nat2Z.id.
Qed.

Lemma fftLengthOf_one n : fftLengthOf n = 1%nat <-> n = 1%nat.
Proof.
  split.
  - intros H. destruct n as [| m]; [discriminate H |].
    destruct (fftLengthOf_spec (S m) ltac:(lia)) as [[H1 H2] _]. lia.
  - intros ->. reflexivity.
Qed.

(** A bin below the half length has a frequency below half the sample
    rate. *)
Lemma bin_below_nyquist (r : Q) (L i : nat) :
  (0 < r)%Q -> (i < L / 2)%nat ->
  (Fin 0 <=? (JS.of_nat i * Fin r) / JS.of_nat L) = true /\
  ((JS.of_nat i * Fin r) / JS.of_nat L <? Fin (r / 2)) = true.
Proof.
  intros Hr Hi.
  assert (H2 : (2 * i < L)%nat).
  { assert (2 * (L / 2) <= L)%nat by (apply Nat.Div0.mul_div_le). lia. }
  rewrite SpectrumFacts.bin_frequency by lia. cbn [JS.le JS.lt].
  assert (HL : (0 < inject_Z (Z.of_nat L))%Q).
  { change 0%Q with (inject_Z 0). rewrite <- Zlt_Qlt. lia. }
  assert (Hi0 : (0 <= inject_Z (Z.of_nat i))%Q).
  { change 0%Q with (inject_Z 0). rewrite <- Zle_Qle. lia. }
  assert (HiL : (2 * inject_Z (Z.of_nat i) < inject_Z (Z.of_nat L))%Q).
  { change 2%Q with (inject_Z 2). rewrite <- inject_Z_mult, <- Zlt_Qlt. lia. }
  set (x := inject_Z (Z.of_nat i)) in *. set (y := inject_Z (Z.of_nat L)) in *.
  split; qbool.
  - apply Qle_shift_div_l; [exact HL |]. nra.
  - apply Qlt_shift_div_r; [exact HL |].
    assert (E : (r / 2 * y == r * y * (1 # 2))%Q) by field. rewrite E. nra.
Qed.

(** X19: [calculatePowerSpectrum] throws exactly when the analyzer holds
    a single sample (the half length 0.5 is no array length).  Otherwise
    it returns, and leaves a power spectrum and a frequency array of
    L / 2 entries each, where L is 0 for no sample and else the power of
    two with length <= L < 2 * length; for a positive finite sample rate
    every frequency lies in [0, sampleRate / 2). *)
Theorem calculatePowerSpectrum_bins (K : Numerics) (this : SpectrumAnalyzer) (r : Q) :
  Spectrum.sampleRate this = Fin r -> (0 < r)%Q ->
  (length (samples this) = 1%nat ->
     exists msg, calculatePowerSpectrum K this = Throws msg) /\
  (length (samples this) <> 1%nat ->
     exists this' L power freqs,
       calculatePowerSpectrum K this = Returns this' /\
       powerSpectrum this' = Some power /\ frequencies this' = Some freqs /\
       length power = (L / 2)%nat /\ length freqs = (L / 2)%nat /\
       ((length (samples this) = 0 /\ L = 0)%nat \/
        ((length (samples this) <= L < 2 * length (samples this))%nat /\
         exists k, L = (2 ^ k)%nat)) /\
       Forall (fun f => (Fin 0 <=? f) = true /\ (f <? Fin (r / 2)) = true) freqs).
Proof.
  intros Hrate Hr. unfold calculatePowerSpectrum. cbv zeta.
  set (n := length (samples this)). set (L := fftLengthOf n).
  pose proof (fftLengthOf_one n) as H1. fold L in H1.
  split; intros Hn.
  - replace (L =? 1)%nat with true by (symmetry; apply Nat.eqb_eq; tauto). eauto.
  - replace (L =? 1)%nat with false by (symmetry; apply Nat.eqb_neq; tauto).
    unfold bins. eexists; exists L; eexists; eexists.
    split; [reflexivity |]. cbn [powerSpectrum frequencies].
    split; [reflexivity |]. split; [reflexivity |].
    rewrite !length_map, !length_seq. split; [reflexivity |]. split; [reflexivity |].
    split.
    + destruct n as [| m] eqn:En; [left; split; reflexivity | right].
      apply (fftLengthOf_spec (S m)). lia.
    + apply List.Forall_forall. intros f Hf. apply in_map_iff in Hf as (i & <- & Hi).
      apply in_seq in Hi. cbn [snd]. rewrite Hrate. apply bin_below_nyquist; [exact Hr | lia].
Qed.

Lemma calculatePowerSpectrum_bins_witness :
  (length (samples (new [Fin 1; Fin 2; Fin 3] (Fin 8) None)) = 1%nat ->
     exists msg,
       calculatePowerSpectrum
         {| sqrt := fun x => x; applyWindowByType := fun l _ => l;
            getCoherentGain := fun _ _ => Fin 1; fft := fun l => l |}
         (new [Fin 1; Fin 2; Fin 3] (Fin 8) None) = Throws msg) /\
  (length (samples (new [Fin 1; Fin 2; Fin 3] (Fin 8) None)) <> 1%nat ->
     exists this' L power freqs,
       calculatePowerSpectrum
         {| sqrt := fun x => x; applyWindowByType := fun l _ => l;
            getCoherentGain := fun _ _ => Fin 1; fft := fun l => l |}
         (new [Fin 1; Fin 2; Fin 3] (Fin 8) None) = Returns this' /\
       powerSpectrum this' = Some power /\ frequencies this' = Some freqs /\
       length power = (L / 2)%nat /\ length freqs = (L / 2)%nat /\
       ((length (samples (new [Fin 1; Fin 2; Fin 3] (Fin 8) None)) = 0 /\ L = 0)%nat \/
        ((length (samples (new [Fin 1; Fin 2; Fin 3] (Fin 8) None)) <= L
          < 2 * length (samples (new [Fin 1; Fin 2; Fin 3] (Fin 8) None)))%nat /\
         exists k, L = (2 ^ k)%nat)) /\
       Forall (fun f => (Fin 0 <=? f) = true /\ (f <? Fin (8 / 2)) = true) freqs).
Proof.
  apply (calculatePowerSpectrum_bins
           {| sqrt := fun x => x; applyWindowByType := fun l _ => l;
              getCoherentGain := fun _ _ => Fin 1; fft := fun l => l |}
           (new [Fin 1; Fin 2; Fin 3] (Fin 8) None) 8); reflexivity.
Defined.

(** *** The peak frequency *)

Lemma le_lt_trans a b c : (a <=? b) = true -> (b <? c) = true -> (a <? c) = true.
Proof.
  destruct a, b, c; simpl; try congruence. intros H1 H2. qbool. lra.
Qed.

(** One more bin. *)
Lemma peak_step (power : list num) (k : nat) (st : num * nat) :
  (1 <= k)%nat -> JS.is_nan (Arr.get power k) = false ->
  firstStrongest power k st.2 ->
  st.1 = (if (st.2 =? 0)%nat then Fin 0 else Arr.get power st.2) ->
  let st' := if Arr.get power k >? st.1 then (Arr.get power k, k) else st in
  firstStrongest power (S k) st'.2 /\
  st'.1 = (if (st'.2 =? 0)%nat then Fin 0 else Arr.get power st'.2).
Proof.
  intros Hk Hnan Hinv Hmax. cbv zeta. unfold JS.gt.
  assert (Hmaxnan : JS.is_nan st.1 = false).
  { rewrite Hmax. destruct Hinv as [[-> _] | (H1 & H2 & _)]; [reflexivity |].
    replace (st.2 =? 0)%nat with false by (symmetry; apply Nat.eqb_neq; lia).
    destruct (Arr.get power st.2); try discriminate; reflexivity. }
  destruct (st.1 <? Arr.get power k) eqn:E; cbn [fst snd].
  - replace (k =? 0)%nat with false by (symmetry; apply Nat.eqb_neq; lia).
    split; [| reflexivity]. right. split; [lia |].
    destruct Hinv as [[E0 Hall] | (H1 & Hpos & Hbefore & Hafter)].
    + rewrite E0 in Hmax. cbn in Hmax. rewrite Hmax in E.
      split; [exact E |]. split; [| intros i Hi; lia].
      intros i Hi. eapply le_lt_trans; [apply Hall; lia | exact E].
    + replace (st.2 =? 0)%nat with false in Hmax by (symmetry; apply Nat.eqb_neq; lia).
      rewrite Hmax in E.
      split; [eapply lt_trans; eassumption |]. split; [| intros i Hi; lia].
      intros i Hi. destruct (Nat.lt_trichotomy i st.2) as [Hlt | [-> | Hgt]].
      * eapply lt_trans; [apply Hbefore; lia | exact E].
      * exact E.
      * eapply le_lt_trans; [apply Hafter; lia | exact E].
  - split; [| exact Hmax].
    assert (Hle : (Arr.get power k <=? st.1) = true) by (apply lt_false_le; assumption).
    destruct Hinv as [[E0 Hall] | (H1 & Hpos & Hbefore & Hafter)].
    + left. split; [exact E0 |]. intros i Hi.
      destruct (Nat.eq_dec i k) as [-> | Hne]; [| apply Hall; lia].
      rewrite E0 in Hmax. cbn in Hmax. now rewrite Hmax in Hle.
    + right. split; [lia |]. split; [exact Hpos |]. split; [exact Hbefore |].
      intros i Hi. destruct (Nat.eq_dec i k) as [-> | Hne]; [| apply Hafter; lia].
      replace (st.2 =? 0)%nat with false in Hmax by (symmetry; apply Nat.eqb_neq; lia).
      now rewrite Hmax in Hle.
Qed.

Lemma peak_loop (power : list num) :
  Forall (fun p => JS.is_nan p = false) power ->
  forall n a st,
    (1 <= a)%nat -> (a + n <= length power)%nat ->
    firstStrongest power a st.2 ->
    st.1 = (if (st.2 =? 0)%nat then Fin 0 else Arr.get power st.2) ->
    firstStrongest power (a + n)
      (fold_left
         (fun (st : num * nat) (i : nat) =>
            if Arr.get power i >? st.1 then (Arr.get power i, i) else st)
         (seq a n) st).2.
Proof.
  intros Hok. induction n as [| n IH]; intros a st Ha Hlen Hinv Hmax.
  - now rewrite Nat.add_0_r.
  - cbn [seq fold_left].
    assert (Hnan : JS.is_nan (Arr.get power a) = false).
    { unfold Arr.get. destruct (lookup_lt_is_Some_2 power a ltac:(lia)) as [p Hp].
      rewrite Hp. rewrite List.Forall_forall in Hok. apply Hok.
      apply list_elem_of_In. eapply list_elem_of_lookup_2. exact Hp. }
    destruct (peak_step power a st Ha Hnan Hinv Hmax) as [Hinv' Hmax'].
    replace (a + S n)%nat with (S a + n)%nat by lia.
    apply IH; [lia | lia | exact Hinv' | exact Hmax'].
Qed.

(** X20: on a power spectrum whose powers are numbers,
    [findPeakFrequency] returns the frequency of the first of the
    strongest bins above the DC bin, provided its power is positive; when
    no bin above the DC bin has a positive power it returns the
    frequency of the DC bin, whatever the power of that bin, and on an
    empty spectrum it returns undefined. *)
Theorem findPeakFrequency_first_strongest (this : SpectrumAnalyzer)
    (power freqs : list num) :
  powerSpectrum this = Some power -> frequencies this = Some freqs ->
  Forall (fun p => JS.is_nan p = false) power ->
  exists peakIndex,
    findPeakFrequency this = Returns (freqs !! peakIndex) /\
    firstStrongest power (length power) peakIndex.
Proof.
  intros Hp Hf Hok. unfold findPeakFrequency. rewrite Hp, Hf.
  exists (peakIndexOf power). split; [reflexivity |]. unfold peakIndexOf.
  destruct (length power) as [| m] eqn:El.
  - cbn. left. split; [reflexivity |]. intros i Hi. lia.
  - replace (S m - 1)%nat with m by lia.
    replace (S m) with (1 + m)%nat by lia.
    apply peak_loop; [exact Hok | lia | lia | | reflexivity].
    left. split; [reflexivity |]. intros i Hi. lia.
Qed.

Lemma findPeakFrequency_first_strongest_witness :
  exists peakIndex,
    findPeakFrequency
      {| samples := []; sampleRate := Fin 8; windowType := "none";
         powerSpectrum := Some [Fin 9; Fin 2; Fin 5; Fin 5];
         frequencies := Some [Fin 0; Fin 1; Fin 2; Fin 3] |}
      = Returns ([Fin 0; Fin 1; Fin 2; Fin 3] !! peakIndex) /\
    firstStrongest [Fin 9; Fin 2; Fin 5; Fin 5] (length [Fin 9; Fin 2; Fin 5; Fin 5]) peakIndex.
Proof.
  apply (findPeakFrequency_first_strongest
           {| samples := []; sampleRate := Fin 8; windowType := "none";
              powerSpectrum := Some [Fin 9; Fin 2; Fin 5; Fin 5];
              frequencies := Some [Fin 0; Fin 1; Fin 2; Fin 3] |}
           [Fin 9; Fin 2; Fin 5; Fin 5] [Fin 0; Fin 1; Fin 2; Fin 3]);
    [reflexivity | reflexivity | repeat constructor].
Defined.

End SpectrumMoreFacts.

(** ** FrequencyAnalysis: variance, section quality, ranking and the
       analysis of two sections *)

Lemma add_nan_r a : a + NaN = NaN.
Proof. now destruct a. Qed.


(** Arithmetic on finite values. *)
Lemma fin_add a b : Fin a + Fin b = Fin (a + b).
Proof. reflexivity. Qed.

Lemma fin_minus a b : Fin a - Fin b = Fin (a + - b).
Proof. reflexivity. Qed.

Lemma fin_mul a b : Fin a * Fin b = Fin (a * b).
Proof. reflexivity. Qed.

Lemma fin_div a b : Qeq_bool b 0 = false -> Fin a / Fin b = Fin (a / b).
Proof. intros H. cbn. now rewrite H. Qed.

Lemma fin_min a b : JS.min (Fin a) (Fin b) = Fin (if JS.Qltb b a then b else a).
Proof. cbn. now destruct (JS.Qltb b a). Qed.

Lemma fin_max a b : JS.max (Fin a) (Fin b) = Fin (if JS.Qltb a b then b else a).
Proof. cbn. now destruct (JS.Qltb a b). Qed.

Lemma square_plus_nonzero (x c : Q) : (0 < c)%Q -> Qeq_bool (x * x + c) 0 = false.
Proof. intros Hc. qbool. intros H. assert (0 <= x * x)%Q by nra. lra. Qed.

Ltac fin_arith :=
  repeat first
    [ rewrite fin_add | rewrite fin_minus | rewrite fin_mul
    | rewrite fin_min | rewrite fin_max
    | rewrite fin_div by first [reflexivity | apply square_plus_nonzero; reflexivity] ].

Module AnalysisMoreFacts.
Import Analysis DualAnalysis.





(** *** The quality of a section *)

(** X22: for two or more frequencies [calculateSectionQuality] returns
    an overall confidence that is NaN: the frequency spread is computed
    into a constant of the inner block, and the [frequencyDistribution]
    that enters the weighted sum is the function-level variable of the
    other branch, still undefined.  For a single frequency of finite
    power p >= 0 the overall confidence is 0.5 + 0.4 * min(1, p / 0.001). *)
Theorem calculateSectionQuality_confidence :
  (forall f1 f2 rest,
     overallConfidence (calculateSectionQuality (f1 :: f2 :: rest)) = NaN /\
     frequencyDistribution (calculateSectionQuality (f1 :: f2 :: rest)) = NaN) /\
  (forall f (p : Q),
     Matcher.power f = Fin p -> (0 <= p)%Q ->
     overallConfidence (calculateSectionQuality [f]) ≃ Fin (0.5 + 0.4 * Qmin 1 (p / 0.001))).
Proof.
  split.
  - intros f1 f2 rest. unfold calculateSectionQuality. cbv zeta.
    cbn [overallConfidence frequencyDistribution]. split; [| reflexivity].
    change (NaN * Fin 0.2) with NaN. rewrite add_nan_r. reflexivity.
  - intros f p Hp Hpos. unfold calculateSectionQuality, calculateVariance. cbv zeta.
    cbn [overallConfidence map length fold_left Arr.maximum]. rewrite Hp.
    change (JS.max NInf (Fin p)) with (Fin p). change (JS.of_nat 1) with (Fin 1).
    fin_arith.
    set (v := ((0 + (p + - ((0 + p) / 1)) * (p + - ((0 + p) / 1))) / 1
               / ((0 + p) / 1 * ((0 + p) / 1) + 0.0000000001))%Q).
    assert (Hv : (v == 0)%Q).
    { unfold v. field. intros H. assert (0 <= p * p)%Q by nra. lra. }
    set (x := (p / 0.001)%Q).
    assert (Hx : (0 <= x)%Q) by (apply Qle_shift_div_l; [reflexivity | lra]).
    replace (JS.Qltb v 1) with true by (symmetry; qbool; lra).
    set (ss := if JS.Qltb x 1 then x else 1%Q).
    assert (Hss : (ss == Qmin 1 x)%Q /\ (0 <= ss <= 1)%Q).
    { unfold ss. destruct (JS.Qltb x 1) eqn:E; qbool.
      - rewrite Q.min_r by lra. split; [reflexivity | lra].
      - rewrite Q.min_l by lra. split; [reflexivity | lra]. }
    destruct Hss as [Essq Hss].
    set (total := (ss * 0.4 + 1 * 0.3 + 0.5 * 0.2 + (1 + - v) * 0.1)%Q).
    assert (Etotal : (total == 0.5 + 0.4 * ss)%Q) by (unfold total; rewrite Hv; ring).
    replace (JS.Qltb total 1) with true by (symmetry; qbool; lra).
    replace (JS.Qltb 0 total) with true by (symmetry; qbool; lra).
    cbn [JS.same]. rewrite Etotal, Essq. reflexivity.
Qed.


(** *** The analysis of two sections *)







(** *** The ranking *)

Lemma imap_lookup_rank (frequencies : list Matcher.FrequencyCandidate) i r :
  rankFrequencies frequencies !! i = Some r ->
  exists f, frequencies !! (rank r - 1)%nat = Some f /\ (1 <= rank r <= length frequencies)%nat /\
            frequency r = Matcher.frequency f /\ power r = Matcher.power f.
Proof.
  intros Hr. apply list_elem_of_lookup_2, list_elem_of_In in Hr.
  unfold rankFrequencies in Hr. cbv zeta in Hr. apply SortFacts.sort_In in Hr.
  apply list_elem_of_In, list_elem_of_lookup_1 in Hr as [j Hj].
  rewrite list_lookup_imap in Hj.
  destruct (frequencies !! j) as [f |] eqn:Ef; [| discriminate].
  cbn in Hj. injection Hj as <-. cbn [rank frequency power].
  exists f. replace (S j - 1)%nat with j by lia.
  apply lookup_lt_Some in Ef as Hlt. repeat split; try assumption; lia.
Qed.

(** X24: [rankFrequencies] returns every frequency it is given exactly
    once, with its power, and with the [rank] of its position in the
    input (1 for the first): the ranks of the result are a permutation of
    1 .. n, whatever the order the ranking scores put the result in. *)
Theorem rankFrequencies_ranks (frequencies : list Matcher.FrequencyCandidate) :
  length (rankFrequencies frequencies) = length frequencies /\
  Permutation (map rank (rankFrequencies frequencies)) (seq 1 (length frequencies)) /\
  (forall i r, rankFrequencies frequencies !! i = Some r ->
     exists f, frequencies !! (rank r - 1)%nat = Some f /\
               (1 <= rank r <= length frequencies)%nat /\
               frequency r = Matcher.frequency f /\ power r = Matcher.power f).
Proof.
  split; [| split; [| apply imap_lookup_rank]].
  - unfold rankFrequencies. cbv zeta. now rewrite SortFacts.sort_length, length_imap.
  - unfold rankFrequencies. cbv zeta.
    rewrite (SortFacts.sort_Permutation (Arr.descending rankingScore)).
    match goal with |- Permutation ?l ?r => replace l with r; [reflexivity |] end.
    apply list_eq. intros i. rewrite list_lookup_fmap, list_lookup_imap.
    destruct (frequencies !! i) as [f |] eqn:Ef.
    + apply lookup_lt_Some in Ef as Hlt. rewrite lookup_seq_lt by exact Hlt. reflexivity.
    + apply lookup_ge_None in Ef. now rewrite lookup_seq_ge by exact Ef.
Qed.

End AnalysisMoreFacts.

(** ** AudioProcessor: the normalization *)

Module ProcessorFacts.
Import AudioProcessor.




End ProcessorFacts.

(** ** SpeedAnalyzer: the transform size *)

Module SpeedAnalyzerFacts.
Import SpeedAnalyzer.

(** The loop of [getOptimalFFTSize] from [1024 * 2 ^ k]: it ends at
    [1024 * 2 ^ j] with [k <= j <= 5], where four times the size reaches
    the sample length unless [j = 5], and twice the size is below the
    sample length when the size was doubled at all. *)
Lemma doubled_from (m : nat) :
  forall (fuel n k : nat) (q : Q),
    (k + m = 5)%nat -> (q == inject_Z (1024 * 2 ^ Z.of_nat k))%Q ->
    exists (s : Q) (j : nat),
      doubled (S m + fuel) (JS.of_nat n) (Fin q) = Some (Fin s) /\
      (k <= j <= 5)%nat /\
      (s == inject_Z (1024 * 2 ^ Z.of_nat j))%Q /\
      ((Z.of_nat n <= 4 * (1024 * 2 ^ Z.of_nat j))%Z \/ j = 5%nat) /\
      ((k < j)%nat -> (2 * (1024 * 2 ^ Z.of_nat j) < Z.of_nat n)%Z).
Proof.
  induction m as [| m IH]; intros fuel n k q Hk Hq.
  - assert (k = 5%nat) by lia. subst k.
    exists q, 5%nat. cbn [doubled Nat.add]. unfold JS.of_nat, JS.of_Z.
    cbn [JS.div JS.lt]. change (Qeq_bool 4 0) with false. cbv iota.
    replace (JS.Qltb q 32768) with false.
    + rewrite andb_false_r.
      split; [reflexivity | split; [lia | split; [exact Hq | split; [now right | lia]]]].
    + symmetry. apply Bool.not_true_is_false. intros H. qbool.
      rewrite Hq in H. change (inject_Z (1024 * 2 ^ Z.of_nat 5)) with 32768%Q in H. lra.
  - cbn [doubled Nat.add]. unfold JS.of_nat, JS.of_Z.
    cbn [JS.div JS.lt JS.mul]. change (Qeq_bool 4 0) with false. cbv iota.
    assert (Hpow : (2 ^ Z.of_nat (S k) = 2 * 2 ^ Z.of_nat k)%Z).
    { rewrite Nat2Z.inj_succ. apply Z.pow_succ_r. lia. }
    assert (Hpos : (0 < 2 ^ Z.of_nat k)%Z) by (apply Z.pow_pos_nonneg; lia).
    destruct (JS.Qltb q (inject_Z (Z.of_nat n) / 4) && JS.Qltb q 32768) eqn:E.
    + apply andb_true_iff in E as [E1 E2]. qbool.
      destruct (IH fuel n (S k) (q * 2)%Q ltac:(lia)) as (s & j & Hs & Hj & Hsj & Hn & Hlt).
      { rewrite Hq, Hpow, !inject_Z_mult. change (inject_Z 2) with 2%Q.
        change (inject_Z 1024) with 1024%Q. ring. }
      exists s, j. unfold JS.of_nat, JS.of_Z in Hs.
      split; [exact Hs | split; [lia | split; [exact Hsj | split; [exact Hn |]]]].
      intros _. destruct (Nat.eq_dec j (S k)) as [-> | Hne]; [| apply Hlt; lia].
      rewrite Hpow.
      assert (H4 : (4 * q < inject_Z (Z.of_nat n))%Q).
      { assert (Eq : (inject_Z (Z.of_nat n) / 4 == inject_Z (Z.of_nat n) * (1 # 4))%Q)
          by (field; lra).
        rewrite Eq in E1. lra. }
      rewrite Hq in H4. change 4%Q with (inject_Z 4) in H4.
      rewrite <- inject_Z_mult, <- Zlt_Qlt in H4. lia.
    + exists q, k.
      split; [reflexivity | split; [lia | split; [exact Hq | split; [| lia]]]].
      apply andb_false_iff in E as [E | E].
      * left. apply Bool.not_true_iff_false in E.
        apply Z.le_ngt. intros Hlt. apply E. qbool.
        apply Qlt_shift_div_l; [lra |]. rewrite Hq.
        change 4%Q with (inject_Z 4). rewrite <- inject_Z_mult, <- Zlt_Qlt. lia.
      * destruct (Nat.eq_dec k 5) as [-> | Hne]; [now right |].
        exfalso. apply Bool.not_true_iff_false in E. apply E. qbool. rewrite Hq.
        change 32768%Q with (inject_Z 32768). rewrite <- Zlt_Qlt.
        assert (2 ^ Z.of_nat k <= 2 ^ 4)%Z by (apply Z.pow_le_mono_r; lia). lia.
Qed.

(** X26: [getOptimalFFTSize] always returns (its loop ends within five
    doublings).  For a sample length below 1024 it returns the sample
    length itself; from 1024 on it returns a power of two from 1024 to
    32768 that does not exceed the sample length, and that is at least a
    quarter of it unless it is 32768. *)
Theorem getOptimalFFTSize_power_of_two (fuel n : nat) :
  exists (size : num) (j : nat),
    getOptimalFFTSize (6 + fuel) (JS.of_nat n) = Some size /\
    (j <= 5)%nat /\
    ((n < 1024)%nat -> size = JS.of_nat n) /\
    ((1024 <= n)%nat ->
       size ≃ JS.of_nat (1024 * 2 ^ j) /\
       (1024 * 2 ^ j <= n)%nat /\
       ((n <= 4 * (1024 * 2 ^ j))%nat \/ j = 5%nat)).
Proof.
  destruct (doubled_from 5 fuel n 0 1024 ltac:(lia) ltac:(reflexivity))
    as (s & j & Hs & Hj & Hsj & Hn & Hlt).
  assert (Hnat : Z.of_nat (1024 * 2 ^ j) = (1024 * 2 ^ Z.of_nat j)%Z).
  { rewrite Nat2Z.inj_mul, Nat2Z.inj_pow. reflexivity. }
  unfold getOptimalFFTSize. change (6 + fuel)%nat with (S 5 + fuel)%nat. rewrite Hs.
  eexists. exists j. split; [reflexivity |]. split; [lia |].
  unfold JS.of_nat, JS.of_Z, JS.min. cbn [JS.lt].
  split.
  - intros Hsmall.
    assert (j = 0%nat).
    { destruct j; [reflexivity |]. specialize (Hlt ltac:(lia)).
      assert (0 < 2 ^ Z.of_nat (S j))%Z by (apply Z.pow_pos_nonneg; lia). lia. }
    subst j. replace (JS.Qltb (inject_Z (Z.of_nat n)) s) with true; [reflexivity |].
    symmetry. qbool. rewrite Hsj. rewrite <- Zlt_Qlt. cbn. lia.
  - intros Hbig.
    assert (Hle : (1024 * 2 ^ Z.of_nat j <= Z.of_nat n)%Z).
    { destruct j; [cbn; lia |]. specialize (Hlt ltac:(lia)).
      assert (0 < 2 ^ Z.of_nat (S j))%Z by (apply Z.pow_pos_nonneg; lia). lia. }
    replace (JS.Qltb (inject_Z (Z.of_nat n)) s) with false.
    + cbn [JS.same]. rewrite Hsj, Hnat. split; [reflexivity |].
      split; [lia |]. destruct Hn as [Hn | Hn]; [left; lia | now right].
    + symmetry. apply Bool.not_true_iff_false. intros H. qbool.
      rewrite Hsj in H. rewrite <- Zlt_Qlt in H. lia.
Qed.


(** *** The frequencies of a section *)

Lemma getOptimalFFTSize_returns (fuel n : nat) :
  exists size : num,
    getOptimalFFTSize (6 + fuel) (JS.of_nat n) = Some size /\
    ((n < 1024)%nat -> size = JS.of_nat n).
Proof.
  destruct (doubled_from 5 fuel n 0 1024 ltac:(lia) ltac:(reflexivity))
    as (s & j & Hs & Hj & Hsj & Hn & Hlt).
  unfold getOptimalFFTSize. change (6 + fuel)%nat with (S 5 + fuel)%nat. rewrite Hs.
  eexists. split; [reflexivity |]. intros Hsmall.
  assert (j = 0%nat).
  { destruct j; [reflexivity |]. specialize (Hlt ltac:(lia)).
    assert (0 < 2 ^ Z.of_nat (S j))%Z by (apply Z.pow_pos_nonneg; lia). lia. }
  subst j. unfold JS.of_nat, JS.of_Z, JS.min. cbn [JS.lt].
  replace (JS.Qltb (inject_Z (Z.of_nat n)) s) with true; [reflexivity |].
  symmetry. qbool. rewrite Hsj. rewrite <- Zlt_Qlt. cbn. lia.
Qed.

(** Half an odd number is no array length. *)
Lemma arrayLength_odd (n : nat) :
  Nat.odd n = true -> arrayLength (JS.of_nat n / Fin 2) = None.
Proof.
  intros Hodd. apply Nat.odd_spec in Hodd as [m ->].
  unfold JS.of_nat, JS.of_Z. cbn [JS.div]. change (Qeq_bool 2 0) with false. cbv iota.
  unfold arrayLength.
  set (q := (inject_Z (Z.of_nat (2 * m + 1)) / 2)%Q).
  replace (Qeq_bool q (inject_Z (Qfloor q))) with false; [reflexivity |].
  symmetry. apply Qeq_bool_false_iff. intros E.
  assert (E2 : (inject_Z (Z.of_nat (2 * m + 1)) == inject_Z (2 * Qfloor q))%Q).
  { rewrite inject_Z_mult, <- E. unfold q. change (inject_Z 2) with 2%Q. field. }
  apply (proj1 (inject_Z_injective _ _)) in E2. lia.
Qed.

Lemma slice_ten {A : Type} (l : list A) :
  Arr.slice l (Fin 0) (Some (Fin 10)) = take 10 l.
Proof. apply (SpectrumFacts.slice_from_zero l 10). Qed.

(** X27: [analyzeFrequencies] always returns, with at most ten
    frequencies, each from 50 Hz to 2000 Hz.  On a section of odd length
    below 1024 it returns no frequency at all: the transform size is the
    odd length, half of it is no array length, and the error of
    [performFFT] is caught. *)
Theorem analyzeFrequencies_result (fuel : nat) (cos : num -> num) (pi : num)
    (samples : list num) (sampleRate : num) :
  exists result : list Matcher.FrequencyCandidate,
    analyzeFrequencies (6 + fuel) cos pi samples sampleRate = Some result /\
    (length result <= 10)%nat /\
    (forall bin, In bin result ->
       (Fin 50 <=? Matcher.frequency bin) = true /\
       (Matcher.frequency bin <=? Fin 2000) = true) /\
    ((length samples < 1024)%nat -> Nat.odd (length samples) = true -> result = []).
Proof.
  destruct (getOptimalFFTSize_returns fuel (length samples)) as (size & Hsize & Hsmall).
  unfold analyzeFrequencies. rewrite Hsize.
  destruct (performFFT cos pi samples size sampleRate) as [freqBins | msg] eqn:E.
  - eexists. split; [reflexivity |]. rewrite slice_ten.
    split; [rewrite length_take; lia |]. split.
    + intros bin Hin.
      match type of Hin with In _ (take 10 ?l) =>
        assert (Hi : In bin (take 10 l ++ drop 10 l)) by (apply in_or_app; now left)
      end.
      rewrite take_drop in Hi. apply SortFacts.sort_In in Hi.
      apply filter_In in Hi as [_ Hr]. unfold inRange in Hr.
      apply andb_true_iff in Hr. exact Hr.
    + intros Hlt Hodd. specialize (Hsmall Hlt). subst size.
      unfold performFFT in E. rewrite (arrayLength_odd _ Hodd) in E. discriminate E.
  - exists []. split; [reflexivity |]. split; [cbn; lia |]. split; [| reflexivity].
    intros bin [].
Qed.

End SpeedAnalyzerFacts.

(** ** ApproachDetector: the validation of a detection *)

Module ValidationFacts.
Import Approach ApproachDetector DetectionValidation.

(** The energy analysis returns for every sample rate but -Infinity. *)
Lemma analyzeEnergyDistribution_returns (K : Numerics) (log10 : num -> num)
    (samples : list num) (sampleRate : num) :
  sampleRate <> NInf ->
  exists energyAnalysis,
    analyzeEnergyDistribution K log10 samples sampleRate = Some energyAnalysis.
Proof.
  intros Hrate. unfold analyzeEnergyDistribution. cbv zeta.
  assert (H : JS.floor (Fin 0.1 * sampleRate) <> NInf).
  { destruct sampleRate as [q | | |]; try discriminate; congruence. }
  destruct (JS.floor (Fin 0.1 * sampleRate)) as [q | | |]; try congruence;
    cbn [calculateEnergyProfile];
    match goal with |- context [(?n =? 0)%nat] => destruct (n =? 0)%nat end;
    eexists; reflexivity.
Qed.

(** X28: for every sample rate but -Infinity [validateDetection]
    returns, and it accepts a detection exactly when one was found, its
    confidence is not below 0.3, and its index lies neither in the first
    nor in the last tenth of the samples; a medium confidence or a low
    dynamic range is reported as an issue but never rejects by
    itself. *)
Theorem validateDetection_accepts (K : Numerics) (log10 : num -> num)
    (detection : Detection) (samples : list num) (sampleRate : num) :
  sampleRate <> NInf ->
  exists validation,
    validateDetection K log10 detection samples sampleRate = Some validation /\
    isValid validation =
      found detection
      && negb (detectionConfidence detection <? Fin 0.3)
      && negb (JS.of_Z (closestApproachIndex detection)
               <? JS.of_nat (length samples) * Fin 0.1)
      && negb (JS.of_Z (closestApproachIndex detection)
               >? JS.of_nat (length samples) - JS.of_nat (length samples) * Fin 0.1).
Proof.
  intros Hrate.
  destruct (analyzeEnergyDistribution_returns K log10 samples sampleRate Hrate) as [e He].
  unfold validateDetection. rewrite He.
  destruct (found detection); cbn [negb]; [| eexists; split; reflexivity].
  cbv zeta.
  destruct (detectionConfidence detection <? Fin 0.3);
    [| destruct (detectionConfidence detection <? Fin 0.6)];
    (destruct (JS.of_Z (closestApproachIndex detection)
               <? JS.of_nat (length samples) * Fin 0.1);
     [| destruct (JS.of_Z (closestApproachIndex detection)
                  >? JS.of_nat (length samples) - JS.of_nat (length samples) * Fin 0.1)]);
    destruct (dynamicRange e <? Fin 10);
    eexists; split; reflexivity.
Qed.

Lemma validateDetection_accepts_witness :
  exists validation,
    validateDetection
           {| sqrt := fun x => x; applyWindowByType := fun l _ => l;
              getCoherentGain := fun _ _ => Fin 1; fft := fun l => l |}
           (fun x => x)
           {| found := true; detectionConfidence := Fin 0.8;
              reason := HighConfidencePeak (Fin 0.8);
              closestApproachIndex := 1; estimatedIndex := 1;
              selected := None; warning := None |}
           [Fin 1; Fin 2] (Fin 44100) = Some validation /\
    isValid validation =
      found {| found := true; detectionConfidence := Fin 0.8;
              reason := HighConfidencePeak (Fin 0.8);
              closestApproachIndex := 1; estimatedIndex := 1;
              selected := None; warning := None |}
      && negb (detectionConfidence
           {| found := true; detectionConfidence := Fin 0.8;
              reason := HighConfidencePeak (Fin 0.8);
              closestApproachIndex := 1; estimatedIndex := 1;
              selected := None; warning := None |} <? Fin 0.3)
      && negb (JS.of_Z (closestApproachIndex
           {| found := true; detectionConfidence := Fin 0.8;
              reason := HighConfidencePeak (Fin 0.8);
              closestApproachIndex := 1; estimatedIndex := 1;
              selected := None; warning := None |})
               <? JS.of_nat (length [Fin 1; Fin 2]) * Fin 0.1)
      && negb (JS.of_Z (closestApproachIndex
           {| found := true; detectionConfidence := Fin 0.8;
              reason := HighConfidencePeak (Fin 0.8);
              closestApproachIndex := 1; estimatedIndex := 1;
              selected := None; warning := None |})
               >? JS.of_nat (length [Fin 1; Fin 2])
                  - JS.of_nat (length [Fin 1; Fin 2]) * Fin 0.1).
Proof.
  apply (validateDetection_accepts
           {| sqrt := fun x => x; applyWindowByType := fun l _ => l;
              getCoherentGain := fun _ _ => Fin 1; fft := fun l => l |}
           (fun x => x)
           {| found := true; detectionConfidence := Fin 0.8;
              reason := HighConfidencePeak (Fin 0.8);
              closestApproachIndex := 1; estimatedIndex := 1;
              selected := None; warning := None |}
           [Fin 1; Fin 2] (Fin 44100)).
  discriminate.
Defined.

End ValidationFacts.

(** ** The FFT: the length check *)

Module FftFacts.
Import Fft.

(** The bit test of a power of two. *)
Lemma land_pred_power (z : Z) :
  (0 < z)%Z -> (Z.land z (z - 1) = 0 <-> exists a, 0 <= a /\ z = 2 ^ a)%Z.
Proof.
  intros Hz. split.
  - intros Hland. exists (Z.log2 z). split; [apply Z.log2_nonneg |].
    destruct (Z.log2_spec z Hz) as [Hlo Hhi].
    destruct (Z.eq_dec z (2 ^ Z.log2 z)) as [E | E]; [exact E | exfalso].
    assert (Hbit : Z.testbit (Z.land z (z - 1)) (Z.log2 z) = true).
    { rewrite Z.land_spec, (Z.bit_log2 z Hz). cbn [andb].
      assert (Hlog : Z.log2 (z - 1) = Z.log2 z).
      { apply Z.log2_unique; [apply Z.log2_nonneg |]. rewrite <- Z.add_1_r in Hhi |- *. lia. }
      rewrite <- Hlog. apply Z.bit_log2.
      assert (0 < 2 ^ Z.log2 z)%Z by (apply Z.pow_pos_nonneg; [lia | apply Z.log2_nonneg]).
      lia. }
    rewrite Hland, Z.bits_0 in Hbit. discriminate Hbit.
  - intros (a & Ha & ->).
    replace (2 ^ a - 1)%Z with (Z.ones a) by (rewrite Z.ones_equiv; lia).
    rewrite Z.land_ones by exact Ha. apply Z_mod_same_full.
Qed.

Lemma toInt32_small (z : Z) : (0 <= z < 2 ^ 31)%Z -> toInt32 z = z.
Proof.
  intros H. unfold toInt32. cbv zeta. rewrite Z.mod_small by lia.
  replace (z <? 2 ^ 31)%Z with true by (symmetry; apply Z.ltb_lt; lia). reflexivity.
Qed.

(** The check of [fft] on a length below 2^31. *)
Lemma notPowerOfTwo_spec (n : nat) :
  (Z.of_nat n < 2 ^ 31)%Z ->
  notPowerOfTwo n = false <-> n = 0%nat \/ exists k : nat, n = (2 ^ k)%nat.
Proof.
  intros Hn. unfold notPowerOfTwo. rewrite negb_false_iff, Z.eqb_eq.
  destruct n as [| m].
  - split; [now left | reflexivity].
  - rewrite !toInt32_small by lia.
    rewrite (land_pred_power (Z.of_nat (S m)) ltac:(lia)). split.
    + intros (a & Ha & E). right. exists (Z.to_nat a).
      apply Nat2Z.inj. rewrite E, Nat2Z.inj_pow, Z2Nat.id by exact Ha. reflexivity.
    + intros [H | (k & E)]; [discriminate H |].
      exists (Z.of_nat k). split; [lia |]. rewrite E, Nat2Z.inj_pow. reflexivity.
Qed.

(** X29: on a signal of fewer than 2^31 samples [fft] throws exactly
    when the number of samples is neither 0 nor a power of two; the
    empty signal passes the check and gives the empty array. *)
Theorem fft_throws_iff (fuel : nat) (T : Trig) (signal : list num) :
  (Z.of_nat (length signal) < 2 ^ 31)%Z ->
  ((exists message, fft fuel T signal = Some (Throws message)) <->
   ~ (length signal = 0%nat \/ exists k : nat, length signal = (2 ^ k)%nat)) /\
  fft (S fuel) T [] = Some (Returns []).
Proof.
  intros Hn. pose proof (notPowerOfTwo_spec (length signal) Hn) as Hspec.
  split.
  - unfold fft. destruct (notPowerOfTwo (length signal)).
    + split; [| intros _; eexists; reflexivity].
      intros _ H. apply Hspec in H. discriminate H.
    + split.
      * intros [message H].
        destruct (fftRecursive fuel T (complexOf signal) (length signal)); discriminate H.
      * intros H. exfalso. apply H, Hspec. reflexivity.
  - reflexivity.
Qed.

Lemma fft_throws_iff_witness :
  ((exists message,
      fft 3 {| cos := fun _ => Fin 1; sin := fun _ => Fin 0; PI := Fin 3 |}
        [Fin 1; Fin 2; Fin 3] = Some (Throws message)) <->
   ~ (length [Fin 1; Fin 2; Fin 3] = 0%nat \/
      exists k : nat, length [Fin 1; Fin 2; Fin 3] = (2 ^ k)%nat)) /\
  fft 4 {| cos := fun _ => Fin 1; sin := fun _ => Fin 0; PI := Fin 3 |} []
    = Some (Returns []).
Proof.
  apply (fft_throws_iff 3 {| cos := fun _ => Fin 1; sin := fun _ => Fin 0; PI := Fin 3 |}
           [Fin 1; Fin 2; Fin 3]).
  cbn. lia.
Defined.


(** ** The FFT: the first bin *)

Lemma is_fin_Fin (a : num) : JS.is_fin a -> exists q, a = Fin q.
Proof. destruct a as [q | | |]; try contradiction. now exists q. Qed.

Lemma same_Fin (a : num) (q : Q) : a ≃ Fin q -> exists q', a = Fin q' /\ (q' == q)%Q.
Proof. destruct a as [q' | | |]; try contradiction. intros H. now exists q'. Qed.

Lemma sums_fin (n : nat) :
  forall x : list num, (length x <= n)%nat -> Forall JS.is_fin x ->
    JS.is_fin (realSum x) /\ JS.is_fin (imagSum x).
Proof.
  induction n as [| n IH]; intros x Hlen Hfin.
  - destruct x; [split; exact I | cbn in Hlen; lia].
  - destruct x as [| a [| b rest]]; try (split; exact I).
    inversion Hfin as [| ? ? Ha Hrest]; subst.
    inversion Hrest as [| ? ? Hb Hrest']; subst.
    destruct (IH rest ltac:(cbn in Hlen; lia) Hrest') as [Hr Hi].
    apply is_fin_Fin in Ha as [qa ->]. apply is_fin_Fin in Hb as [qb ->].
    apply is_fin_Fin in Hr as [qr Er]. apply is_fin_Fin in Hi as [qi Ei].
    cbn [realSum imagSum]. rewrite Er, Ei. split; exact I.
Qed.

Lemma flat_map_seq_shift {A : Type} (f g : nat -> list A) (n : nat) :
  (forall i, f (S i) = g i) ->
  forall a, flat_map f (seq (S a) n) = flat_map g (seq a n).
Proof.
  intros H. induction n as [| n IH]; intros a; [reflexivity |].
  cbn [seq flat_map]. now rewrite H, IH.
Qed.

Lemma half_double (h : nat) : (2 * h / 2 = h)%nat.
Proof. rewrite Nat.mul_comm. apply Nat.div_mul. lia. Qed.

Lemma evenOf_cons (a b c d : num) (rest : list num) (h : nat) :
  evenOf (a :: b :: c :: d :: rest) (2 * S h) = a :: b :: evenOf rest (2 * h).
Proof.
  unfold evenOf. rewrite !half_double. cbn [seq flat_map].
  rewrite (flat_map_seq_shift _
             (fun i => [Arr.get rest (i * 4); Arr.get rest (i * 4 + 1)])); [reflexivity |].
  intros i. reflexivity.
Qed.

Lemma oddOf_cons (a b c d : num) (rest : list num) (h : nat) :
  oddOf (a :: b :: c :: d :: rest) (2 * S h) = c :: d :: oddOf rest (2 * h).
Proof.
  unfold oddOf. rewrite !half_double. cbn [seq flat_map].
  rewrite (flat_map_seq_shift _
             (fun i => [Arr.get rest (i * 4 + 2); Arr.get rest (i * 4 + 3)]));
    [reflexivity |].
  intros i. reflexivity.
Qed.

(** The two halves of a complex array of [2 * h] finite elements: their
    lengths, and their sums, which add up to the sums of the array. *)
Lemma halves (h : nat) :
  forall x : list num, length x = (4 * h)%nat -> Forall JS.is_fin x ->
    Forall JS.is_fin (evenOf x (2 * h)) /\ Forall JS.is_fin (oddOf x (2 * h)) /\
    length (evenOf x (2 * h)) = (2 * h)%nat /\ length (oddOf x (2 * h)) = (2 * h)%nat /\
    realSum (evenOf x (2 * h)) + realSum (oddOf x (2 * h)) ≃ realSum x /\
    imagSum (evenOf x (2 * h)) + imagSum (oddOf x (2 * h)) ≃ imagSum x.
Proof.
  induction h as [| h IH]; intros x Hlen Hfin.
  - destruct x; [| discriminate Hlen]. cbn. repeat split; try constructor; reflexivity.
  - destruct x as [| a [| b [| c [| d rest]]]]; try (cbn in Hlen; lia).
    inversion Hfin as [| ? ? Ha H1]; subst. inversion H1 as [| ? ? Hb H2]; subst.
    inversion H2 as [| ? ? Hc H3]; subst. inversion H3 as [| ? ? Hd Hrest]; subst.
    destruct (IH rest ltac:(cbn in Hlen; lia) Hrest)
      as (HfE & HfO & HlE & HlO & Hre & Him).
    rewrite evenOf_cons, oddOf_cons.
    split; [repeat constructor; assumption |].
    split; [repeat constructor; assumption |].
    split; [cbn [length]; lia |]. split; [cbn [length]; lia |].
    destruct (sums_fin _ _ (Nat.le_refl _) HfE) as [HrE HiE].
    destruct (sums_fin _ _ (Nat.le_refl _) HfO) as [HrO HiO].
    destruct (sums_fin _ _ (Nat.le_refl _) Hrest) as [Hr Hi].
    apply is_fin_Fin in Ha as [qa ->]. apply is_fin_Fin in Hb as [qb ->].
    apply is_fin_Fin in Hc as [qc ->]. apply is_fin_Fin in Hd as [qd ->].
    apply is_fin_Fin in HrE as [rE ErE]. apply is_fin_Fin in HiE as [iE EiE].
    apply is_fin_Fin in HrO as [rO ErO]. apply is_fin_Fin in HiO as [iO EiO].
    apply is_fin_Fin in Hr as [r Er]. apply is_fin_Fin in Hi as [i Ei].
    cbn [realSum imagSum]. rewrite ErE, ErO, EiE, EiO, Er, Ei in *.
    cbn [JS.add JS.same] in *. split; [rewrite <- Hre | rewrite <- Him]; ring.
Qed.

(** The last loop of [fftRecursive] keeps the length of [x], and from
    [k] on leaves the entries below [2 * k] as they are. *)
Lemma combine_length (T : Trig) (even odd : list num) (N : nat) (x : list num) (k : nat) :
  length (combine T even odd N x k) = length x.
Proof. unfold combine. cbv zeta. now rewrite !length_insert. Qed.

Lemma combined_length (T : Trig) (even odd : list num) (N : nat) (ks : list nat) :
  forall x, length (fold_left (combine T even odd N) ks x) = length x.
Proof.
  induction ks as [| k ks IH]; intros x; [reflexivity |].
  cbn [fold_left]. now rewrite IH, combine_length.
Qed.

Lemma combined_low (T : Trig) (even odd : list num) (N i : nat) (n : nat) :
  forall (a : nat) (x : list num), (i < 2 * a)%nat ->
    fold_left (combine T even odd N) (seq a n) x !! i = x !! i.
Proof.
  induction n as [| n IH]; intros a x Hi; [reflexivity |].
  cbn [seq fold_left]. rewrite IH by lia.
  unfold combine. cbv zeta. rewrite !list_lookup_insert_ne by lia. reflexivity.
Qed.

(** The first two entries after the last loop. *)
Lemma combined_first (T : Trig) (even odd x : list num) (N : nat) :
  (2 <= N)%nat -> (2 <= length x)%nat ->
  let angle := (Fin (-2) * PI T * JS.of_nat 0) / JS.of_nat N in
  let t_real := Arr.get odd 0 * cos T angle - Arr.get odd 1 * sin T angle in
  let t_imag := Arr.get odd 0 * sin T angle + Arr.get odd 1 * cos T angle in
  Arr.get (fold_left (combine T even odd N) (seq 0 (N / 2)) x) 0 = Arr.get even 0 + t_real /\
  Arr.get (fold_left (combine T even odd N) (seq 0 (N / 2)) x) 1 = Arr.get even 1 + t_imag.
Proof.
  intros HN Hx. cbv zeta.
  assert (Hh : (1 <= N / 2)%nat) by (apply Nat.div_le_lower_bound; lia).
  destruct (N / 2)%nat as [| h] eqn:Eh; [lia |].
  cbn [seq fold_left]. unfold Arr.get. rewrite !combined_low by lia.
  unfold combine. cbv zeta. rewrite Eh.
  cbn [Nat.mul Nat.add].
  split.
  - rewrite !list_lookup_insert_ne by lia.
    rewrite list_lookup_insert, decide_True by (split; [reflexivity | lia]). reflexivity.
  - rewrite 2!list_lookup_insert_ne by lia.
    rewrite list_lookup_insert, decide_True
      by (split; [reflexivity | rewrite length_insert; lia]).
    reflexivity.
Qed.

Section Transform.

Variable T : Trig.
Hypothesis PI_finite : JS.is_fin (PI T).
Hypothesis cos_zero : forall q : Q, (q == 0)%Q -> cos T (Fin q) ≃ Fin 1.
Hypothesis sin_zero : forall q : Q, (q == 0)%Q -> sin T (Fin q) ≃ Fin 0.

(** The angle of the first step of the last loop is 0. *)
Lemma first_angle (N : nat) :
  (2 <= N)%nat ->
  exists q, (Fin (-2) * PI T * JS.of_nat 0) / JS.of_nat N = Fin q /\ (q == 0)%Q.
Proof.
  intros HN. destruct (is_fin_Fin _ PI_finite) as [p ->].
  unfold JS.of_nat, JS.of_Z. cbn [JS.mul JS.div].
  assert (HQ : ~ (inject_Z (Z.of_nat N) == 0)%Q).
  { change 0%Q with (inject_Z 0). rewrite inject_Z_injective. lia. }
  replace (Qeq_bool (inject_Z (Z.of_nat N)) 0) with false
    by (symmetry; apply Qeq_bool_false_iff; exact HQ).
  eexists. split; [reflexivity |]. change (inject_Z (Z.of_nat 0)) with 0%Q.
  field. exact HQ.
Qed.

(** [fftRecursive] on [2 ^ k] finite complex numbers returns within
    [k + 1] levels of recursion, keeps the length of the array, and
    leaves the sum of the elements in the first one. *)
Lemma fftRecursive_first (k : nat) :
  forall (fuel : nat) (x : list num),
    (k < fuel)%nat -> length x = (2 * 2 ^ k)%nat -> Forall JS.is_fin x ->
    exists out,
      fftRecursive fuel T x (2 ^ k) = Some out /\ length out = length x /\
      Arr.get out 0 ≃ realSum x /\ Arr.get out 1 ≃ imagSum x.
Proof.
  induction k as [| k IH]; intros fuel x Hfuel Hlen Hfin.
  - destruct fuel as [| fuel]; [lia |]. exists x. cbn [fftRecursive Nat.pow Nat.leb].
    split; [reflexivity |]. split; [reflexivity |].
    destruct x as [| a [| b [| c rest]]]; try discriminate Hlen.
    inversion Hfin as [| ? ? Ha H1]; subst. inversion H1 as [| ? ? Hb _]; subst.
    apply is_fin_Fin in Ha as [qa ->]. apply is_fin_Fin in Hb as [qb ->].
    cbn. split; ring.
  - destruct fuel as [| fuel]; [lia |]. cbn [fftRecursive].
    assert (Hpos : (0 < 2 ^ k)%nat) by (apply Nat.neq_0_lt_0, Nat.pow_nonzero; lia).
    assert (HN : (2 ^ S k = 2 * 2 ^ k)%nat) by reflexivity.
    replace (2 ^ S k <=? 1)%nat with false by (symmetry; apply Nat.leb_gt; lia).
    rewrite HN, half_double.
    destruct (halves (2 ^ k) x ltac:(lia) Hfin) as (HfE & HfO & HlE & HlO & Hre & Him).
    destruct (IH fuel _ ltac:(lia) HlE HfE) as (even & -> & HeL & He0 & He1).
    destruct (IH fuel _ ltac:(lia) HlO HfO) as (odd & -> & HoL & Ho0 & Ho1).
    eexists. split; [reflexivity |]. split; [apply combined_length |].
    destruct (combined_first T even odd x (2 * 2 ^ k) ltac:(lia) ltac:(lia)) as [E0 E1].
    rewrite half_double in E0, E1. rewrite E0, E1.
    destruct (first_angle (2 * 2 ^ k) ltac:(lia)) as (q & -> & Hq).
    pose proof (cos_zero q Hq) as Hc. pose proof (sin_zero q Hq) as Hs.
    destruct (sums_fin _ _ (Nat.le_refl _) HfE) as [HrE HiE].
    destruct (sums_fin _ _ (Nat.le_refl _) HfO) as [HrO HiO].
    destruct (sums_fin _ _ (Nat.le_refl _) Hfin) as [Hr Hi].
    apply is_fin_Fin in HrE as [rE ErE]. apply is_fin_Fin in HiE as [iE EiE].
    apply is_fin_Fin in HrO as [rO ErO]. apply is_fin_Fin in HiO as [iO EiO].
    apply is_fin_Fin in Hr as [r Er]. apply is_fin_Fin in Hi as [i Ei].
    rewrite ErE, ErO, EiE, EiO, Er, Ei in *.
    apply same_Fin in He0 as (e0 & -> & He0). apply same_Fin in He1 as (e1 & -> & He1).
    apply same_Fin in Ho0 as (o0 & -> & Ho0). apply same_Fin in Ho1 as (o1 & -> & Ho1).
    apply same_Fin in Hc as (c & -> & Hc). apply same_Fin in Hs as (s & -> & Hs).
    cbn [JS.add JS.sub JS.neg JS.mul JS.same] in *.
    rewrite He0, He1, Ho0, Ho1, Hc, Hs, <- Hre, <- Him. split; ring.
Qed.

Lemma complexOf_sums (signal : list num) :
  Forall JS.is_fin signal ->
  Forall JS.is_fin (complexOf signal) /\
  length (complexOf signal) = (2 * length signal)%nat /\
  realSum (complexOf signal) ≃ fold_right JS.add (Fin 0) signal /\
  imagSum (complexOf signal) ≃ Fin 0.
Proof using Type.
  induction 1 as [| a l Ha Hl (IHf & IHl & IHr & IHi)].
  - cbn. repeat split; try constructor; reflexivity.
  - change (complexOf (a :: l)) with (a :: Fin 0 :: complexOf l).
    split; [repeat constructor; assumption |]. split; [cbn [length]; lia |].
    cbn [realSum imagSum fold_right]. split.
    + apply same_add; [apply same_refl | exact IHr].
    + apply same_Fin in IHi as (i & -> & Hi). cbn. rewrite Hi. ring.
Qed.

(** X30: on a finite signal of [2 ^ k] samples, with [Math.cos] and
    [Math.sin] giving 1 and 0 at 0, [fft] returns [2 * 2 ^ k] numbers,
    the first two of which are the sum of the samples and 0: the first
    bin of the transform is the sum of the signal. *)
Theorem fft_first_bin (signal : list num) (k fuel : nat) :
  Forall JS.is_fin signal -> length signal = (2 ^ k)%nat -> (k <= 30)%nat ->
  (k < fuel)%nat ->
  exists complex,
    fft fuel T signal = Some (Returns complex) /\
    length complex = (2 * length signal)%nat /\
    Arr.get complex 0 ≃ fold_right JS.add (Fin 0) signal /\
    Arr.get complex 1 ≃ Fin 0.
Proof.
  intros Hfin Hlen Hk Hfuel.
  destruct (complexOf_sums signal Hfin) as (Hcf & Hcl & Hcr & Hci).
  assert (Hsmall : (Z.of_nat (length signal) < 2 ^ 31)%Z).
  { rewrite Hlen, Nat2Z.inj_pow. change (Z.of_nat 2) with 2%Z.
    assert (2 ^ Z.of_nat k <= 2 ^ 30)%Z by (apply Z.pow_le_mono_r; lia). lia. }
  unfold fft.
  replace (notPowerOfTwo (length signal)) with false
    by (symmetry; apply (notPowerOfTwo_spec _ Hsmall); right; now exists k).
  rewrite Hlen.
  destruct (fftRecursive_first k fuel (complexOf signal) Hfuel ltac:(lia) Hcf)
    as (out & -> & HoL & Ho0 & Ho1).
  exists out. split; [reflexivity |]. split; [lia |].
  split; [eapply same_trans; eassumption | eapply same_trans; eassumption].
Qed.

End Transform.

Lemma fft_first_bin_witness :
  exists complex,
    fft 2 {| cos := fun _ => Fin 1; sin := fun _ => Fin 0; PI := Fin 3 |}
      [Fin 1; Fin 2] = Some (Returns complex) /\
    length complex = (2 * length [Fin 1; Fin 2])%nat /\
    Arr.get complex 0 ≃ fold_right JS.add (Fin 0) [Fin 1; Fin 2] /\
    Arr.get complex 1 ≃ Fin 0.
Proof.
  apply (fft_first_bin {| cos := fun _ => Fin 1; sin := fun _ => Fin 0; PI := Fin 3 |}
           I (fun _ _ => Qeq_refl 1) (fun _ _ => Qeq_refl 0) [Fin 1; Fin 2] 1 2).
  - repeat constructor.
  - reflexivity.
  - lia.
  - lia.
Defined.

End FftFacts.
